(** * Baidu-OCR: layout reconstruction, credential handling, retry and batch
    discovery, embedded from the Python sources

    - [baidu_ocr_integration.py]: [BaiduOCRClient], [BaiduOCRProcessor]
    - [retry_failed_files.py]: [RetryFailedFiles]
    - [baidu_ocr_batch_processor.py]: [BaiduOCRBatchProcessor]

    Python [str] values are sequences of Unicode code points; Python [int]
    values are unbounded integers.  Paths, line ends and text files follow
    POSIX: [pathlib] works on [PurePosixPath], a text file is written as
    given and read with universal newlines, and the encoding is UTF-8. *)

From Stdlib Require Import ZArith NArith List Bool Lia.
From Stdlib Require String Ascii QArith DecimalString.
Import ListNotations.
Import String.StringSyntax.
Delimit Scope string_scope with string.

Local Open Scope Z_scope.

(** ** Python strings *)

Module PyStr.

(** A [str] is the list of its code points. *)
Definition pystr := list N.

(** An ASCII literal as a [str]. *)
Definition py (s : String.string) : pystr :=
  List.map Ascii.N_of_ascii (String.list_ascii_of_string s).

Arguments py s%_string.

Definition SP : pystr := [32%N].
Definition NL : pystr := [10%N].

Definition in_range (lo hi c : N) : bool := (N.leb lo c && N.leb c hi)%bool.

(** [str.isspace] on one code point: the characters that [str.strip()] and
    [str.split()] treat as whitespace. *)
Definition isspace (c : N) : bool :=
  (in_range 9 13 c || in_range 28 32 c || N.eqb c 133 || N.eqb c 160
   || N.eqb c 5760 || in_range 8192 8202 c || N.eqb c 8232 || N.eqb c 8233
   || N.eqb c 8239 || N.eqb c 8287 || N.eqb c 12288)%bool.

Fixpoint lstrip (s : pystr) : pystr :=
  match s with
  | [] => []
  | c :: t => if isspace c then lstrip t else s
  end.

Definition rstrip (s : pystr) : pystr := rev (lstrip (rev s)).

(** [s.strip()] *)
Definition strip (s : pystr) : pystr := rstrip (lstrip s).

(** Truth value of a [str]: non-empty. *)
Definition truthy (s : pystr) : bool :=
  match s with [] => false | _ :: _ => true end.

(** A string with at least one non-whitespace character. *)
Definition nonblank (s : pystr) : bool := existsb (fun c => negb (isspace c)) s.

(** [sep.join(l)] *)
Fixpoint join (sep : pystr) (l : list pystr) : pystr :=
  match l with
  | [] => []
  | x :: rest =>
      match rest with
      | [] => x
      | _ :: _ => x ++ sep ++ join sep rest
      end
  end.

(** [a == b] *)
Fixpoint eqb (a b : pystr) : bool :=
  match a, b with
  | [], [] => true
  | x :: a', y :: b' => (N.eqb x y && eqb a' b')%bool
  | _, _ => false
  end.

Fixpoint startswith (s p : pystr) : bool :=
  match p, s with
  | [], _ => true
  | _ :: _, [] => false
  | a :: p', b :: s' => (N.eqb a b && startswith s' p')%bool
  end.

(** [s.endswith(p)] *)
Definition endswith (s p : pystr) : bool := startswith (rev s) (rev p).

(** [p in s] *)
Fixpoint contains (s p : pystr) : bool :=
  (startswith s p ||
   match s with
   | [] => false
   | _ :: t => contains t p
   end)%bool.

(** [str.upper] / [str.lower] on the letters A-Z / a-z; other code points
    are left as they are. *)
Definition upper_char (c : N) : N := if in_range 97 122 c then (c - 32)%N else c.
Definition lower_char (c : N) : N := if in_range 65 90 c then (c + 32)%N else c.
Definition upper (s : pystr) : pystr := List.map upper_char s.
Definition lower (s : pystr) : pystr := List.map lower_char s.

(** [s.split()]: the maximal runs of non-whitespace characters. *)
Fixpoint split_aux (s cur : pystr) (acc : list pystr) : list pystr :=
  match s with
  | [] => rev (if truthy cur then rev cur :: acc else acc)
  | c :: t =>
      if isspace c
      then split_aux t [] (if truthy cur then rev cur :: acc else acc)
      else split_aux t (c :: cur) acc
  end.

Definition split (s : pystr) : list pystr := split_aux s [] [].

(** Lexicographic order on code points, the order of [sorted] on [str]. *)
Fixpoint leb (a b : pystr) : bool :=
  match a, b with
  | [], _ => true
  | _ :: _, [] => false
  | x :: a', y :: b' =>
      if N.ltb x y then true else if N.eqb x y then leb a' b' else false
  end.

Fixpoint insert_sorted (x : pystr) (l : list pystr) : list pystr :=
  match l with
  | [] => [x]
  | y :: t => if leb x y then x :: l else y :: insert_sorted x t
  end.

(** [sorted(l)] *)
Definition sorted (l : list pystr) : list pystr := fold_right insert_sorted [] l.

(** [str(n)] for an integer. *)
Definition str_int (n : Z) : pystr :=
  py (DecimalString.NilZero.string_of_int (Z.to_int n)).

(** A surrogate code point: the only code points UTF-8 cannot encode. *)
Definition is_surrogate (c : N) : bool := in_range 55296 57343 c.

(** [s.encode('utf-8')] succeeds. *)
Definition encodable (s : pystr) : bool :=
  forallb (fun c => negb (is_surrogate c)) s.

(** The number of characters before the first surrogate. *)
Fixpoint clean_prefix (s : pystr) : nat :=
  match s with
  | [] => 0
  | c :: t => if is_surrogate c then 0 else S (clean_prefix t)
  end.

(** The surrogates a string starts with. *)
Fixpoint surrogate_run (s : pystr) : pystr :=
  match s with
  | [] => []
  | c :: t => if is_surrogate c then c :: surrogate_run t else []
  end.

Definition hex_digit (d : N) : N := if N.ltb d 10 then (48 + d)%N else (87 + d)%N.

Definition hex4 (c : N) : pystr :=
  [hex_digit (c / 4096); hex_digit ((c / 256) mod 16);
   hex_digit ((c / 16) mod 16); hex_digit (c mod 16)]%N.

(** [str(e)] of the [UnicodeEncodeError] that encoding [s] raises: it names
    the first run of surrogates. *)
Definition encode_error (s : pystr) : pystr :=
  let start := clean_prefix s in
  let run := surrogate_run (skipn start s) in
  py "'utf-8' codec can't encode "
  ++ match run with
     | [c] =>
         py "character '\u" ++ hex4 c ++ py "' in position "
         ++ str_int (Z.of_nat start)
     | _ =>
         py "characters in position " ++ str_int (Z.of_nat start) ++ py "-"
         ++ str_int (Z.of_nat (start + List.length run - 1))
     end
  ++ py ": surrogates not allowed".

(** What reading in text mode makes of the stored text: every line end
    written as CR LF or as a lone CR is read as LF. *)
Fixpoint universal_newlines (s : pystr) : pystr :=
  match s with
  | [] => []
  | c :: t =>
      if N.eqb c 13
      then 10%N :: match t with
                   | [] => []
                   | d :: t' =>
                       if N.eqb d 10 then universal_newlines t'
                       else universal_newlines t
                   end
      else c :: universal_newlines t
  end.

End PyStr.

Import PyStr.

(** ** JSON values returned by the recognition service *)

(** [word_info['location']]: only [top] is read. *)
Record location := mk_location { top : option Z }.

(** One entry of [words_result]; both keys are read with [.get]. *)
Record word_info := mk_word_info {
  words : option pystr;
  word_location : option location
}.

(** One entry of [form_result]; the [row] key may be missing. *)
Record form_row := mk_form_row { row : option (list pystr) }.

(** The response dictionary of the recognition endpoint. *)
Record ocr_result := mk_ocr_result {
  error_code : option Z;
  error_msg : option pystr;
  words_result : option (list word_info);
  form_result : option (list form_row)
}.

(** ** Layout reconstruction: [convert_to_markdown], [convert_table_to_markdown] *)

Module Layout.

(** Loop state of [convert_to_markdown]: [lines], [current_line], [last_y]. *)
Record md_state := mk_md {
  lines : list pystr;
  current_line : pystr;
  last_y : option Z
}.

Definition md_init : md_state := mk_md [] [] None.

(** [if current_line.strip(): lines.append(current_line.strip())] *)
Definition flush (ls : list pystr) (cur : pystr) : list pystr :=
  if truthy (strip cur) then ls ++ [strip cur] else ls.

Definition word_text (wi : word_info) : pystr :=
  match words wi with Some w => w | None => [] end.

Definition word_top (wi : word_info) : Z :=
  match word_location wi with
  | Some loc => match top loc with Some y => y | None => 0 end
  | None => 0
  end.

(** [last_y is not None and abs(y - last_y) > 20] *)
Definition far_apart (prev : option Z) (y : Z) : bool :=
  match prev with
  | Some ly => 20 <? Z.abs (y - ly)
  | None => false
  end.

(** One iteration of the [for word_info in ...] loop. *)
Definition md_step (st : md_state) (wi : word_info) : md_state :=
  let word := word_text wi in
  let y := word_top wi in
  if far_apart (last_y st) y
  then mk_md (flush (lines st) (current_line st)) word (Some y)
  else mk_md (lines st) (current_line st ++ SP ++ word) (Some y).

Definition md_loop (ws : list word_info) : md_state := fold_left md_step ws md_init.

(** The list [lines] as it is just before the final [join]. *)
Definition md_lines (ws : list word_info) : list pystr :=
  let st := md_loop ws in flush (lines st) (current_line st).

Definition convert_to_markdown (r : ocr_result) : pystr :=
  match words_result r with
  | None => []
  | Some ws => join NL (md_lines ws)
  end.

(** [table_data]: the [row] value of every entry that has one. *)
Fixpoint table_data (fr : list form_row) : list (list pystr) :=
  match fr with
  | [] => []
  | r :: rest =>
      match row r with
      | Some cells => cells :: table_data rest
      | None => table_data rest
      end
  end.

(** ['| ' + ' | '.join(cells) + ' |'] *)
Definition pipe_row (cells : list pystr) : pystr :=
  py "| " ++ join (py " | ") cells ++ py " |".

Definition md_table_lines (td : list (list pystr)) : list pystr :=
  match td with
  | [] => []
  | headers :: rest =>
      [pipe_row headers; pipe_row (repeat (py "---") (length headers))]
      ++ List.map pipe_row rest
  end.

Definition convert_table_to_markdown (r : ocr_result) : pystr :=
  match form_result r with
  | None => convert_to_markdown r
  | Some fr =>
      match fr with
      | [] => []
      | _ :: _ =>
          match table_data fr with
          | [] => []
          | td => join NL (md_table_lines td)
          end
      end
  end.

End Layout.

(** ** The outside world: clock, network endpoints, file system

    Every external call is answered by an oracle indexed by the number of
    calls made so far, so that a run is a function of the initial world.
    Clock readings are whole seconds.  [print] writes to a console that
    takes every text; it has no further effect and is left out.  [Raise]
    stands for exceptions of class [Exception], the ones an
    [except Exception] clause catches.  The file system is keyed by path
    strings as the program passes them to the operating system; [scandir]
    lists the entry names of the directory a path string denotes. *)

Module Env.

(** The answer to one HTTP request: [requests.post] or [response.json()]
    raises, or a JSON document comes back. *)
Inductive reply (J : Type) : Type :=
| Unreachable (msg : pystr)
| Json (j : J).

Arguments Unreachable {J} msg.
Arguments Json {J} j.

(** The response dictionary of the token endpoint; [tj_repr] is the text
    Python prints for it. *)
Record token_json := mk_token_json {
  tj_access_token : option pystr;
  tj_expires_in : option Z;
  tj_repr : pystr
}.

Record World := mk_world {
  clock : nat -> Z;               (* the k-th reading of the wall clock *)
  clock_reads : nat;
  strftime : Z -> String.string;  (* a time as '%Y-%m-%d %H:%M:%S': ASCII *)
  token_endpoint : nat -> reply token_json;
  token_requests : nat;
  ocr_endpoint : nat -> reply ocr_result;
  ocr_requests : list pystr;      (* endpoints requested, in order *)
  files : pystr -> option pystr;
  writable : pystr -> bool;
  scandir : pystr -> list pystr;  (* entry names of a directory *)
  can_mkdir : pystr -> bool;
  oserror : pystr -> pystr;       (* [str(e)] of the [OSError] a path raises *)
  sleeps : list Z                 (* arguments of [time.sleep], in order *)
}.

Definition tick (w : World) : World :=
  mk_world (clock w) (S (clock_reads w)) (strftime w) (token_endpoint w)
    (token_requests w) (ocr_endpoint w) (ocr_requests w) (files w)
    (writable w) (scandir w) (can_mkdir w) (oserror w) (sleeps w).

Definition count_token_request (w : World) : World :=
  mk_world (clock w) (clock_reads w) (strftime w) (token_endpoint w)
    (S (token_requests w)) (ocr_endpoint w) (ocr_requests w) (files w)
    (writable w) (scandir w) (can_mkdir w) (oserror w) (sleeps w).

Definition log_ocr_request (endpoint : pystr) (w : World) : World :=
  mk_world (clock w) (clock_reads w) (strftime w) (token_endpoint w)
    (token_requests w) (ocr_endpoint w) (ocr_requests w ++ [endpoint])
    (files w) (writable w) (scandir w) (can_mkdir w) (oserror w) (sleeps w).

Definition store_file (path content : pystr) (w : World) : World :=
  mk_world (clock w) (clock_reads w) (strftime w) (token_endpoint w)
    (token_requests w) (ocr_endpoint w) (ocr_requests w)
    (fun p => if PyStr.eqb p path then Some content else files w p)
    (writable w) (scandir w) (can_mkdir w) (oserror w) (sleeps w).

Definition log_sleep (d : Z) (w : World) : World :=
  mk_world (clock w) (clock_reads w) (strftime w) (token_endpoint w)
    (token_requests w) (ocr_endpoint w) (ocr_requests w) (files w)
    (writable w) (scandir w) (can_mkdir w) (oserror w) (sleeps w ++ [d]).

(** Result of a Python call: a value, or a raised [Exception] with its
    [str(e)]. *)
Inductive res (A : Type) : Type :=
| Ret (a : A)
| Raise (msg : pystr).

Arguments Ret {A} a.
Arguments Raise {A} msg.

(** A method of an object of type [S]: it may mutate [self] and the world. *)
Definition M (S A : Type) : Type := S -> World -> res A * S * World.

Definition ret {S A} (a : A) : M S A := fun s w => (Ret a, s, w).

Definition raise {S A} (msg : pystr) : M S A := fun s w => (Raise msg, s, w).

Definition bind {S A B} (m : M S A) (k : A -> M S B) : M S B :=
  fun s w =>
    match m s w with
    | (Ret a, s', w') => k a s' w'
    | (Raise e, s', w') => (Raise e, s', w')
    end.

(** [try: m  except Exception as e: h e] *)
Definition try_except {S A} (m : M S A) (h : pystr -> M S A) : M S A :=
  fun s w =>
    match m s w with
    | (Ret a, s', w') => (Ret a, s', w')
    | (Raise e, s', w') => h e s' w'
    end.

(** [try: m  finally: f] *)
Definition try_finally {S A} (m : M S A) (f : M S unit) : M S A :=
  fun s w =>
    match m s w with
    | (r, s', w') =>
        match f s' w' with
        | (Ret _, s'', w'') => (r, s'', w'')
        | (Raise e, s'', w'') => (Raise e, s'', w'')
        end
    end.

Definition get_self {S} : M S S := fun s w => (Ret s, s, w).

Definition modify {S} (f : S -> S) : M S unit := fun s w => (Ret tt, f s, w).

(** Run a method of a component object held in a field of [self]. *)
Definition on_field {S T A} (get : T -> S) (set : S -> T -> T) (m : M S A) : M T A :=
  fun t w =>
    match m (get t) w with
    | (r, s', w') => (r, set s' t, w')
    end.

(** [time.time()] *)
Definition time_time {S} : M S Z :=
  fun s w => (Ret (clock w (clock_reads w)), s, tick w).

(** [datetime.now().strftime('%Y-%m-%d %H:%M:%S')] *)
Definition now_strftime {S} : M S pystr :=
  fun s w => (Ret (py (strftime w (clock w (clock_reads w)))), s, tick w).

(** [time.sleep(d)] *)
Definition time_sleep {S} (d : Z) : M S unit :=
  fun s w => (Ret tt, s, log_sleep d w).

(** [requests.post(token_url, ...).json()] *)
Definition post_token {S} : M S token_json :=
  fun s w =>
    match token_endpoint w (token_requests w) with
    | Json j => (Ret j, s, count_token_request w)
    | Unreachable e => (Raise e, s, count_token_request w)
    end.

(** [requests.post(url, ...).json()] on a recognition endpoint *)
Definition post_ocr {S} (endpoint : pystr) : M S ocr_result :=
  fun s w =>
    match ocr_endpoint w (List.length (ocr_requests w)) with
    | Json j => (Ret j, s, log_ocr_request endpoint w)
    | Unreachable e => (Raise e, s, log_ocr_request endpoint w)
    end.

(** [open(path, 'rb').read()]: the stored content as it is. *)
Definition read_file {S} (path : pystr) : M S pystr :=
  fun s w =>
    match files w path with
    | Some content => (Ret content, s, w)
    | None => (Raise (oserror w path), s, w)
    end.

(** [open(path, 'r', encoding='utf-8').read()]: the stored text with its
    line ends translated. *)
Definition read_text {S} (path : pystr) : M S pystr :=
  fun s w =>
    match files w path with
    | Some content => (Ret (universal_newlines content), s, w)
    | None => (Raise (oserror w path), s, w)
    end.

(** [open(path, 'w', encoding='utf-8')]: the file is created, or emptied
    when it exists. *)
Definition open_w {S} (path : pystr) : M S unit :=
  fun s w =>
    if writable w path
    then (Ret tt, s, store_file path [] w)
    else (Raise (oserror w path), s, w).

(** [f.write(text)] on the file opened at [path]: the text is appended, or
    the call raises when the text cannot be encoded and what was written
    before stays in the file. *)
Definition write_text {S} (path text : pystr) : M S unit :=
  fun s w =>
    if encodable text
    then (Ret tt, s,
          store_file path
            (match files w path with
             | Some written => written ++ text
             | None => text
             end) w)
    else (Raise (encode_error text), s, w).

(** Consecutive [f.write] calls. *)
Fixpoint write_pieces {S} (path : pystr) (pieces : list pystr) : M S unit :=
  match pieces with
  | [] => ret tt
  | piece :: rest => bind (write_text path piece) (fun _ => write_pieces path rest)
  end.

(** [with open(path, 'w', encoding='utf-8') as f: f.write(content)]: the
    file is opened, which empties it, and then written in one piece; content
    that cannot be encoded leaves the emptied file behind. *)
Definition write_file {S} (path content : pystr) : M S unit :=
  fun s w =>
    if writable w path then
      if encodable content
      then (Ret tt, s, store_file path content w)
      else (Raise (encode_error content), s, store_file path [] w)
    else (Raise (oserror w path), s, w).

(** [Path(path).mkdir(parents=True, exist_ok=True)] *)
Definition mkdir {S} (path : pystr) : M S unit :=
  fun s w =>
    if can_mkdir w path then (Ret tt, s, w) else (Raise (oserror w path), s, w).

End Env.

Import Env.

Declare Scope py_scope.
Delimit Scope py_scope with py_do.
Notation "x <- m ;; k" := (bind m (fun x => k))
  (at level 61, m at next level, right associativity) : py_scope.
Notation "m ;; k" := (bind m (fun _ => k))
  (at level 61, right associativity) : py_scope.
Local Open Scope py_scope.

(** ** Paths *)

Module PathLib.

Definition DOT : N := 46.
Definition SLASH : N := 47.

(** [s.split(c)] for a one-character separator. *)
Fixpoint split_on (c : N) (s : pystr) : list pystr :=
  match s with
  | [] => [[]]
  | x :: rest =>
      if N.eqb x c then [] :: split_on c rest
      else match split_on c rest with
           | [] => [[x]]
           | h :: t => (x :: h) :: t
           end
  end.

(** A parsed [PurePosixPath]: the root ("", "/" or "//") and the
    components after it. *)
Record path := mk_path { root : pystr; tail : list pystr }.

(** [posixpath.splitroot]: exactly two leading slashes are a root of their
    own, any other number of them is the root "/". *)
Definition split_root (p : pystr) : pystr * pystr :=
  match p with
  | [] => ([], [])
  | a :: rest1 =>
      if N.eqb a SLASH then
        match rest1 with
        | [] => ([SLASH], [])
        | b :: rest2 =>
            if N.eqb b SLASH then
              match rest2 with
              | [] => ([SLASH; SLASH], [])
              | c :: _ =>
                  if N.eqb c SLASH then ([SLASH], rest1)
                  else ([SLASH; SLASH], rest2)
              end
            else ([SLASH], rest1)
        end
      else ([], p)
  end.

(** A component that parsing keeps: not empty and not ".". *)
Definition kept (x : pystr) : bool := (truthy x && negb (PyStr.eqb x [DOT]))%bool.

(** [Path(s)] *)
Definition Path (s : pystr) : path :=
  mk_path (fst (split_root s)) (filter kept (split_on SLASH (snd (split_root s)))).

(** [str(p)] *)
Definition str (p : path) : pystr :=
  match root p, tail p with
  | [], [] => [DOT]
  | _, _ => root p ++ join [SLASH] (tail p)
  end.

(** [p / key] for a string [key]: a key with a root replaces [p]. *)
Definition truediv (p : path) (key : pystr) : path :=
  let q := Path key in
  if truthy (root q) then q else mk_path (root p) (tail p ++ tail q).

(** [str(Path(d) / n)] *)
Definition joinpath (d n : pystr) : pystr := str (truediv (Path d) n).

(** The path string of the entry [n] of the directory [Path(d)], as
    [glob] yields it. *)
Definition child (d n : pystr) : pystr :=
  let p := Path d in
  match tail p with
  | _ :: _ => str p ++ [SLASH] ++ n
  | [] => if truthy (root p) then str p ++ n else n
  end.

(** Split at the last occurrence of [c]: the text before it and after it. *)
Fixpoint split_last (c : N) (s : pystr) : option (pystr * pystr) :=
  match s with
  | [] => None
  | x :: rest =>
      match split_last c rest with
      | Some (before, after) => Some (x :: before, after)
      | None => if N.eqb x c then Some ([], rest) else None
      end
  end.

(** [Path(p).name]: the final component, if there is one. *)
Definition name (p : pystr) : pystr := last (tail (Path p)) [].

(** [Path(p).stem]: the final component without its last suffix; a dot that
    is the first or the last character of the name starts no suffix. *)
Definition stem (p : pystr) : pystr :=
  let n := name p in
  match split_last DOT n with
  | Some (before, after) => if (truthy before && truthy after)%bool then before else n
  | None => n
  end.

(** [Path(d).glob("*" + ext)]: the entries whose name ends with [ext],
    compared case-sensitively, in directory order. *)
Definition glob_suffix (w : World) (d ext : pystr) : list pystr :=
  filter (fun n => endswith n ext) (scandir w d).

End PathLib.

(** ** [class BaiduOCRClient] *)

Module BaiduOCRClient.

Record t := mk {
  api_key : pystr;
  secret_key : pystr;
  app_id : option pystr;
  access_token : option pystr;
  token_expires : Z;
  base_url : pystr
}.

Definition set_token (tok : pystr) (c : t) : t :=
  mk (api_key c) (secret_key c) (app_id c) (Some tok) (token_expires c) (base_url c).

Definition set_token_expires (e : Z) (c : t) : t :=
  mk (api_key c) (secret_key c) (app_id c) (access_token c) e (base_url c).

(** The text "获取令牌失败: " *)
Definition MSG_TOKEN_FAILED : pystr :=
  [33719; 21462; 20196; 29260; 22833; 36133; 58; 32]%N.

(** The text "API错误: " *)
Definition MSG_API_ERROR : pystr := [65; 80; 73; 38169; 35823; 58; 32]%N.

(** The safety margin taken off the declared lifetime, in seconds. *)
Definition EXPIRY_MARGIN : Z := 300.

Definition DEFAULT_EXPIRES_IN : Z := 3600.

Definition _get_access_token : M t unit :=
  try_except
    (result <- post_token ;;
     match tj_access_token result with
     | Some tok =>
         modify (set_token tok) ;;
         now <- time_time ;;
         modify (set_token_expires
                   (now + match tj_expires_in result with
                          | Some e => e
                          | None => DEFAULT_EXPIRES_IN
                          end - EXPIRY_MARGIN))
     | None => raise (MSG_TOKEN_FAILED ++ tj_repr result)
     end)
    (fun e => raise e).

(** [BaiduOCRClient(api_key, secret_key, app_id)] *)
Definition __init__ (api_key secret_key : pystr) (app_id : option pystr)
  : World -> res t * World :=
  fun w =>
    let self := mk api_key secret_key app_id None 0
                  (py "https://aip.baidubce.com/rest/2.0/ocr/v1") in
    match _get_access_token self w with
    | (Ret _, self', w') => (Ret self', w')
    | (Raise e, _, w') => (Raise e, w')
    end.

(** [not self.access_token] *)
Definition token_missing (c : t) : bool :=
  match access_token c with
  | None => true
  | Some tok => negb (truthy tok)
  end.

Definition _ensure_token_valid : M t unit :=
  self <- get_self ;;
  if token_missing self then _get_access_token
  else
    now <- time_time ;;
    if token_expires self <? now then _get_access_token else ret tt.

Definition _make_request (endpoint image_data : pystr) : M t ocr_result :=
  _ensure_token_valid ;;
  try_except
    (result <- post_ocr endpoint ;;
     match error_code result with
     | Some _ =>
         raise (MSG_API_ERROR ++ match error_msg result with
                                 | Some m => m
                                 | None => py "Unknown error"
                                 end)
     | None => ret result
     end)
    (fun e => raise e).

Definition general_text_ocr (image_path : pystr) : M t ocr_result :=
  image_data <- read_file image_path ;;
  _make_request (py "general") image_data.

Definition accurate_text_ocr (image_path : pystr) : M t ocr_result :=
  image_data <- read_file image_path ;;
  _make_request (py "general_basic") image_data.

Definition table_ocr (image_path : pystr) : M t ocr_result :=
  image_data <- read_file image_path ;;
  _make_request (py "form") image_data.

Definition handwriting_ocr (image_path : pystr) : M t ocr_result :=
  image_data <- read_file image_path ;;
  _make_request (py "handwriting") image_data.

Definition convert_to_markdown := Layout.convert_to_markdown.
Definition convert_table_to_markdown := Layout.convert_table_to_markdown.

End BaiduOCRClient.

(** ** [class BaiduOCRProcessor] *)

Module BaiduOCRProcessor.

Record t := mk {
  client : BaiduOCRClient.t;
  processed_count : Z;
  success_count : Z;
  failed_count : Z
}.

Definition set_client (c : BaiduOCRClient.t) (p : t) : t :=
  mk c (processed_count p) (success_count p) (failed_count p).

Definition incr_processed (p : t) : t :=
  mk (client p) (processed_count p + 1) (success_count p) (failed_count p).

Definition incr_success (p : t) : t :=
  mk (client p) (processed_count p) (success_count p + 1) (failed_count p).

Definition incr_failed (p : t) : t :=
  mk (client p) (processed_count p) (success_count p) (failed_count p + 1).

Definition __init__ (api_key secret_key : pystr) : World -> res t * World :=
  fun w =>
    match BaiduOCRClient.__init__ api_key secret_key None w with
    | (Ret c, w') => (Ret (mk c 0 0 0), w')
    | (Raise e, w') => (Raise e, w')
    end.

Definition on_client {A} (m : M BaiduOCRClient.t A) : M t A :=
  on_field client set_client m.

(** The text "# OCR识别结果\n\n" *)
Definition HEADER_TITLE : pystr :=
  [35; 32; 79; 67; 82; 35782; 21035; 32467; 26524; 10; 10]%N.

(** The text "*OCR识别时间: " *)
Definition HEADER_TIME : pystr :=
  [42; 79; 67; 82; 35782; 21035; 26102; 38388; 58; 32]%N.

(** The text "*OCR引擎: 百度AI Studio (" *)
Definition HEADER_ENGINE : pystr :=
  [42; 79; 67; 82; 24341; 25806; 58; 32; 30334; 24230; 65; 73; 32; 83; 116;
   117; 100; 105; 111; 32; 40]%N.

Definition header (stamp ocr_type : pystr) : pystr :=
  HEADER_TITLE
  ++ (HEADER_TIME ++ stamp ++ py "*" ++ NL ++ NL)
  ++ (HEADER_ENGINE ++ ocr_type ++ py ")*" ++ NL ++ NL)
  ++ (py "---" ++ NL ++ NL).

(** The recognition call and conversion selected by [ocr_type]. *)
Definition recognize (image_path ocr_type : pystr) : M t pystr :=
  if PyStr.eqb ocr_type (py "table") then
    result <- on_client (BaiduOCRClient.table_ocr image_path) ;;
    ret (BaiduOCRClient.convert_table_to_markdown result)
  else if PyStr.eqb ocr_type (py "handwriting") then
    result <- on_client (BaiduOCRClient.handwriting_ocr image_path) ;;
    ret (BaiduOCRClient.convert_to_markdown result)
  else if PyStr.eqb ocr_type (py "accurate") then
    result <- on_client (BaiduOCRClient.accurate_text_ocr image_path) ;;
    ret (BaiduOCRClient.convert_to_markdown result)
  else
    result <- on_client (BaiduOCRClient.general_text_ocr image_path) ;;
    ret (BaiduOCRClient.convert_to_markdown result).

Definition process_single_image (image_path output_path ocr_type : pystr)
  : M t bool :=
  try_finally
    (try_except
       (content <- recognize image_path ocr_type ;;
        if truthy (strip content) then
          stamp <- now_strftime ;;
          let full_content := header stamp ocr_type ++ content in
          write_file output_path full_content ;;
          modify incr_success ;;
          ret true
        else
          modify incr_failed ;;
          ret false)
       (fun _ =>
          modify incr_failed ;;
          ret false))
    (modify incr_processed).

Definition DEFAULT_EXTENSIONS : list pystr :=
  [py ".jpg"; py ".jpeg"; py ".png"; py ".bmp"; py ".tiff"].

(** [sorted(list(set(image_files)))] over the two [glob] calls per
    extension. *)
Definition find_images (w : World) (image_dir : pystr) (extensions : list pystr)
  : list pystr :=
  List.map (PathLib.child image_dir)
    (sorted
       (nodup (list_eq_dec N.eq_dec)
          (flat_map
             (fun ext =>
                PathLib.glob_suffix w image_dir ext
                ++ PathLib.glob_suffix w image_dir (upper ext))
             extensions))).

(** [output_path / f"{image_file.stem}_baidu.md"] as a string *)
Definition artifact_path (output_dir image_file : pystr) : pystr :=
  PathLib.joinpath output_dir (PathLib.stem image_file ++ py "_baidu.md").

(** The loop of [process_batch]; [results] keeps one entry per file. *)
Fixpoint process_files (output_dir ocr_type : pystr) (image_files : list pystr)
  : M t (list (pystr * bool)) :=
  match image_files with
  | [] => ret []
  | image_file :: rest =>
      ok <- process_single_image image_file
              (artifact_path output_dir image_file) ocr_type ;;
      results <- process_files output_dir ocr_type rest ;;
      ret ((image_file, ok) :: results)
  end.

(** The closing statistics divide by [processed_count]; with a count of
    zero the division raises. *)
Definition process_batch (image_dir output_dir ocr_type : pystr)
  (extensions : option (list pystr)) : M t (list (pystr * bool)) :=
  let extensions := match extensions with
                    | Some l => l
                    | None => DEFAULT_EXTENSIONS
                    end in
  mkdir output_dir ;;
  image_files <- (fun self w => (Ret (find_images w image_dir extensions), self, w)) ;;
  start_time <- time_time ;;
  results <- process_files output_dir ocr_type image_files ;;
  end_time <- time_time ;;
  self <- get_self ;;
  if processed_count self =? 0
  then raise (py "division by zero")
  else ret results.

End BaiduOCRProcessor.

(** ** [class RetryFailedFiles] *)

Module RetryFailedFiles.

(** [self.stats], a dictionary with three fixed keys. *)
Record stats_t := mk_stats {
  total_processed : Z;
  success_count : Z;
  failed_count : Z
}.

Record t := mk {
  api_key : pystr;
  secret_key : pystr;
  processor : BaiduOCRProcessor.t;
  stats : stats_t
}.

Definition set_processor (p : BaiduOCRProcessor.t) (r : t) : t :=
  mk (api_key r) (secret_key r) p (stats r).

Definition incr_success (r : t) : t :=
  mk (api_key r) (secret_key r) (processor r)
     (mk_stats (total_processed (stats r)) (success_count (stats r) + 1)
               (failed_count (stats r))).

Definition incr_failed (r : t) : t :=
  mk (api_key r) (secret_key r) (processor r)
     (mk_stats (total_processed (stats r)) (success_count (stats r))
               (failed_count (stats r) + 1)).

Definition __init__ (api_key secret_key : pystr) : World -> res t * World :=
  fun w =>
    match BaiduOCRProcessor.__init__ api_key secret_key w with
    | (Ret p, w') => (Ret (mk api_key secret_key p (mk_stats 0 0 0)), w')
    | (Raise e, w') => (Raise e, w')
    end.

Definition on_processor {A} (m : M BaiduOCRProcessor.t A) : M t A :=
  on_field processor set_processor m.

(** The dictionary returned by [process_with_retry]. *)
Record outcome := mk_outcome {
  success : bool;
  image_file : pystr;
  output_file : pystr;
  processing_time : Z;
  char_count : Z;
  word_count : Z;
  error : option pystr;
  retries : Z
}.

(** The text "百度OCR处理失败" *)
Definition MSG_PROCESSING_FAILED : pystr :=
  [30334; 24230; 79; 67; 82; 22788; 29702; 22833; 36133]%N.

(** What one iteration of the [for attempt in range(max_retries)] loop
    ends with. *)
Inductive control : Type :=
| Continue
| Return (o : outcome).

(** [delay = 2 ** attempt] *)
Definition backoff_delay (attempt : Z) : Z := 2 ^ attempt.

(** The [try] block of one iteration. *)
Definition attempt_body (image_file output_file : pystr) (max_retries attempt : Z)
  : M t control :=
  start_time <- time_time ;;
  (if 0 <? attempt then time_sleep (backoff_delay attempt) else ret tt) ;;
  ok <- on_processor
          (BaiduOCRProcessor.process_single_image image_file output_file
             (py "accurate")) ;;
  end_time <- time_time ;;
  let processing_time := end_time - start_time in
  if ok then
    counts <- try_except
                (content <- read_text output_file ;;
                 ret (Z.of_nat (List.length content),
                      Z.of_nat (List.length (split content))))
                (fun _ => ret (0, 0)) ;;
    modify incr_success ;;
    ret (Return (mk_outcome true image_file output_file processing_time
                   (fst counts) (snd counts) None attempt))
  else if attempt <? max_retries - 1 then
    ret Continue
  else
    modify incr_failed ;;
    ret (Return (mk_outcome false image_file output_file processing_time
                   0 0 (Some MSG_PROCESSING_FAILED) attempt)).

(** The [except Exception as e] block of one iteration. *)
Definition attempt_handler (image_file output_file : pystr) (max_retries attempt : Z)
  (error_msg : pystr) : M t control :=
  if (contains (lower error_msg) (py "qps request limit reached")
      && (attempt <? max_retries - 1))%bool then
    ret Continue
  else if attempt <? max_retries - 1 then
    ret Continue
  else
    modify incr_failed ;;
    ret (Return (mk_outcome false image_file output_file 0 0 0
                   (Some error_msg) attempt)).

(** The loop over [range(max_retries)]: [remaining] iterations are left and
    the next one has index [attempt].  When the range is exhausted the
    function falls off its end and returns [None]. *)
Fixpoint retry_loop (remaining : nat) (image_file output_file : pystr)
  (max_retries attempt : Z) : M t (option outcome) :=
  match remaining with
  | O => ret None
  | S remaining' =>
      step <- try_except
                (attempt_body image_file output_file max_retries attempt)
                (attempt_handler image_file output_file max_retries attempt) ;;
      match step with
      | Continue =>
          retry_loop remaining' image_file output_file max_retries (attempt + 1)
      | Return o => ret (Some o)
      end
  end.

Definition process_with_retry (image_file output_file : pystr) (max_retries : Z)
  : M t (option outcome) :=
  retry_loop (Z.to_nat max_retries) image_file output_file max_retries 0.

Definition DEFAULT_MAX_RETRIES : Z := 3.

End RetryFailedFiles.

(** ** [class BaiduOCRBatchProcessor] *)

Module BaiduOCRBatchProcessor.

(** The dictionary returned by [process_single_image_safe]. *)
Record result := mk_result {
  success : bool;
  image_file : pystr;
  output_file : pystr;
  processing_time : Z;
  char_count : Z;
  word_count : Z;
  error : option pystr
}.

Record t := mk {
  api_key : pystr;
  secret_key : pystr;
  processor : BaiduOCRProcessor.t;
  results : list result;
  processed_count : Z;
  success_count : Z;
  failed_count : Z
}.

Definition set_processor (p : BaiduOCRProcessor.t) (b : t) : t :=
  mk (api_key b) (secret_key b) p (results b) (processed_count b)
     (success_count b) (failed_count b).

Definition incr_processed (b : t) : t :=
  mk (api_key b) (secret_key b) (processor b) (results b)
     (processed_count b + 1) (success_count b) (failed_count b).

Definition incr_success (b : t) : t :=
  mk (api_key b) (secret_key b) (processor b) (results b)
     (processed_count b) (success_count b + 1) (failed_count b).

Definition incr_failed (b : t) : t :=
  mk (api_key b) (secret_key b) (processor b) (results b)
     (processed_count b) (success_count b) (failed_count b + 1).

Definition __init__ (api_key secret_key : pystr) : World -> res t * World :=
  fun w =>
    match BaiduOCRProcessor.__init__ api_key secret_key w with
    | (Ret p, w') => (Ret (mk api_key secret_key p [] 0 0 0), w')
    | (Raise e, w') => (Raise e, w')
    end.

Definition on_processor {A} (m : M BaiduOCRProcessor.t A) : M t A :=
  on_field processor set_processor m.

Definition IMAGE_EXTENSIONS : list pystr :=
  [py ".jpg"; py ".jpeg"; py ".png"; py ".bmp"; py ".tiff"].

(** The paths collected by the two [glob] calls per extension. *)
Definition globbed (w : World) (directory : pystr) : list pystr :=
  flat_map
    (fun ext =>
       PathLib.glob_suffix w directory ext
       ++ PathLib.glob_suffix w directory (upper ext))
    IMAGE_EXTENSIONS.

Definition get_image_files (directory : pystr) : M t (list pystr) :=
  fun self w =>
    (Ret (List.map (PathLib.child directory) (sorted (globbed w directory))),
     self, w).

(** The text "百度OCR处理失败" *)
Definition MSG_PROCESSING_FAILED : pystr :=
  [30334; 24230; 79; 67; 82; 22788; 29702; 22833; 36133]%N.

(** The text "未找到图片文件" *)
Definition MSG_NO_IMAGES : pystr :=
  [26410; 25214; 21040; 22270; 29255; 25991; 20214]%N.

Definition process_single_image_safe (image_file output_file : pystr) : M t result :=
  try_except
    (start_time <- time_time ;;
     ok <- on_processor
             (BaiduOCRProcessor.process_single_image image_file output_file
                (py "accurate")) ;;
     end_time <- time_time ;;
     let processing_time := end_time - start_time in
     if ok then
       counts <- try_except
                   (content <- read_text output_file ;;
                    ret (Z.of_nat (List.length content),
                         Z.of_nat (List.length (split content))))
                   (fun _ => ret (0, 0)) ;;
       modify incr_success ;;
       ret (mk_result true image_file output_file processing_time
              (fst counts) (snd counts) None)
     else
       modify incr_failed ;;
       ret (mk_result false image_file output_file processing_time 0 0
              (Some MSG_PROCESSING_FAILED)))
    (fun e =>
       modify incr_failed ;;
       ret (mk_result false image_file output_file 0 0 0 (Some e))).

(** [Path(output_dir) / f"{Path(image_file).stem}_baidu.md"] as a string *)
Definition artifact_path (output_dir image_file : pystr) : pystr :=
  PathLib.joinpath output_dir (PathLib.stem image_file ++ py "_baidu.md").

(** The statistics dictionary built at the end of a run; the two ratios
    are exact rationals. *)
Record final_stats := mk_final_stats {
  total_files : Z;
  processed_files : Z;
  fs_success_count : Z;
  fs_failed_count : Z;
  success_rate : QArith_base.Q;
  total_time : Z;
  avg_time_per_file : QArith_base.Q;
  fs_results : list result
}.

(** What [process_batch] returns: the dictionary
    [{'success': False, 'message': ...}] or the statistics. *)
Inductive report : Type :=
| NoImages (success : bool) (message : pystr)
| Stats (s : final_stats).

(** A pool with a single worker: the worker takes the submitted tasks in
    the order of their submission, while the main thread only counts the
    results it collects in [processed_count], a field no task reads. *)
Fixpoint run_tasks (tasks : list (pystr * pystr)) : M t (list result) :=
  match tasks with
  | [] => ret []
  | (img_file, out_file) :: rest =>
      r <- process_single_image_safe img_file out_file ;;
      modify incr_processed ;;
      rs <- run_tasks rest ;;
      ret (r :: rs)
  end.

Definition ratio (a b : Z) : QArith_base.Q :=
  QArith_base.Qdiv (QArith_base.inject_Z a) (QArith_base.inject_Z b).

(** The text "max_workers must be greater than 0" of the [ValueError]
    that [ThreadPoolExecutor] raises. *)
Definition MSG_MAX_WORKERS : pystr := py "max_workers must be greater than 0".

Section Pool.

(** What a pool of several workers makes of the submitted tasks.  The
    workers then run [process_single_image_safe] at the same time on the
    shared object; their interleaving is outside this embedding, which
    leaves the outcome open. *)
Variable several_workers : list (pystr * pystr) -> M t (list result).

(** The order in which [as_completed] hands the results of a single worker
    to the main thread: tasks that are done when the loop starts come in no
    particular order. *)
Variable as_completed : list result -> list result.

(** [ThreadPoolExecutor(max_workers=max_workers)] with the submission of
    the tasks and the collection of their results. *)
Definition run_pool (max_workers : Z) (tasks : list (pystr * pystr))
  : M t (list result) :=
  if max_workers <=? 0 then raise MSG_MAX_WORKERS
  else if max_workers =? 1 then
    results <- run_tasks tasks ;;
    ret (as_completed results)
  else several_workers tasks.

Definition process_batch (image_dir output_dir : pystr) (max_workers : Z)
  : M t report :=
  image_files <- get_image_files image_dir ;;
  match image_files with
  | [] => ret (NoImages false MSG_NO_IMAGES)
  | _ :: _ =>
      mkdir output_dir ;;
      let output_files := List.map (artifact_path output_dir) image_files in
      start_time <- time_time ;;
      results <- run_pool max_workers (combine image_files output_files) ;;
      end_time <- time_time ;;
      let total_time := end_time - start_time in
      let n := Z.of_nat (List.length image_files) in
      self <- get_self ;;
      ret (Stats (mk_final_stats n (processed_count self) (success_count self)
                    (failed_count self)
                    (QArith_base.Qmult (ratio (success_count self) n)
                       (QArith_base.inject_Z 100))
                    total_time (ratio total_time n) results))
  end.

End Pool.

End BaiduOCRBatchProcessor.

(** * Vocabulary of the statements *)

Module Samples.

Import Layout.

(** A word box with text and a [top] coordinate. *)
Definition word_at (text : pystr) (y : Z) : word_info :=
  mk_word_info (Some text) (Some (mk_location (Some y))).

(** A text-mode response holding the given word boxes. *)
Definition text_result (ws : list word_info) : ocr_result :=
  mk_ocr_result None None (Some ws) None.

(** Five word boxes at the top positions 0, 5, 30, 32, 80. *)
Definition five_words (w0 w1 w2 w3 w4 : pystr) : list word_info :=
  [word_at w0 0; word_at w1 5; word_at w2 30; word_at w3 32; word_at w4 80].

(** The word list of a response; a response without [words_result] has none. *)
Definition word_list (r : ocr_result) : list word_info :=
  match words_result r with
  | Some ws => ws
  | None => []
  end.

(** A response whose only word box has empty text. *)
Definition blank_word_result : ocr_result :=
  text_result [mk_word_info (Some []) None].

(** A table-mode response with the given rows. *)
Definition table_result (rows : list (list pystr)) : ocr_result :=
  mk_ocr_result None None None (Some (List.map (fun r => mk_form_row (Some r)) rows)).

Definition abc_table : ocr_result :=
  table_result [[py "A"; py "B"]; [py "1"; py "2"]; [py "3"; py "4"]].

(** A response with an empty [form_result] next to recognised words. *)
Definition empty_form_with_words : ocr_result :=
  mk_ocr_result None None (Some [word_at (py "hi") 0]) (Some []).

(** The grouping as the specification words it: a word whose [top] differs
    from the previous word's by more than 20 starts a new group, any other
    word joins the current group.  [group_lines_from y g ws] continues after
    a word at [y] with the current group [g]. *)
Fixpoint group_lines_from (prev_top : Z) (group : list pystr) (ws : list word_info)
  : list (list pystr) :=
  match ws with
  | [] => [group]
  | wi :: rest =>
      if 20 <? Z.abs (word_top wi - prev_top)
      then group :: group_lines_from (word_top wi) [word_text wi] rest
      else group_lines_from (word_top wi) (group ++ [word_text wi]) rest
  end.

Definition group_lines (ws : list word_info) : list (list pystr) :=
  match ws with
  | [] => []
  | wi :: rest => group_lines_from (word_top wi) [word_text wi] rest
  end.

(** The text of a group: its words separated by single spaces, trimmed. *)
Definition group_text (group : list pystr) : pystr := strip (join SP group).

(** The accumulator [cur] holds the words of [group], possibly after the
    space that precedes the very first word. *)
Definition holds_group (cur : pystr) (group : list pystr) : Prop :=
  group <> [] /\ (cur = join SP group \/ cur = SP ++ join SP group).

(** Whether anything printable has been gathered so far by the loop. *)
Definition has_content (st : md_state) : bool :=
  (negb (Nat.eqb (List.length (lines st)) 0) || nonblank (current_line st))%bool.

Definition all_lines_nonempty (ls : list pystr) : Prop :=
  Forall (fun x => truthy x = true) ls.

End Samples.

Import Samples.

(** ** Sample worlds *)

Module Worlds.

(** A token response granting the token "tok" for 30 days. *)
Definition token_ok : token_json :=
  mk_token_json (Some (py "tok")) (Some 2592000) (py "{'access_token': 'tok'}").

(** The response the service sends when the request rate is exceeded. *)
Definition rate_limited : ocr_result :=
  mk_ocr_result (Some 18) (Some (py "Open api qps request limit reached")) None None.

(** A world whose clock always reads 1000, whose token endpoint always
    grants [token_ok], whose only file is the image "in/a.jpg", and whose
    recognition endpoint and directory listing are given. *)
Definition sample (ocr : nat -> reply ocr_result) (entries : list pystr) : World :=
  mk_world (fun _ => 1000) 0 (fun _ => "2024-01-01 00:00:00"%string)
    (fun _ => Json token_ok) 0 ocr []
    (fun p => if PyStr.eqb p (py "in/a.jpg") then Some (py "IMG") else None)
    (fun _ => true) (fun _ => entries) (fun _ => true)
    (fun p => py "[Errno 2] No such file or directory: '" ++ p ++ py "'") [].

(** Every recognition request is answered with an empty word list. *)
Definition always_empty : World :=
  sample (fun _ => Json (text_result [])) [py "a.jpg"].

(** Every recognition request is answered with one word. *)
Definition always_hello : World :=
  sample (fun _ => Json (text_result [word_at (py "hello") 0])) [py "a.jpg"].

(** The first two recognition requests are rate limited, later ones answered. *)
Definition limited_twice : World :=
  sample (fun k => if Nat.ltb k 2 then Json rate_limited
                   else Json (text_result [word_at (py "hello") 0]))
         [py "a.jpg"].

(** A directory holding the same picture in two formats. *)
Definition two_formats : World :=
  sample (fun _ => Json (text_result [])) [py "a.png"; py "a.jpg"].

(** A directory without pictures. *)
Definition no_pictures : World :=
  sample (fun _ => Json (text_result [])) [py "notes.txt"; py "jpg"].

(** A client holding the token "tok", valid until clock reading 5000. *)
Definition client_ready : BaiduOCRClient.t :=
  BaiduOCRClient.mk (py "key") (py "secret") None (Some (py "tok")) 5000
    (py "https://aip.baidubce.com/rest/2.0/ocr/v1").

Definition processor_ready : BaiduOCRProcessor.t :=
  BaiduOCRProcessor.mk client_ready 0 0 0.

Definition retrier_ready : RetryFailedFiles.t :=
  RetryFailedFiles.mk (py "key") (py "secret") processor_ready
    (RetryFailedFiles.mk_stats 0 0 0).

Definition batch_ready : BaiduOCRBatchProcessor.t :=
  BaiduOCRBatchProcessor.mk (py "key") (py "secret") processor_ready [] 0 0 0.

End Worlds.

(** ** Predicates on runs *)

Module Specs.

(** The three counters of a processor agree: every processed image was
    counted as a success or as a failure. *)
Definition counters_consistent (p : BaiduOCRProcessor.t) : Prop :=
  BaiduOCRProcessor.processed_count p
  = BaiduOCRProcessor.success_count p + BaiduOCRProcessor.failed_count p.

(** A method that leaves the three counters of the processor alone. *)
Definition keeps_counters {A} (m : M BaiduOCRProcessor.t A) : Prop :=
  forall p w,
    let p' := snd (fst (m p w)) in
    BaiduOCRProcessor.processed_count p' = BaiduOCRProcessor.processed_count p
    /\ BaiduOCRProcessor.success_count p' = BaiduOCRProcessor.success_count p
    /\ BaiduOCRProcessor.failed_count p' = BaiduOCRProcessor.failed_count p.

(** A method that leaves the recognition service as it is. *)
Definition keeps_service {S A} (m : M S A) : Prop :=
  forall s w, ocr_endpoint (snd (m s w)) = ocr_endpoint w.

(** The service answers a request with a result that has no error code and
    converts to text without any visible character. *)
Definition empty_content (r : reply ocr_result) : Prop :=
  match r with
  | Json j =>
      error_code j = None
      /\ nonblank (Layout.convert_to_markdown j) = false
  | Unreachable _ => False
  end.

(** The service answers a request with an error code. *)
Definition api_error (r : reply ocr_result) : Prop :=
  match r with
  | Json j => error_code j <> None
  | Unreachable _ => False
  end.

(** The service answers a request with a result that has no error code and
    converts to text with a visible character. *)
Definition has_content_reply (r : reply ocr_result) : Prop :=
  match r with
  | Json j =>
      error_code j = None
      /\ nonblank (Layout.convert_to_markdown j) = true
  | Unreachable _ => False
  end.

(** The text the service answers with can be written to a UTF-8 file: it
    holds no lone surrogate. *)
Definition encodable_reply (r : reply ocr_result) : Prop :=
  match r with
  | Json j => encodable (Layout.convert_to_markdown j) = true
  | Unreachable _ => False
  end.

(** The reply the service gives to the [i]-th request from now. *)
Definition upcoming (w : World) (i : nat) : reply ocr_result :=
  ocr_endpoint w (List.length (ocr_requests w) + i).

(** What the retry loop needs to know about the world after an attempt
    that sent one request in accurate mode. *)
Definition advanced (image_file : pystr) (attempt : Z) (w w' : World) : Prop :=
  clock w' = clock w
  /\ files w' image_file = files w image_file
  /\ writable w' = writable w
  /\ ocr_endpoint w' = ocr_endpoint w
  /\ ocr_requests w' = ocr_requests w ++ [py "general_basic"]
  /\ sleeps w' = sleeps w ++ (if 0 <? attempt then [2 ^ attempt] else []).

End Specs.

Import Specs.

(** ** Frames *)

Module Frames.

(** A method that leaves the observation [f] of the world as it is. *)
Definition preserves {X S A} (f : World -> X) (m : M S A) : Prop :=
  forall s w, f (snd (m s w)) = f w.

(** An observation that no clock reading, token request or recognition
    request changes. *)
Definition network_blind {X} (f : World -> X) : Prop :=
  (forall w, f (tick w) = f w)
  /\ (forall w, f (count_token_request w) = f w)
  /\ (forall endpoint w, f (log_ocr_request endpoint w) = f w).

(** An observation that no write to a file changes. *)
Definition store_blind {X} (f : World -> X) : Prop :=
  forall path content w, f (store_file path content w) = f w.

(** An observation that, beyond that, no sleep and no write to a file
    changes. *)
Definition effect_blind {X} (f : World -> X) : Prop :=
  network_blind f
  /\ (forall d w, f (log_sleep d w) = f w)
  /\ (forall path content w, f (store_file path content w) = f w).

End Frames.

Import Frames.

(** ** Observations used in the further properties *)

Module Observe.

(** What the token endpoint grants on the next request, if anything. *)
Definition granted (w : World) : option pystr :=
  match token_endpoint w (token_requests w) with
  | Json j => tj_access_token j
  | Unreachable _ => None
  end.

End Observe.

Import Observe.

Module Endpoints.

(** The recognition endpoint that [process_single_image] uses for an
    [ocr_type]. *)
Definition endpoint_of (ocr_type : pystr) : pystr :=
  if PyStr.eqb ocr_type (py "table") then py "form"
  else if PyStr.eqb ocr_type (py "handwriting") then py "handwriting"
  else if PyStr.eqb ocr_type (py "accurate") then py "general_basic"
  else py "general".

(** The conversion that [process_single_image] applies to the result for
    an [ocr_type]. *)
Definition conversion_of (ocr_type : pystr) (j : ocr_result) : pystr :=
  if PyStr.eqb ocr_type (py "table") then Layout.convert_table_to_markdown j
  else Layout.convert_to_markdown j.

(** The requests in [after] are those in [before], followed by at most
    [n] more. *)
Definition at_most_more (n : nat) (before after : list pystr) : Prop :=
  exists sent, after = before ++ sent /\ (List.length sent <= n)%nat.

End Endpoints.

Import Endpoints.

(** ** Artifacts *)

Module Artifacts.

(** The text of the artifact written for the result [j] in a run that
    started in the world [w]: the header with the time of the [k]-th clock
    reading, then the converted result. *)
Definition artifact_text (w : World) (k : nat) (ocr_type : pystr) (j : ocr_result)
  : pystr :=
  BaiduOCRProcessor.header (py (strftime w (clock w k))) ocr_type
  ++ conversion_of ocr_type j.

(** The service answers the next request with the result [j], which has no
    error code and converts to text with a visible character. *)
Definition answered_with (w : World) (ocr_type : pystr) (j : ocr_result) : Prop :=
  upcoming w 0 = Json j
  /\ error_code j = None
  /\ nonblank (conversion_of ocr_type j) = true.

(** The file system of [w'] is that of [w] but for the file at [path],
    which holds [content]. *)
Definition stored (path content : pystr) (w w' : World) : Prop :=
  files w' = files (store_file path content w).

End Artifacts.

Import Artifacts.

(** ** Backoff *)

Module Backoff.

(** The delays slept before the attempts 1, 2, ..., [n]. *)
Definition backoff_schedule (n : nat) : list Z :=
  List.map (fun k => 2 ^ Z.of_nat k) (seq 1 n).

(** The sum of a list of delays. *)
Definition total_delay (ds : list Z) : Z := fold_right Z.add 0 ds.

End Backoff.

Import Backoff.

(** ** Discovery *)

From Stdlib Require Import Sorting.Sorted Sorting.Permutation.

Module Discovery.

(** A name that one of the ten [glob] patterns of [get_image_files]
    matches: it ends with an image extension written all in lower case or
    all in upper case. *)
Definition image_name (n : pystr) : bool :=
  existsb (fun ext => (endswith n ext || endswith n (upper ext))%bool)
    BaiduOCRBatchProcessor.IMAGE_EXTENSIONS.

(** The list [get_image_files] returns for a directory of the world. *)
Definition discovered (w : World) (directory : pystr) : list pystr :=
  List.map (PathLib.child directory)
    (sorted (BaiduOCRBatchProcessor.globbed w directory)).

(** [a <= b] in the order of [sorted]. *)
Definition le (a b : pystr) : Prop := PyStr.leb a b = true.

End Discovery.

Import Discovery.

Module Patterns.

(** The ten suffixes that [get_image_files] globs for, in the order of the
    calls. *)
Definition suffixes : list pystr :=
  flat_map (fun ext => [ext; upper ext]) BaiduOCRBatchProcessor.IMAGE_EXTENSIONS.

(** Neither of two suffixes is the tail of the other. *)
Definition unrelated (p q : pystr) : bool :=
  (negb (endswith p q) && negb (endswith q p))%bool.

(** Every suffix is unrelated to the ones behind it in the list. *)
Fixpoint pairwise_unrelated (ps : list pystr) : bool :=
  match ps with
  | [] => true
  | p :: rest => (forallb (unrelated p) rest && pairwise_unrelated rest)%bool
  end.

End Patterns.

Import Patterns.

(** ** Tallies of a batch *)

Module Tally.

(** The number of results flagged successful, and of the others. *)
Definition successes (rs : list BaiduOCRBatchProcessor.result) : Z :=
  Z.of_nat (List.length (filter BaiduOCRBatchProcessor.success rs)).

Definition failures (rs : list BaiduOCRBatchProcessor.result) : Z :=
  Z.of_nat (List.length
              (filter (fun r => negb (BaiduOCRBatchProcessor.success r)) rs)).

(** A result that belongs to the task [(image, artifact)]. *)
Definition result_of (task : pystr * pystr) (r : BaiduOCRBatchProcessor.result)
  : Prop :=
  BaiduOCRBatchProcessor.image_file r = fst task
  /\ BaiduOCRBatchProcessor.output_file r = snd task.

End Tally.

Import Tally.

(** ** Tallies of [BaiduOCRProcessor.process_batch] *)

Module Flags.

(** How many entries of a results dictionary are [True], and how many
    [False]. *)
Definition count_true (rs : list (pystr * bool)) : Z :=
  Z.of_nat (List.length (filter snd rs)).

Definition count_false (rs : list (pystr * bool)) : Z :=
  Z.of_nat (List.length (filter (fun r => negb (snd r)) rs)).

End Flags.

Import Flags.

(** ** Shapes of text *)

Module Shapes.

Import Layout.

(** A text that does not start with whitespace. *)
Definition head_ok (s : pystr) : bool :=
  match s with
  | [] => true
  | c :: _ => negb (isspace c)
  end.

(** A text that neither starts nor ends with whitespace. *)
Definition trimmed (s : pystr) : bool := (head_ok s && head_ok (rev s))%bool.

(** [l] is [s] without the whitespace at its two ends: [s] is [l] between
    two runs of whitespace, and [l] neither starts nor ends with
    whitespace. *)
Definition trim_of (s l : pystr) : Prop :=
  exists pre post,
    s = pre ++ l ++ post
    /\ nonblank pre = false /\ nonblank post = false /\ trimmed l = true.

(** A group of words with a visible character. *)
Definition visible (group : list pystr) : bool := existsb nonblank group.

(** No word is more than 20 below or above the word before it;
    [prev_top] is the [top] of the word before the list. *)
Fixpoint gaps_within (prev_top : Z) (ws : list word_info) : bool :=
  match ws with
  | [] => true
  | wi :: rest =>
      (negb (20 <? Z.abs (word_top wi - prev_top))
       && gaps_within (word_top wi) rest)%bool
  end.

Definition one_band (ws : list word_info) : bool :=
  match ws with
  | [] => true
  | wi :: rest => gaps_within (word_top wi) rest
  end.

End Shapes.

Import Shapes.

(** ** Shapes of paths *)

Module Paths.

Definition no_slash (s : pystr) : bool :=
  forallb (fun c => negb (N.eqb c PathLib.SLASH)) s.

(** A path component: not empty, without a slash, and not ".". *)
Definition segment (s : pystr) : bool :=
  (truthy s && no_slash s && negb (PyStr.eqb s [PathLib.DOT]))%bool.

(** A directory string in normal form: components separated by single
    slashes, at least one, after the root "/" or no root. *)
Definition plain (d : pystr) : Prop :=
  exists r segs,
    (r = [] \/ r = [PathLib.SLASH])
    /\ segs <> []
    /\ Forall (fun s => segment s = true) segs
    /\ d = r ++ join [PathLib.SLASH] segs.

(** What stands before the entry name in the path string of an entry of
    the directory [d]. *)
Definition dir_prefix (d : pystr) : pystr := PathLib.child d [].

End Paths.

Import Paths.

(** ** [RetryFailedFiles.retry_failed_files] and [generate_retry_report] *)

Module RetryFailedFilesRun.

Import RetryFailedFiles.

(** The text "# API频率限制失败文件重试报告\n\n" *)
Definition REPORT_TITLE : pystr :=
  [35; 32; 65; 80; 73; 39057; 29575; 38480; 21046; 22833; 36133; 25991; 20214;
   37325; 35797; 25253; 21578; 10; 10]%N.

(** The text "重试时间: " *)
Definition REPORT_TIME : pystr := [37325; 35797; 26102; 38388; 58; 32]%N.

(** The text "## 重试统计\n\n" *)
Definition REPORT_STATS : pystr :=
  [35; 35; 32; 37325; 35797; 32479; 35745; 10; 10]%N.

(** The text "- 总处理文件: " *)
Definition REPORT_TOTAL : pystr :=
  [45; 32; 24635; 22788; 29702; 25991; 20214; 58; 32]%N.

(** The text "- 成功处理: " *)
Definition REPORT_SUCCESS : pystr :=
  [45; 32; 25104; 21151; 22788; 29702; 58; 32]%N.

(** The text "- 处理失败: " *)
Definition REPORT_FAILED : pystr :=
  [45; 32; 22788; 29702; 22833; 36133; 58; 32]%N.

(** The text "- 成功率: " *)
Definition REPORT_RATE : pystr := [45; 32; 25104; 21151; 29575; 58; 32]%N.

(** The text "## 成功案例\n\n" *)
Definition REPORT_SUCCESS_CASES : pystr :=
  [35; 35; 32; 25104; 21151; 26696; 20363; 10; 10]%N.

(** The text "字符数: " *)
Definition REPORT_CHARS : pystr := [23383; 31526; 25968; 58; 32]%N.

(** The text "单词数: " *)
Definition REPORT_WORDS : pystr := [21333; 35789; 25968; 58; 32]%N.

(** The text "处理时间: " *)
Definition REPORT_DURATION : pystr := [22788; 29702; 26102; 38388; 58; 32]%N.

(** The text "秒\n" *)
Definition REPORT_SECONDS : pystr := [31186; 10]%N.

(** The text "重试次数: " *)
Definition REPORT_ATTEMPTS : pystr := [37325; 35797; 27425; 25968; 58; 32]%N.

(** The text "## 失败案例\n\n" *)
Definition REPORT_FAILED_CASES : pystr :=
  [35; 35; 32; 22833; 36133; 26696; 20363; 10; 10]%N.

(** The text "错误信息: " *)
Definition REPORT_ERROR : pystr := [38169; 35823; 20449; 24687; 58; 32]%N.

(** The text "*报告生成时间: " *)
Definition REPORT_FOOTER_TIME : pystr :=
  [42; 25253; 21578; 29983; 25104; 26102; 38388; 58; 32]%N.

Definition incr_total (r : t) : t :=
  mk (api_key r) (secret_key r) (processor r)
     (mk_stats (total_processed (stats r) + 1) (success_count (stats r))
               (failed_count (stats r))).

(** [Path(p).exists()]; the world holds regular files only, so a path
    exists exactly when it can be read. *)
Definition path_exists {S} (p : pystr) : M S bool :=
  fun s w =>
    (Ret (match files w p with Some _ => true | None => false end), s, w).

(** [Path(output_dir) / f"{Path(filename).stem}_baidu_retry.md"] as a string *)
Definition retry_artifact (output_dir filename : pystr) : pystr :=
  PathLib.joinpath output_dir (PathLib.stem filename ++ py "_baidu_retry.md").

(** The pieces written after the title and before the success rate. *)
Definition head_pieces (stamp : pystr) (s : stats_t) : list pystr :=
  [REPORT_TIME ++ stamp ++ NL ++ NL;
   REPORT_STATS;
   REPORT_TOTAL ++ str_int (total_processed s) ++ NL;
   REPORT_SUCCESS ++ str_int (success_count s) ++ NL;
   REPORT_FAILED ++ str_int (failed_count s) ++ NL].

(** The report lines written before the success rate. *)
Definition report_head (stamp : pystr) (s : stats_t) : pystr :=
  REPORT_TITLE
  ++ (REPORT_TIME ++ stamp ++ NL ++ NL)
  ++ REPORT_STATS
  ++ (REPORT_TOTAL ++ str_int (total_processed s) ++ NL)
  ++ (REPORT_SUCCESS ++ str_int (success_count s) ++ NL)
  ++ (REPORT_FAILED ++ str_int (failed_count s) ++ NL).

(** [f"{e}"] for the [error] entry of an outcome. *)
Definition str_error (e : option pystr) : pystr :=
  match e with
  | Some m => m
  | None => py "None"
  end.

Section Report.

(** [format(x, '.nf')]: a number in fixed notation with [n] decimals, which
    is ASCII text. *)
Variable format_fixed : nat -> QArith_base.Q -> String.string.

(** The [f.write] calls for one successful outcome. *)
Definition success_case (o : outcome) : list pystr :=
  [py "### " ++ PathLib.name (image_file o) ++ NL;
   REPORT_CHARS ++ str_int (char_count o) ++ NL;
   REPORT_WORDS ++ str_int (word_count o) ++ NL;
   REPORT_DURATION
   ++ py (format_fixed 2 (QArith_base.inject_Z (processing_time o)))
   ++ REPORT_SECONDS;
   REPORT_ATTEMPTS ++ str_int (retries o + 1) ++ NL ++ NL].

(** The [f.write] calls for one failed outcome. *)
Definition failed_case (o : outcome) : list pystr :=
  [py "### " ++ PathLib.name (image_file o) ++ NL;
   REPORT_ERROR ++ str_error (error o) ++ NL;
   REPORT_ATTEMPTS ++ str_int (retries o + 1) ++ NL ++ NL].

(** The [f.write] calls of the two optional sections of the report. *)
Definition report_cases (results : list outcome) : list pystr :=
  (match filter success results with
   | [] => []
   | success_results =>
       REPORT_SUCCESS_CASES :: concat (List.map success_case success_results)
   end)
  ++ (match filter (fun o => negb (success o)) results with
      | [] => []
      | failed_results =>
          REPORT_FAILED_CASES :: concat (List.map failed_case failed_results)
      end).

(** The report is written piece by piece into the opened file.  The
    success rate divides by [total_processed]; when that raises, or when a
    piece cannot be encoded, the pieces written so far stay in the file. *)
Definition generate_retry_report (results : list outcome) (output_dir : pystr)
  : M t unit :=
  let report_file := PathLib.joinpath output_dir (py "retry_report.md") in
  open_w report_file ;;
  write_text report_file REPORT_TITLE ;;
  stamp <- now_strftime ;;
  self <- get_self ;;
  write_pieces report_file (head_pieces stamp (stats self)) ;;
  if total_processed (stats self) =? 0 then
    raise (py "division by zero")
  else
    let rate :=
      QArith_base.Qmult
        (QArith_base.Qdiv (QArith_base.inject_Z (success_count (stats self)))
           (QArith_base.inject_Z (total_processed (stats self))))
        (QArith_base.inject_Z 100) in
    write_text report_file
      (REPORT_RATE ++ py (format_fixed 1 rate) ++ py "%" ++ NL ++ NL) ;;
    write_pieces report_file (report_cases results) ;;
    write_text report_file (py "---" ++ NL) ;;
    closing <- now_strftime ;;
    write_text report_file (REPORT_FOOTER_TIME ++ closing ++ py "*" ++ NL).

(** The loop over [failed_files]: a file that does not exist is skipped. *)
Fixpoint retry_each (input_dir output_dir : pystr) (failed_files : list pystr)
  : M t (list outcome) :=
  match failed_files with
  | [] => ret []
  | filename :: rest =>
      let input_path := PathLib.joinpath input_dir filename in
      let output_path := retry_artifact output_dir filename in
      present <- path_exists input_path ;;
      if negb present then retry_each input_dir output_dir rest
      else
        result <- process_with_retry input_path output_path DEFAULT_MAX_RETRIES ;;
        modify incr_total ;;
        match result with
        | Some o =>
            results <- retry_each input_dir output_dir rest ;;
            ret (o :: results)
        | None => raise (py "'NoneType' object is not subscriptable")
        end
  end.

Definition retry_failed_files (failed_files : list pystr)
  (input_dir output_dir : pystr) : M t (list outcome) :=
  mkdir output_dir ;;
  results <- retry_each input_dir output_dir failed_files ;;
  generate_retry_report results output_dir ;;
  self <- get_self ;;
  if total_processed (stats self) =? 0
  then raise (py "division by zero")
  else ret results.

End Report.

(** The number of successful outcomes, and of the others. *)
Definition retry_successes (rs : list outcome) : Z :=
  Z.of_nat (List.length (filter success rs)).

Definition retry_failures (rs : list outcome) : Z :=
  Z.of_nat (List.length (filter (fun o => negb (success o)) rs)).

(** The statistics are consistent: every processed file is counted as a
    success or as a failure. *)
Definition stats_consistent (s : stats_t) : Prop :=
  total_processed s = success_count s + failed_count s.

End RetryFailedFilesRun.

(** * Properties *)

(** ** Strings *)

Section StringFacts.

Lemma truthy_app (a b : pystr) : truthy (a ++ b) = (truthy a || truthy b)%bool.
Proof. destruct a; reflexivity. Qed.

Lemma truthy_rev (s : pystr) : truthy (rev s) = truthy s.
Proof.
  destruct s as [|c t]; [reflexivity|].
  simpl. rewrite truthy_app. simpl. apply orb_true_r.
Qed.

Lemma truthy_lstrip (s : pystr) : truthy (lstrip s) = nonblank s.
Proof.
  induction s as [|c t IH]; [reflexivity|].
  simpl. destruct (isspace c); simpl; [exact IH | reflexivity].
Qed.

Lemma nonblank_app (a b : pystr) : nonblank (a ++ b) = (nonblank a || nonblank b)%bool.
Proof. apply existsb_app. Qed.

Lemma nonblank_rev (s : pystr) : nonblank (rev s) = nonblank s.
Proof.
  induction s as [|c t IH]; [reflexivity|].
  simpl. rewrite nonblank_app, IH. simpl.
  rewrite orb_false_r. apply orb_comm.
Qed.

Lemma nonblank_lstrip (s : pystr) : nonblank (lstrip s) = nonblank s.
Proof.
  induction s as [|c t IH]; [reflexivity|].
  simpl. destruct (isspace c) eqn:E; simpl; [exact IH | now rewrite E].
Qed.

(** [s.strip()] is non-empty exactly when [s] has a non-whitespace character. *)
Lemma truthy_strip (s : pystr) : truthy (strip s) = nonblank s.
Proof.
  unfold strip, rstrip.
  now rewrite truthy_rev, truthy_lstrip, nonblank_rev, nonblank_lstrip.
Qed.

Lemma truthy_true_iff (s : pystr) : truthy s = true <-> s <> [].
Proof. destruct s; simpl; split; congruence. Qed.

Lemma truthy_false_iff (s : pystr) : truthy s = false <-> s = [].
Proof. destruct s; simpl; split; congruence. Qed.

(** A leading space does not survive [strip]. *)
Lemma strip_leading_space (s : pystr) : strip (SP ++ s) = strip s.
Proof. reflexivity. Qed.

(** Joining non-empty pieces gives a non-empty string, unless there are none. *)
Lemma truthy_join (sep : pystr) (l : list pystr) :
  Forall (fun x => truthy x = true) l -> truthy (join sep l) = negb (Nat.eqb (List.length l) 0).
Proof.
  intros H. destruct H as [|x rest Hx _]; [reflexivity|].
  simpl. destruct rest; [exact Hx|].
  rewrite truthy_app, Hx. reflexivity.
Qed.

Lemma lstrip_split (s : pystr) :
  exists pre, s = pre ++ lstrip s /\ nonblank pre = false.
Proof.
  induction s as [|c s (pre & E & Hpre)]; [now exists []|].
  simpl. destruct (isspace c) eqn:Hc.
  - exists (c :: pre). split; [cbn [app]; now f_equal|].
    simpl. now rewrite Hc.
  - now exists [].
Qed.

Lemma head_ok_lstrip (s : pystr) : head_ok (lstrip s) = true.
Proof.
  induction s as [|c s IH]; [reflexivity|].
  simpl. destruct (isspace c) eqn:Hc; [exact IH|]. simpl. now rewrite Hc.
Qed.

Lemma lstrip_head_ok (s : pystr) : head_ok s = true -> lstrip s = s.
Proof.
  destruct s as [|c s]; [reflexivity|]. simpl.
  now destruct (isspace c).
Qed.

Lemma head_ok_app (a b : pystr) : a <> [] -> head_ok (a ++ b) = head_ok a.
Proof. now destruct a. Qed.

Lemma strip_of_trimmed (s : pystr) : trimmed s = true -> strip s = s.
Proof.
  unfold trimmed, strip, rstrip. intros H. apply andb_true_iff in H.
  destruct H as [H1 H2].
  now rewrite (lstrip_head_ok s H1), (lstrip_head_ok _ H2), rev_involutive.
Qed.

(** What [strip] returns neither starts nor ends with whitespace. *)
Lemma trimmed_strip (s : pystr) : trimmed (strip s) = true.
Proof.
  unfold trimmed. apply andb_true_iff. split.
  - unfold strip, rstrip.
    pose proof (head_ok_lstrip s) as Ht.
    destruct (lstrip_split (rev (lstrip s))) as (pre & E & _).
    apply (f_equal (@rev N)) in E. rewrite rev_involutive, rev_app_distr in E.
    destruct (rev (lstrip (rev (lstrip s)))) as [|c u] eqn:Eu; [reflexivity|].
    rewrite E in Ht. exact Ht.
  - unfold strip, rstrip. rewrite rev_involutive. apply head_ok_lstrip.
Qed.

Lemma trimmed_join (ls : list pystr) :
  Forall (fun l => truthy l = true /\ trimmed l = true) ls ->
  trimmed (join NL ls) = true.
Proof.
  induction 1 as [|x rest [Hx Tx] Hrest IH]; [reflexivity|].
  destruct rest as [|y rest]; [exact Tx|].
  change (join NL (x :: y :: rest)) with (x ++ NL ++ join NL (y :: rest)).
  unfold trimmed in *. apply andb_true_iff in Tx, IH.
  destruct Tx as [Tx1 Tx2], IH as [I1 I2].
  assert (Hj : join NL (y :: rest) <> []).
  { apply truthy_true_iff. rewrite truthy_join.
    - reflexivity.
    - clear - Hrest. induction Hrest as [|z zs [Hz _] _ IHz]; constructor; auto. }
  apply andb_true_iff. split.
  - rewrite head_ok_app; [exact Tx1 | now apply truthy_true_iff].
  - rewrite !rev_app_distr, <- app_assoc, head_ok_app; [exact I2|].
    intros E. apply (f_equal (@rev N)) in E. rewrite rev_involutive in E.
    now apply Hj.
Qed.

(** [strip] removes the whitespace at the two ends, and nothing else. *)
Lemma strip_trim_of (s : pystr) : trim_of s (strip s).
Proof.
  destruct (lstrip_split s) as (pre & E1 & Hpre).
  destruct (lstrip_split (rev (lstrip s))) as (post & E2 & Hpost).
  exists pre, (rev post). split; [|split; [exact Hpre|split]].
  - rewrite E1 at 1. f_equal. unfold strip, rstrip.
    rewrite <- rev_app_distr, <- E2. now rewrite rev_involutive.
  - now rewrite nonblank_rev.
  - apply trimmed_strip.
Qed.

(** The words of a group, joined by spaces, show a character exactly when
    one of the words does. *)
Lemma nonblank_join_sp (g : list pystr) :
  nonblank (join SP g) = existsb nonblank g.
Proof.
  induction g as [|x g IH]; [reflexivity|].
  destruct g as [|y g]; [simpl; now rewrite orb_false_r|].
  change (join SP (x :: y :: g)) with (x ++ SP ++ join SP (y :: g)).
  rewrite !nonblank_app, IH. reflexivity.
Qed.

Lemma filter_map_swap {A B} (f : B -> bool) (g : A -> B) (l : list A) :
  filter f (List.map g l) = List.map g (filter (fun x => f (g x)) l).
Proof.
  induction l as [|x l IH]; [reflexivity|].
  simpl. destruct (f (g x)); simpl; now rewrite IH.
Qed.

Lemma pystr_eqb_refl (s : pystr) : PyStr.eqb s s = true.
Proof.
  induction s as [|c s IH]; [reflexivity|].
  simpl. now rewrite N.eqb_refl, IH.
Qed.

Lemma pystr_eqb_eq (a b : pystr) : PyStr.eqb a b = true <-> a = b.
Proof.
  revert b. induction a as [|x a IH]; intros [|y b]; simpl;
    try (split; [discriminate | discriminate]); [now split|].
  rewrite andb_true_iff, N.eqb_eq, IH. split.
  - now intros [-> ->].
  - intros H. inversion H. now split.
Qed.

Lemma encodable_app (a b : pystr) :
  encodable (a ++ b) = (encodable a && encodable b)%bool.
Proof. apply forallb_app. Qed.

(** ASCII text can always be encoded. *)
Lemma encodable_py (s : String.string) : encodable (py s) = true.
Proof.
  unfold encodable, py. apply forallb_forall. intros c Hc.
  apply in_map_iff in Hc. destruct Hc as (a & <- & _).
  pose proof (Ascii.N_ascii_bounded a) as B.
  unfold is_surrogate, in_range.
  destruct (N.leb_spec 55296 (Ascii.N_of_ascii a)) as [H|H]; [lia | reflexivity].
Qed.

Lemma encodable_str_int (n : Z) : encodable (str_int n) = true.
Proof. apply encodable_py. Qed.

End StringFacts.

(** ** Layout reconstruction *)

Section LayoutFacts.

Import Layout.

Lemma md_loop_snoc (ws : list word_info) (wi : word_info) :
  md_loop (ws ++ [wi]) = md_step (md_loop ws) wi.
Proof. unfold md_loop. now rewrite fold_left_app. Qed.

Lemma last_y_step (st : md_state) (wi : word_info) :
  last_y (md_step st wi) = Some (word_top wi).
Proof. unfold md_step. now destruct (far_apart _ _). Qed.

(** After a word has been consumed, [last_y] is that word's [top]. *)
Lemma last_y_snoc (ws : list word_info) (prev : word_info) :
  last_y (md_loop (ws ++ [prev])) = Some (word_top prev).
Proof. rewrite md_loop_snoc. apply last_y_step. Qed.

Lemma flush_length_pos (ls : list pystr) (cur : pystr) :
  negb (Nat.eqb (List.length (flush ls cur)) 0)
  = (negb (Nat.eqb (List.length ls) 0) || nonblank cur)%bool.
Proof.
  unfold flush. rewrite truthy_strip.
  destruct (nonblank cur).
  - rewrite length_app. simpl. rewrite Nat.add_1_r. simpl. now rewrite orb_true_r.
  - now rewrite orb_false_r.
Qed.

Lemma has_content_step (st : md_state) (wi : word_info) :
  has_content (md_step st wi) = (has_content st || nonblank (word_text wi))%bool.
Proof.
  unfold md_step, has_content.
  destruct (far_apart _ _); simpl.
  - now rewrite flush_length_pos.
  - rewrite !nonblank_app. simpl. now rewrite orb_assoc.
Qed.

Lemma has_content_fold (ws : list word_info) (st : md_state) :
  has_content (fold_left md_step ws st)
  = (has_content st || existsb (fun wi => nonblank (word_text wi)) ws)%bool.
Proof.
  revert st. induction ws as [|wi ws IH]; intros st; simpl.
  - now rewrite orb_false_r.
  - rewrite IH, has_content_step. now rewrite orb_assoc.
Qed.

Lemma flush_nonempty (ls : list pystr) (cur : pystr) :
  all_lines_nonempty ls -> all_lines_nonempty (flush ls cur).
Proof.
  intros H. unfold flush. destruct (truthy (strip cur)) eqn:E; [|exact H].
  apply Forall_app. split; [exact H|]. constructor; [exact E | constructor].
Qed.

Lemma lines_nonempty_fold (ws : list word_info) (st : md_state) :
  all_lines_nonempty (lines st) ->
  all_lines_nonempty (lines (fold_left md_step ws st)).
Proof.
  revert st. induction ws as [|wi ws IH]; intros st H; simpl; [exact H|].
  apply IH. unfold md_step.
  destruct (far_apart _ _); simpl; [now apply flush_nonempty | exact H].
Qed.

Lemma md_lines_nonempty (ws : list word_info) : all_lines_nonempty (md_lines ws).
Proof.
  unfold md_lines. apply flush_nonempty, lines_nonempty_fold. constructor.
Qed.

(** The output of the text conversion is non-empty exactly when some word
    carries a non-whitespace character. *)
Lemma truthy_md_lines (ws : list word_info) :
  truthy (join NL (md_lines ws)) = existsb (fun wi => nonblank (word_text wi)) ws.
Proof.
  rewrite truthy_join by apply md_lines_nonempty.
  unfold md_lines. rewrite flush_length_pos.
  change (has_content (fold_left md_step ws md_init) = existsb (fun wi => nonblank (word_text wi)) ws).
  now rewrite has_content_fold.
Qed.

Lemma join_snoc (sep : pystr) (g : list pystr) (x : pystr) :
  g <> [] -> join sep (g ++ [x]) = join sep g ++ sep ++ x.
Proof.
  induction g as [|a g IH]; intros H; [congruence|].
  destruct g as [|b g]; [reflexivity|].
  change (join sep ((a :: b :: g) ++ [x]))
    with (a ++ sep ++ join sep ((b :: g) ++ [x])).
  rewrite IH by discriminate.
  change (join sep (a :: b :: g)) with (a ++ sep ++ join sep (b :: g)).
  now rewrite <- !app_assoc.
Qed.

Lemma holds_group_text (cur : pystr) (g : list pystr) :
  holds_group cur g -> strip cur = group_text g.
Proof. intros [_ [-> | ->]]; [reflexivity | apply strip_leading_space]. Qed.

Lemma holds_group_snoc (cur : pystr) (g : list pystr) (x : pystr) :
  holds_group cur g -> holds_group (cur ++ SP ++ x) (g ++ [x]).
Proof.
  intros [Hg H]. split; [now destruct g|].
  rewrite (join_snoc SP g x Hg).
  destruct H as [-> | ->]; [left | right]; now rewrite <- ?app_assoc.
Qed.

Lemma flush_as_filter (ls : list pystr) (cur : pystr) (g : list pystr) :
  holds_group cur g ->
  flush ls cur = ls ++ filter truthy [group_text g].
Proof.
  intros H. unfold flush. rewrite (holds_group_text cur g H). simpl.
  destruct (truthy (group_text g)); [reflexivity | now rewrite app_nil_r].
Qed.

(** The loop, continued from a state whose accumulator holds the group
    [g], emits the non-empty texts of the groups the specification forms. *)
Lemma md_fold_groups (ws : list word_info) :
  forall (st : md_state) (g : list pystr) (y : Z),
    last_y st = Some y ->
    holds_group (current_line st) g ->
    flush (lines (fold_left md_step ws st)) (current_line (fold_left md_step ws st))
    = lines st ++ filter truthy (List.map group_text (group_lines_from y g ws)).
Proof.
  induction ws as [|wi ws IH]; intros st g y Hy Hg.
  - simpl. now apply flush_as_filter.
  - cbn [fold_left group_lines_from].
    unfold md_step at 2 4. rewrite Hy. unfold far_apart.
    destruct (20 <? Z.abs (word_top wi - y)).
    + rewrite (IH _ [word_text wi] (word_top wi)); cbn [last_y current_line lines].
      * rewrite (flush_as_filter _ _ g Hg). cbn [List.map filter].
        simpl. destruct (truthy (group_text g)); now rewrite <- app_assoc.
      * reflexivity.
      * split; [discriminate | now left].
    + rewrite (IH _ (g ++ [word_text wi]) (word_top wi)); cbn [last_y current_line lines].
      * reflexivity.
      * reflexivity.
      * now apply holds_group_snoc.
Qed.

(** [convert_to_markdown] emits, in order, the non-empty trimmed texts of
    the groups. *)
Lemma md_lines_groups (ws : list word_info) :
  md_lines ws = filter truthy (List.map group_text (group_lines ws)).
Proof.
  destruct ws as [|wi ws]; [reflexivity|].
  unfold md_lines, md_loop. cbn [fold_left group_lines].
  rewrite (md_fold_groups ws (md_step md_init wi) [word_text wi] (word_top wi)).
  - reflexivity.
  - reflexivity.
  - split; [discriminate | now right].
Qed.

End LayoutFacts.

Section LayoutClaims.

Import Layout.

(** The lines of the text conversion are the trimmed texts of the groups
    that show a character. *)
Lemma md_lines_visible (ws : list word_info) :
  md_lines ws
  = List.map (fun g => strip (join SP g)) (filter visible (group_lines ws)).
Proof.
  rewrite md_lines_groups. unfold group_text. rewrite filter_map_swap.
  f_equal. apply filter_ext. intros g.
  now rewrite truthy_strip, nonblank_join_sp.
Qed.

(** C3, as stated, fails: words at the top positions 0, 5, 30, 32, 80 of
    which the first two have no text give two output lines, not three; the
    first flush appends nothing. *)
Lemma convert_to_markdown_blank_group_counterexample :
  md_lines (five_words [] [] (py "c") (py "d") (py "e")) = [py "c d"; py "e"]
  /\ lines (md_loop [word_at [] 0; word_at [] 5; word_at (py "c") 30]) = []
  /\ convert_to_markdown
       (text_result (five_words [] [] (py "c") (py "d") (py "e")))
     = py "c d" ++ NL ++ py "e"
  /\ ~ (forall w0 w1 w2 w3 w4 : pystr,
          List.length (md_lines (five_words w0 w1 w2 w3 w4)) = 3%nat).
Proof.
  split; [reflexivity|]. split; [reflexivity|]. split; [reflexivity|].
  intros H. specialize (H [] [] (py "c") (py "d") (py "e")). discriminate H.
Qed.

(** C3, amended. [strip] removes exactly the whitespace at the two ends of
    a text.  In [convert_to_markdown], for two consecutive words [prev] and
    [wi]: when the absolute difference of their [top] positions exceeds 20,
    the accumulated line is flushed -- its trimmed text is appended to
    [lines] if it shows a character, and nothing is appended otherwise --
    and the new line starts with the text of [wi]; otherwise the text of
    [wi] is appended to the current line after one space.  Hence the output
    is, line by line, the trimmed texts of those groups formed by this rule
    that show a character.  Words at the top positions 0, 5, 30, 32, 80 are
    grouped as (0,5), (30,32), (80); the output has one line for each of
    these groups that shows a character, so it has exactly three lines if
    and only if each of the three groups does. *)
Theorem convert_to_markdown_line_grouping :
  (forall s : pystr, trim_of s (strip s))
  /\ (forall (ws : list word_info) (prev wi : word_info),
        let st := md_loop (ws ++ [prev]) in
        let st' := md_loop (ws ++ [prev; wi]) in
        if 20 <? Z.abs (word_top wi - word_top prev)
        then lines st' = (if nonblank (current_line st)
                          then lines st ++ [strip (current_line st)]
                          else lines st)
             /\ current_line st' = word_text wi
        else lines st' = lines st
             /\ current_line st' = current_line st ++ SP ++ word_text wi)
  /\ (forall ws : list word_info,
        convert_to_markdown (text_result ws)
        = join NL (List.map (fun g => strip (join SP g))
                     (filter visible (group_lines ws))))
  /\ (forall w0 w1 w2 w3 w4 : pystr,
        group_lines (five_words w0 w1 w2 w3 w4) = [[w0; w1]; [w2; w3]; [w4]])
  /\ (forall w0 w1 w2 w3 w4 : pystr,
        md_lines (five_words w0 w1 w2 w3 w4)
        = List.map (fun g => strip (join SP g))
            (filter visible [[w0; w1]; [w2; w3]; [w4]])
        /\ (List.length (md_lines (five_words w0 w1 w2 w3 w4)) = 3%nat
            <-> (visible [w0; w1] && visible [w2; w3] && visible [w4])%bool = true)
        /\ (visible [w0; w1] = true -> visible [w2; w3] = true ->
            visible [w4] = true ->
            convert_to_markdown (text_result (five_words w0 w1 w2 w3 w4))
            = strip (w0 ++ SP ++ w1) ++ NL ++ strip (w2 ++ SP ++ w3) ++ NL
              ++ strip w4)).
Proof.
  split; [exact strip_trim_of|]. split; [|split; [|split]].
  - intros ws prev wi st st'.
    assert (Hst' : st' = md_step st wi).
    { subst st st'. change [prev; wi] with ([prev] ++ [wi]).
      rewrite app_assoc. apply md_loop_snoc. }
    assert (Hy : last_y st = Some (word_top prev)) by apply last_y_snoc.
    rewrite Hst'. unfold md_step, far_apart. rewrite Hy.
    destruct (20 <? Z.abs (word_top wi - word_top prev)); simpl;
      [|split; reflexivity].
    unfold flush. rewrite truthy_strip. split; reflexivity.
  - intros ws. unfold convert_to_markdown, text_result. cbn [words_result].
    now rewrite md_lines_visible.
  - reflexivity.
  - intros w0 w1 w2 w3 w4.
    assert (L : md_lines (five_words w0 w1 w2 w3 w4)
                = List.map (fun g => strip (join SP g))
                    (filter visible [[w0; w1]; [w2; w3]; [w4]])).
    { now rewrite md_lines_visible. }
    split; [exact L|]. split.
    + rewrite L, length_map. cbn [filter].
      destruct (visible [w0; w1]), (visible [w2; w3]), (visible [w4]);
        cbn [List.length andb]; split; intros H; try reflexivity;
        discriminate H.
    + intros H0 H1 H2.
      unfold convert_to_markdown, text_result. cbn [words_result].
      rewrite L. cbn [filter]. rewrite H0, H1, H2. reflexivity.
Qed.

(** The five-word statement at the texts "a" .. "e". *)
Lemma convert_to_markdown_line_grouping_witness :
  convert_to_markdown
    (text_result (five_words (py "a") (py "b") (py "c") (py "d") (py "e")))
  = py "a b" ++ NL ++ py "c d" ++ NL ++ py "e".
Proof.
  exact (proj2 (proj2 (proj2 (proj2 (proj2 (proj2 convert_to_markdown_line_grouping)))
                         (py "a") (py "b") (py "c") (py "d") (py "e")))
               eq_refl eq_refl eq_refl).
Defined.

End LayoutClaims.

Section MarkdownClaims.

Import Layout.

(** C4, as stated, fails: a response whose word list is non-empty (one word
    box with empty text) is converted to the empty string. *)
Lemma convert_to_markdown_blank_word_counterexample :
  (exists ws, words_result blank_word_result = Some ws /\ ws <> [])
  /\ convert_to_markdown blank_word_result = []
  /\ ~ (forall (r : ocr_result) (ws : list word_info),
          words_result r = Some ws -> ws <> [] -> convert_to_markdown r <> []).
Proof.
  split; [|split].
  - eexists. split; [reflexivity | discriminate].
  - reflexivity.
  - intros H.
    apply (H blank_word_result [mk_word_info (Some []) None]);
      [reflexivity | discriminate | reflexivity].
Qed.

(** C4, amended. [convert_to_markdown] returns a non-empty string exactly
    when some word of the response has text with a non-whitespace character;
    in particular it returns the empty string for an empty word list and for
    a response without [words_result]. *)
Theorem convert_to_markdown_nonempty_iff :
  (forall r : ocr_result,
     convert_to_markdown r <> []
     <-> exists wi, In wi (word_list r) /\ nonblank (word_text wi) = true)
  /\ (forall r : ocr_result, word_list r = [] -> convert_to_markdown r = []).
Proof.
  assert (T : forall r, truthy (convert_to_markdown r)
                        = existsb (fun wi => nonblank (word_text wi)) (word_list r)).
  { intros r. unfold convert_to_markdown, word_list.
    destruct (words_result r) as [ws|]; [apply truthy_md_lines | reflexivity]. }
  split.
  - intros r. rewrite <- truthy_true_iff, T. apply existsb_exists.
  - intros r H. apply truthy_false_iff. rewrite T, H. reflexivity.
Qed.

(** The amended C4 at a response with the word "hi" and at a response with
    an empty word list. *)
Lemma convert_to_markdown_nonempty_iff_witness :
  convert_to_markdown (text_result [word_at (py "hi") 0]) <> []
  /\ convert_to_markdown (text_result []) = [].
Proof.
  split.
  - apply (proj2 (proj1 convert_to_markdown_nonempty_iff
                    (text_result [word_at (py "hi") 0]))).
    exists (word_at (py "hi") 0). split; [left; reflexivity | reflexivity].
  - apply (proj2 convert_to_markdown_nonempty_iff (text_result [])). reflexivity.
Defined.

(** C5. When the table data has a first row [headers] and further rows
    [rest], [convert_table_to_markdown] joins with newlines: the header row
    between pipes, a separator row with one "---" cell per header column, and
    each further row between pipes; so there are two lines more than further
    rows.  The rows [["A","B"],["1","2"],["3","4"]] give exactly 4 lines. *)
Theorem convert_table_to_markdown_rows :
  (forall (r : ocr_result) (fr : list form_row) (headers : list pystr)
          (rest : list (list pystr)),
     form_result r = Some fr ->
     table_data fr = headers :: rest ->
     let render := fun cells => py "| " ++ join (py " | ") cells ++ py " |" in
     let out_lines :=
       render headers
       :: render (repeat (py "---") (List.length headers))
       :: List.map render rest in
     convert_table_to_markdown r = join NL out_lines
     /\ List.length out_lines = (2 + List.length rest)%nat)
  /\ convert_table_to_markdown abc_table
     = py "| A | B |" ++ NL ++ py "| --- | --- |" ++ NL
       ++ py "| 1 | 2 |" ++ NL ++ py "| 3 | 4 |"
  /\ List.length (md_table_lines (table_data [mk_form_row (Some [py "A"; py "B"]);
                                              mk_form_row (Some [py "1"; py "2"]);
                                              mk_form_row (Some [py "3"; py "4"])]))
     = 4%nat.
Proof.
  split; [|split; reflexivity].
  intros r fr headers rest Hfr Htd render out_lines.
  split.
  - unfold convert_table_to_markdown. rewrite Hfr.
    destruct fr as [|f fr']; [discriminate Htd|].
    rewrite Htd. reflexivity.
  - subst out_lines. simpl. now rewrite length_map.
Qed.

(** C5 at the three-row table. *)
Lemma convert_table_to_markdown_rows_witness :
  convert_table_to_markdown abc_table
  = join NL [py "| A | B |"; py "| --- | --- |"; py "| 1 | 2 |"; py "| 3 | 4 |"].
Proof.
  exact (proj1 (proj1 convert_table_to_markdown_rows abc_table _
                  [py "A"; py "B"] [[py "1"; py "2"]; [py "3"; py "4"]]
                  eq_refl eq_refl)).
Defined.

(** C6, as stated, fails: with an empty [form_result] and recognised words,
    the table conversion gives the empty string and the text conversion
    gives the words. *)
Lemma convert_table_to_markdown_no_fallback_counterexample :
  form_result empty_form_with_words = Some []
  /\ convert_table_to_markdown empty_form_with_words = []
  /\ convert_to_markdown empty_form_with_words = py "hi"
  /\ convert_table_to_markdown empty_form_with_words
     <> convert_to_markdown empty_form_with_words.
Proof. repeat split. discriminate. Qed.

(** C6, amended. Without a [form_result] key, [convert_table_to_markdown]
    returns what [convert_to_markdown] returns on the same response; with a
    [form_result] that holds no row (an empty list, or entries none of which
    has a [row]), it returns the empty string. *)
Theorem convert_table_to_markdown_without_rows :
  forall r : ocr_result,
    (form_result r = None ->
     convert_table_to_markdown r = convert_to_markdown r)
    /\ (forall fr, form_result r = Some fr -> table_data fr = [] ->
        convert_table_to_markdown r = []).
Proof.
  intros r. unfold convert_table_to_markdown. split.
  - intros H. now rewrite H.
  - intros fr H Htd. rewrite H, Htd. now destruct fr.
Qed.

(** C6 amended, at a response with words only and at one with an empty
    [form_result]. *)
Lemma convert_table_to_markdown_without_rows_witness :
  convert_table_to_markdown (text_result [word_at (py "hi") 0]) = py "hi"
  /\ convert_table_to_markdown empty_form_with_words = [].
Proof.
  split.
  - exact (proj1 (convert_table_to_markdown_without_rows
                    (text_result [word_at (py "hi") 0])) eq_refl).
  - exact (proj2 (convert_table_to_markdown_without_rows empty_form_with_words)
                 [] eq_refl eq_refl).
Defined.

End MarkdownClaims.

(** ** Credential handling *)

Section ClientFacts.

Import BaiduOCRClient.

(** What [_get_access_token] does when the endpoint grants a token. *)
Lemma get_access_token_granted (c : t) (w : World) (j : token_json) (tok : pystr) :
  token_endpoint w (token_requests w) = Json j ->
  tj_access_token j = Some tok ->
  _get_access_token c w
  = (Ret tt,
     set_token_expires
       (clock w (clock_reads w)
        + match tj_expires_in j with Some e => e | None => DEFAULT_EXPIRES_IN end
        - EXPIRY_MARGIN)
       (set_token tok c),
     tick (count_token_request w)).
Proof.
  intros Hj Htok.
  unfold _get_access_token, try_except, bind, post_token.
  rewrite Hj, Htok. reflexivity.
Qed.

(** One call of [_get_access_token] is one token request, and no
    recognition request. *)
Lemma get_access_token_requests (c : t) (w : World) :
  token_requests (snd (_get_access_token c w)) = S (token_requests w)
  /\ ocr_requests (snd (_get_access_token c w)) = ocr_requests w.
Proof.
  unfold _get_access_token, try_except, bind, post_token.
  destruct (token_endpoint w (token_requests w)) as [e|j]; [split; reflexivity|].
  destruct (tj_access_token j); split; reflexivity.
Qed.

(** With a token that has not expired, [_ensure_token_valid] only reads
    the clock. *)
Lemma ensure_token_valid_fresh (c : t) (w : World) :
  token_missing c = false ->
  clock w (clock_reads w) <= token_expires c ->
  _ensure_token_valid c w = (Ret tt, c, tick w).
Proof.
  intros Hm Hc. unfold _ensure_token_valid, bind, get_self, time_time.
  rewrite Hm.
  destruct (token_expires c <? clock w (clock_reads w)) eqn:E; [|reflexivity].
  apply Z.ltb_lt in E. lia.
Qed.

Lemma get_access_token_refused (c : BaiduOCRClient.t) (w : World) :
  granted w = None ->
  exists e, BaiduOCRClient._get_access_token c w
            = (Raise e, c, count_token_request w).
Proof.
  unfold granted, BaiduOCRClient._get_access_token, try_except, bind, post_token.
  destruct (token_endpoint w (token_requests w)) as [e|j]; intros H.
  - now exists e.
  - rewrite H. eexists. reflexivity.
Qed.

Lemma get_access_token_outcome (c : BaiduOCRClient.t) (w : World) :
  match BaiduOCRClient._get_access_token c w with
  | (Ret _, c', _) =>
      granted w <> None /\ BaiduOCRClient.access_token c' = granted w
  | (Raise _, c', _) => granted w = None /\ c' = c
  end.
Proof.
  destruct (granted w) as [tok|] eqn:G.
  - unfold granted in G.
    destruct (token_endpoint w (token_requests w)) as [e|j] eqn:Hj;
      [discriminate|].
    rewrite (get_access_token_granted c w j tok Hj G). simpl.
    split; [discriminate | reflexivity].
  - destruct (get_access_token_refused c w G) as [e ->]. now split.
Qed.

(** After the token step, the request itself: one recognition request is
    logged and the client stays as it is, whatever the service answers. *)
Lemma make_request_after_token (endpoint : pystr) (c : t) (w : World) :
  let out :=
    try_except
      (result <- post_ocr endpoint ;;
       match error_code result with
       | Some _ =>
           raise (MSG_API_ERROR ++ match error_msg result with
                                   | Some m => m
                                   | None => py "Unknown error"
                                   end)
       | None => ret result
       end)
      (fun e => raise e) c w in
  snd (fst out) = c /\ snd out = log_ocr_request endpoint w.
Proof.
  unfold try_except, bind, post_ocr.
  destruct (ocr_endpoint w (List.length (ocr_requests w))) as [e|j];
    [now split|].
  destruct (error_code j); now split.
Qed.

(** The token step of a request: nothing but a clock reading when the
    token is fresh; otherwise one token request, after which the client
    holds the granted token, or the step raises when none is granted. *)
Lemma ensure_token_valid_step (c : t) (w : World) :
  let stale := (token_missing c
                || (token_expires c <? clock w (clock_reads w)))%bool in
  match _ensure_token_valid c w with
  | (Ret _, c', w') =>
      token_requests w'
      = (if stale then S (token_requests w) else token_requests w)
      /\ ocr_requests w' = ocr_requests w
      /\ (stale = false \/ granted w <> None)
      /\ access_token c' = (if stale then granted w else access_token c)
  | (Raise _, c', w') =>
      token_requests w' = S (token_requests w)
      /\ ocr_requests w' = ocr_requests w
      /\ stale = true /\ granted w = None
  end.
Proof.
  assert (G : forall w0,
             token_requests w0 = token_requests w ->
             token_endpoint w0 = token_endpoint w ->
             ocr_requests w0 = ocr_requests w ->
             match _get_access_token c w0 with
             | (Ret _, c', w') =>
                 token_requests w' = S (token_requests w)
                 /\ ocr_requests w' = ocr_requests w
                 /\ (true = false \/ granted w <> None)
                 /\ access_token c' = granted w
             | (Raise _, c', w') =>
                 token_requests w' = S (token_requests w)
                 /\ ocr_requests w' = ocr_requests w
                 /\ true = true /\ granted w = None
             end).
  { intros w0 Ht He Ho.
    assert (Hg : granted w0 = granted w) by (unfold granted; now rewrite Ht, He).
    pose proof (get_access_token_requests c w0) as [R1 R2].
    pose proof (get_access_token_outcome c w0) as O.
    destruct (_get_access_token c w0) as [[[u|e] c'] w']; cbn [snd] in R1, R2.
    - destruct O as [O1 O2]. rewrite Hg in O1, O2.
      split; [now rewrite R1, Ht|]. split; [now rewrite R2, Ho|].
      split; [now right | exact O2].
    - destruct O as [O1 _]. rewrite Hg in O1.
      split; [now rewrite R1, Ht|]. split; [now rewrite R2, Ho|]. now split. }
  intros stale. subst stale.
  unfold _ensure_token_valid, bind, get_self, time_time.
  destruct (token_missing c) eqn:Hm; cbn [orb].
  - apply (G w); reflexivity.
  - destruct (token_expires c <? clock w (clock_reads w)) eqn:E.
    + apply (G (tick w)); reflexivity.
    + repeat split. now left.
Qed.

(** C7, as stated, fails: constructing the client obtains the token, with
    one token request made and no recognition request made yet. *)
Lemma token_obtained_at_construction_counterexample :
  exists c w',
    BaiduOCRClient.__init__ (py "key") (py "secret") None Worlds.always_hello
    = (Ret c, w')
    /\ access_token c = Some (py "tok")
    /\ token_requests w' = 1%nat
    /\ ocr_requests w' = [].
Proof. do 2 eexists. repeat split. Qed.

(** C7, amended. The credential is created by the constructor: constructing
    a client makes exactly one token request and no recognition request, and
    when the endpoint grants a token the client holds it.  Before a request,
    [_ensure_token_valid] makes a token request exactly when the token is
    absent (or empty) or the clock reading is past the stored expiry, and
    otherwise leaves the client as it is.  The expiry stored with a granted
    token is the clock reading plus the declared lifetime (3600 when none is
    declared) minus 300.  Every call of [_make_request] goes through this
    step first: it makes a token request exactly when the token is stale;
    when that request is refused it raises without having sent the
    recognition request; otherwise it sends the recognition request while
    the client holds the token just granted, or the fresh one it had. *)
Theorem credential_lifecycle :
  (forall (api_key secret_key : pystr) (app_id : option pystr) (w : World),
     let out := BaiduOCRClient.__init__ api_key secret_key app_id w in
     token_requests (snd out) = S (token_requests w)
     /\ ocr_requests (snd out) = ocr_requests w
     /\ forall j tok,
          token_endpoint w (token_requests w) = Json j ->
          tj_access_token j = Some tok ->
          exists c, fst out = Ret c /\ access_token c = Some tok)
  /\ (forall (c : t) (w : World),
        let out := _ensure_token_valid c w in
        let stale := (token_missing c
                      || (token_expires c <? clock w (clock_reads w)))%bool in
        token_requests (snd out)
        = (if stale then S (token_requests w) else token_requests w)
        /\ (stale = false -> fst out = (Ret tt, c)))
  /\ (forall (c : t) (w : World) (j : token_json) (tok : pystr),
        token_endpoint w (token_requests w) = Json j ->
        tj_access_token j = Some tok ->
        let out := _get_access_token c w in
        fst (fst out) = Ret tt
        /\ access_token (snd (fst out)) = Some tok
        /\ token_expires (snd (fst out))
           = clock w (clock_reads w)
             + match tj_expires_in j with Some e => e | None => 3600 end
             - 300)
  /\ (forall (endpoint image_data : pystr) (c : t) (w : World),
        let out := _make_request endpoint image_data c w in
        let stale := (token_missing c
                      || (token_expires c <? clock w (clock_reads w)))%bool in
        token_requests (snd out)
        = (if stale then S (token_requests w) else token_requests w)
        /\ (stale = true -> granted w = None ->
            (exists e, fst (fst out) = Raise e)
            /\ ocr_requests (snd out) = ocr_requests w)
        /\ (stale = false \/ granted w <> None ->
            ocr_requests (snd out) = ocr_requests w ++ [endpoint]
            /\ access_token (snd (fst out))
               = (if stale then granted w else access_token c))).
Proof.
  split; [|split; [|split]].
  - intros api_key secret_key app_id w out. subst out.
    unfold BaiduOCRClient.__init__.
    set (self := mk api_key secret_key app_id None 0 _).
    pose proof (get_access_token_requests self w) as [Ht Ho].
    split; [|split].
    + destruct (_get_access_token self w) as [[[u|e] c'] w']; exact Ht.
    + destruct (_get_access_token self w) as [[[u|e] c'] w']; exact Ho.
    + intros j tok Hj Htok.
      rewrite (get_access_token_granted self w j tok Hj Htok).
      eexists. split; reflexivity.
  - intros c w out stale. subst out stale.
    unfold _ensure_token_valid, bind, get_self, time_time.
    destruct (token_missing c) eqn:Hm; simpl.
    + split; [apply get_access_token_requests | discriminate].
    + destruct (token_expires c <? clock w (clock_reads w)) eqn:E.
      * split; [|discriminate].
        apply (get_access_token_requests c (tick w)).
      * split; reflexivity.
  - intros c w j tok Hj Htok out. subst out.
    rewrite (get_access_token_granted c w j tok Hj Htok).
    repeat split.
  - intros endpoint image_data c w out stale. subst out.
    pose proof (ensure_token_valid_step c w) as T. cbv zeta in T. fold stale in T.
    destruct (_make_request endpoint image_data c w) as [[r c2] w2] eqn:E.
    unfold _make_request in E. unfold bind at 1 in E. cbn [fst snd].
    destruct (_ensure_token_valid c w) as [[[u|e] c1] w1].
    + destruct T as (T1 & T2 & T3 & T4).
      pose proof (make_request_after_token endpoint c1 w1) as [P1 P2].
      cbv zeta in P1, P2. rewrite E in P1, P2. cbn [fst snd] in P1, P2.
      subst c2 w2. cbn [token_requests ocr_requests log_ocr_request].
      split; [exact T1|]. split.
      * intros Hs Hg. destruct T3 as [T3|T3]; congruence.
      * intros _. split; [now rewrite T2 | exact T4].
    + destruct T as (T1 & T2 & T3 & T4). inversion E; subst r c2 w2.
      split; [now rewrite T3|]. split.
      * intros _ _. split; [now exists e | exact T2].
      * intros [H|H]; congruence.
Qed.

(** The amended C7 on a world whose token endpoint grants "tok" for 30
    days while the clock reads 1000: the expiry stored, and a request of a
    client whose token has expired. *)
Lemma credential_lifecycle_witness :
  token_expires
    (snd (fst (_get_access_token Worlds.client_ready Worlds.always_hello)))
  = 1000 + 2592000 - 300
  /\ ocr_requests
       (snd (_make_request (py "general") (py "IMG")
               (set_token_expires 0 Worlds.client_ready) Worlds.always_hello))
     = [py "general"].
Proof.
  split.
  - exact (proj2 (proj2 (proj1 (proj2 (proj2 credential_lifecycle))
                           Worlds.client_ready Worlds.always_hello
                           Worlds.token_ok (py "tok") eq_refl eq_refl))).
  - apply (proj2 (proj2 (proj2 (proj2 (proj2 credential_lifecycle))
                           (py "general") (py "IMG")
                           (set_token_expires 0 Worlds.client_ready)
                           Worlds.always_hello))).
    right. discriminate.
Defined.

End ClientFacts.

(** ** Counters of the processor *)

Section ProcessorFacts.

Import BaiduOCRProcessor.

Lemma on_client_keeps_counters {A} (m : M BaiduOCRClient.t A) :
  keeps_counters (on_client m).
Proof.
  intros p w. unfold on_client, on_field.
  destruct (m (client p) w) as [[r c'] w']. simpl. repeat split.
Qed.

Lemma bind_ret_keeps_counters {A B} (m : M t A) (f : A -> B) :
  keeps_counters m -> keeps_counters (x <- m ;; ret (f x)).
Proof.
  intros H p w. specialize (H p w). unfold bind, ret.
  destruct (m p w) as [[[a|e] p'] w']; exact H.
Qed.

Lemma recognize_keeps_counters (image_path ocr_type : pystr) :
  keeps_counters (recognize image_path ocr_type).
Proof.
  unfold recognize.
  repeat match goal with
         | |- context [if ?b then _ else _] => destruct b
         end;
    apply bind_ret_keeps_counters, on_client_keeps_counters.
Qed.

(** One call of [process_single_image] returns a truth value, adds one to
    [processed_count], and adds one to [success_count] when it returns
    [True] and to [failed_count] when it returns [False]. *)
Lemma process_single_image_step (image_path output_path ocr_type : pystr)
  (p : t) (w : World) :
  exists b p' w',
    process_single_image image_path output_path ocr_type p w = (Ret b, p', w')
    /\ processed_count p' = processed_count p + 1
    /\ success_count p' = success_count p + (if b then 1 else 0)
    /\ failed_count p' = failed_count p + (if b then 0 else 1).
Proof.
  pose proof (recognize_keeps_counters image_path ocr_type p w) as K.
  unfold process_single_image, try_finally, try_except, bind.
  destruct (recognize image_path ocr_type p w) as [[[content|e] p1] w1];
    simpl in K; destruct K as (K1 & K2 & K3).
  - destruct (truthy (strip content)).
    + unfold now_strftime, write_file.
      destruct (writable (tick w1) output_path); [destruct (encodable _)|];
        simpl; do 3 eexists; (split; [reflexivity|]); simpl; lia.
    + simpl. do 3 eexists. split; [reflexivity|]. simpl. lia.
  - simpl. do 3 eexists. split; [reflexivity|]. simpl. lia.
Qed.



End ProcessorFacts.

(** ** The recognition service is an oracle no method changes *)

Section ServiceFrame.

Context {S : Type}.

Lemma ks_ret {A} (a : A) : keeps_service (@ret S A a).
Proof. intros s w. reflexivity. Qed.

Lemma ks_raise {A} (e : pystr) : keeps_service (@raise S A e).
Proof. intros s w. reflexivity. Qed.

Lemma ks_bind {A B} (m : M S A) (k : A -> M S B) :
  keeps_service m -> (forall a, keeps_service (k a)) -> keeps_service (bind m k).
Proof.
  intros Hm Hk s w. specialize (Hm s w). unfold bind.
  destruct (m s w) as [[[a|e] s'] w']; simpl in *.
  - now rewrite Hk.
  - exact Hm.
Qed.

Lemma ks_try_except {A} (m : M S A) (h : pystr -> M S A) :
  keeps_service m -> (forall e, keeps_service (h e)) ->
  keeps_service (try_except m h).
Proof.
  intros Hm Hh s w. specialize (Hm s w). unfold try_except.
  destruct (m s w) as [[[a|e] s'] w']; simpl in *.
  - exact Hm.
  - now rewrite Hh.
Qed.

Lemma ks_try_finally {A} (m : M S A) (f : M S unit) :
  keeps_service m -> keeps_service f -> keeps_service (try_finally m f).
Proof.
  intros Hm Hf s w. specialize (Hm s w). unfold try_finally.
  destruct (m s w) as [[r s'] w']. specialize (Hf s' w').
  destruct (f s' w') as [[[u|e] s''] w'']; simpl in *; congruence.
Qed.

Lemma ks_modify (f : S -> S) : keeps_service (modify f).
Proof. intros s w. reflexivity. Qed.

Lemma ks_get_self : keeps_service (@get_self S).
Proof. intros s w. reflexivity. Qed.

Lemma ks_time_time : keeps_service (@time_time S).
Proof. intros s w. reflexivity. Qed.

Lemma ks_now_strftime : keeps_service (@now_strftime S).
Proof. intros s w. reflexivity. Qed.

Lemma ks_time_sleep (d : Z) : keeps_service (@time_sleep S d).
Proof. intros s w. reflexivity. Qed.

Lemma ks_post_token : keeps_service (@post_token S).
Proof.
  intros s w. unfold post_token.
  now destruct (token_endpoint w (token_requests w)).
Qed.

Lemma ks_post_ocr (endpoint : pystr) : keeps_service (@post_ocr S endpoint).
Proof.
  intros s w. unfold post_ocr.
  now destruct (ocr_endpoint w (List.length (ocr_requests w))).
Qed.

Lemma ks_read_file (path : pystr) : keeps_service (@read_file S path).
Proof. intros s w. unfold read_file. now destruct (files w path). Qed.

Lemma ks_read_text (path : pystr) : keeps_service (@read_text S path).
Proof. intros s w. unfold read_text. now destruct (files w path). Qed.

Lemma ks_write_file (path content : pystr) :
  keeps_service (@write_file S path content).
Proof.
  intros s w. unfold write_file.
  destruct (writable w path); [now destruct (encodable content) | reflexivity].
Qed.

Lemma ks_on_field {T A} (get : S -> T) (set : T -> S -> S) (m : M T A) :
  keeps_service m -> keeps_service (on_field get set m).
Proof.
  intros Hm s w. specialize (Hm (get s) w). unfold on_field.
  destruct (m (get s) w) as [[r t'] w']. exact Hm.
Qed.

End ServiceFrame.

Create HintDb frame.

#[local] Hint Resolve ks_ret ks_raise ks_modify ks_get_self ks_time_time
  ks_now_strftime ks_time_sleep ks_post_token ks_post_ocr ks_read_file
  ks_read_text ks_write_file : frame.

Ltac frame_step :=
  match goal with
  | |- keeps_service (bind _ _) => apply ks_bind; [|intros ?]
  | |- keeps_service (try_except _ _) => apply ks_try_except; [|intros ?]
  | |- keeps_service (try_finally _ _) => apply ks_try_finally
  | |- keeps_service (on_field _ _ _) => apply ks_on_field
  | |- keeps_service (if ?b then _ else _) => destruct b
  | |- keeps_service (match ?x with Some _ => _ | None => _ end) => destruct x
  | |- keeps_service _ => solve [auto with frame]
  end.

Ltac frame := repeat frame_step.

Section ServiceFrameMethods.

Lemma ks_get_access_token : keeps_service BaiduOCRClient._get_access_token.
Proof. unfold BaiduOCRClient._get_access_token. frame. Qed.

Lemma ks_ensure_token_valid : keeps_service BaiduOCRClient._ensure_token_valid.
Proof.
  unfold BaiduOCRClient._ensure_token_valid.
  frame; apply ks_get_access_token.
Qed.

Lemma ks_make_request (endpoint image_data : pystr) :
  keeps_service (BaiduOCRClient._make_request endpoint image_data).
Proof.
  unfold BaiduOCRClient._make_request.
  apply ks_bind; [apply ks_ensure_token_valid | intros _]. frame.
Qed.

Lemma ks_recognize (image_path ocr_type : pystr) :
  keeps_service (BaiduOCRProcessor.recognize image_path ocr_type).
Proof.
  unfold BaiduOCRProcessor.recognize, BaiduOCRProcessor.on_client,
    BaiduOCRClient.table_ocr, BaiduOCRClient.handwriting_ocr,
    BaiduOCRClient.accurate_text_ocr, BaiduOCRClient.general_text_ocr.
  frame; apply ks_make_request.
Qed.

Lemma ks_process_single_image (image_path output_path ocr_type : pystr) :
  keeps_service
    (BaiduOCRProcessor.process_single_image image_path output_path ocr_type).
Proof.
  unfold BaiduOCRProcessor.process_single_image.
  apply ks_try_finally; [|frame].
  apply ks_try_except; [|intros ?; frame].
  apply ks_bind; [apply ks_recognize | intros ?]. frame.
Qed.

End ServiceFrameMethods.

(** ** Retrying *)

Section RetryFacts.

Import RetryFailedFiles.

Variables image_file output_file : pystr.

Abbreviation accurate := (py "accurate").

(** With a service that only ever finds nothing, recognition in accurate
    mode raises or yields text without a visible character. *)
Lemma recognize_empty (p : BaiduOCRProcessor.t) (w : World) :
  (forall k, empty_content (ocr_endpoint w k)) ->
  match fst (fst (BaiduOCRProcessor.recognize image_file accurate p w)) with
  | Ret content => nonblank content = false
  | Raise _ => True
  end.
Proof.
  intros H.
  unfold BaiduOCRProcessor.recognize. cbn [PyStr.eqb py List.map
    String.list_ascii_of_string Ascii.N_of_ascii N.eqb Pos.eqb andb].
  cbn -[BaiduOCRClient.accurate_text_ocr BaiduOCRProcessor.on_client
        BaiduOCRClient.convert_to_markdown].
  unfold bind, BaiduOCRProcessor.on_client, on_field,
    BaiduOCRClient.accurate_text_ocr, bind, read_file.
  destruct (files w image_file) as [data|]; [|exact I].
  unfold BaiduOCRClient._make_request, bind.
  pose proof (ks_ensure_token_valid (BaiduOCRProcessor.client p) w) as K.
  destruct (BaiduOCRClient._ensure_token_valid (BaiduOCRProcessor.client p) w)
    as [[[u|e] c1] w1]; simpl in K; [|exact I].
  unfold try_except, post_ocr.
  specialize (H (List.length (ocr_requests w1))). rewrite <- K in H.
  destruct (ocr_endpoint w1 (List.length (ocr_requests w1))) as [e|j];
    [destruct H|].
  destruct H as [Hc Hb]. rewrite Hc. simpl. exact Hb.
Qed.

(** So [process_single_image] returns [False] and counts one failure. *)
Lemma process_single_image_empty (p : BaiduOCRProcessor.t) (w : World) :
  (forall k, empty_content (ocr_endpoint w k)) ->
  exists p' w',
    BaiduOCRProcessor.process_single_image image_file output_file accurate p w
    = (Ret false, p', w')
    /\ BaiduOCRProcessor.processed_count p'
       = BaiduOCRProcessor.processed_count p + 1
    /\ BaiduOCRProcessor.failed_count p'
       = BaiduOCRProcessor.failed_count p + 1
    /\ BaiduOCRProcessor.success_count p' = BaiduOCRProcessor.success_count p.
Proof.
  intros H.
  pose proof (recognize_empty p w H) as R.
  pose proof (recognize_keeps_counters image_file accurate p w) as K.
  unfold BaiduOCRProcessor.process_single_image, try_finally, try_except, bind.
  destruct (BaiduOCRProcessor.recognize image_file accurate p w)
    as [[[content|e] p1] w1]; simpl in R, K; destruct K as (K1 & K2 & K3).
  - rewrite truthy_strip, R. simpl.
    do 2 eexists. split; [reflexivity|]. simpl. lia.
  - simpl. do 2 eexists. split; [reflexivity|]. simpl. lia.
Qed.

(** One iteration of the retry loop against such a service: it goes on to
    the next attempt unless this was the last one, in which case it returns
    the failed outcome. *)
Lemma attempt_empty (max_retries attempt : Z) (r : t) (w : World) :
  (forall k, empty_content (ocr_endpoint w k)) ->
  exists step r' w',
    try_except (attempt_body image_file output_file max_retries attempt)
               (attempt_handler image_file output_file max_retries attempt) r w
    = (Ret step, r', w')
    /\ ocr_endpoint w' = ocr_endpoint w
    /\ BaiduOCRProcessor.processed_count (processor r')
       = BaiduOCRProcessor.processed_count (processor r) + 1
    /\ (if attempt <? max_retries - 1
        then step = Continue /\ stats r' = stats r
        else exists o, step = Return o
                       /\ success o = false
                       /\ error o = Some MSG_PROCESSING_FAILED
                       /\ retries o = attempt
                       /\ failed_count (stats r') = failed_count (stats r) + 1).
Proof.
  intros H.
  unfold try_except, attempt_body, bind, time_time, on_processor, on_field.
  set (w1 := snd ((if 0 <? attempt
                   then time_sleep (backoff_delay attempt)
                   else ret tt) r (tick w))).
  assert (E1 : (if 0 <? attempt then time_sleep (backoff_delay attempt) else ret tt)
                 r (tick w) = (Ret tt, r, w1)).
  { subst w1. destruct (0 <? attempt); reflexivity. }
  assert (O1 : ocr_endpoint w1 = ocr_endpoint w).
  { subst w1. destruct (0 <? attempt); reflexivity. }
  rewrite E1.
  assert (H1 : forall k, empty_content (ocr_endpoint w1 k)).
  { intros k. rewrite O1. apply H. }
  destruct (process_single_image_empty (processor r) w1 H1)
    as (p' & w2 & E2 & Hp & _ & _).
  pose proof (ks_process_single_image image_file output_file accurate
                (processor r) w1) as O2.
  rewrite E2 in O2 |- *. simpl in O2.
  destruct (attempt <? max_retries - 1); simpl.
  - do 3 eexists. split; [reflexivity|]. simpl.
    repeat split; [congruence | exact Hp].
  - do 3 eexists. split; [reflexivity|]. simpl.
    split; [congruence|]. split; [exact Hp|].
    eexists. repeat split.
Qed.

Lemma retry_loop_empty (max_retries : Z) (remaining : nat) :
  forall (attempt : Z) (r : t) (w : World),
    (forall k, empty_content (ocr_endpoint w k)) ->
    attempt + Z.of_nat remaining = max_retries - 1 ->
    exists o r' w',
      retry_loop (S remaining) image_file output_file max_retries attempt r w
      = (Ret (Some o), r', w')
      /\ success o = false
      /\ error o = Some MSG_PROCESSING_FAILED
      /\ retries o = max_retries - 1
      /\ BaiduOCRProcessor.processed_count (processor r')
         = BaiduOCRProcessor.processed_count (processor r)
           + Z.of_nat (S remaining)
      /\ failed_count (stats r') = failed_count (stats r) + 1.
Proof.
  induction remaining as [|n IH]; intros attempt r w H Hn.
  - destruct (attempt_empty max_retries attempt r w H)
      as (step & r' & w' & E & _ & Hp & Hs).
    replace (attempt <? max_retries - 1) with false in Hs
      by (symmetry; apply Z.ltb_ge; lia).
    destruct Hs as (o & -> & Ho1 & Ho2 & Ho3 & Hf).
    exists o, r', w'. cbn [retry_loop]. unfold bind at 1. rewrite E.
    repeat split; try assumption; lia.
  - destruct (attempt_empty max_retries attempt r w H)
      as (step & r1 & w1 & E & Ho & Hp & Hs).
    replace (attempt <? max_retries - 1) with true in Hs
      by (symmetry; apply Z.ltb_lt; lia).
    destruct Hs as [-> Hst].
    assert (H1 : forall k, empty_content (ocr_endpoint w1 k)).
    { intros k. rewrite Ho. apply H. }
    destruct (IH (attempt + 1) r1 w1 H1 ltac:(lia))
      as (o & r' & w' & E' & Ho1 & Ho2 & Ho3 & Hp' & Hf).
    exists o, r', w'.
    change (retry_loop (S (S n)) image_file output_file max_retries attempt r w)
      with (bind (try_except
                    (attempt_body image_file output_file max_retries attempt)
                    (attempt_handler image_file output_file max_retries attempt))
                 (fun step => match step with
                              | Continue =>
                                  retry_loop (S n) image_file output_file
                                    max_retries (attempt + 1)
                              | Return o => ret (Some o)
                              end) r w).
    unfold bind at 1. rewrite E, E'.
    repeat split; try assumption.
    + rewrite Hp', Hp. lia.
    + rewrite Hf, Hst. reflexivity.
Qed.

End RetryFacts.

Section RetryClaims.

Import RetryFailedFiles.


End RetryClaims.

(** ** A run with a valid token and a readable image *)

Section ValidTokenRuns.

Import RetryFailedFiles.

Variables image_file output_file data : pystr.

Abbreviation accurate_mode := (py "accurate").
Abbreviation basic := (py "general_basic").

(** A request with a valid token that the service answers with [j]. *)
Lemma make_request_answered (c : BaiduOCRClient.t) (w : World) (j : ocr_result) :
  BaiduOCRClient.token_missing c = false ->
  clock w (clock_reads w) <= BaiduOCRClient.token_expires c ->
  upcoming w 0 = Json j ->
  BaiduOCRClient._make_request basic data c w
  = (match error_code j with
     | Some _ =>
         Raise (BaiduOCRClient.MSG_API_ERROR
                ++ match error_msg j with
                   | Some m => m
                   | None => py "Unknown error"
                   end)
     | None => Ret j
     end, c, log_ocr_request basic (tick w)).
Proof.
  intros Hm Hc Hj. unfold upcoming in Hj. rewrite Nat.add_0_r in Hj.
  unfold BaiduOCRClient._make_request, bind.
  rewrite (ensure_token_valid_fresh c w Hm Hc).
  unfold try_except, post_ocr. cbn [ocr_endpoint ocr_requests tick].
  rewrite Hj. now destruct (error_code j).
Qed.

Lemma recognize_accurate (p : BaiduOCRProcessor.t) (w : World) :
  BaiduOCRProcessor.recognize image_file accurate_mode p w
  = (result <- BaiduOCRProcessor.on_client
                 (BaiduOCRClient.accurate_text_ocr image_file) ;;
     ret (BaiduOCRClient.convert_to_markdown result)) p w.
Proof. reflexivity. Qed.

Lemma recognize_answered (p : BaiduOCRProcessor.t) (w : World) (j : ocr_result) :
  BaiduOCRClient.token_missing (BaiduOCRProcessor.client p) = false ->
  clock w (clock_reads w) <= BaiduOCRClient.token_expires (BaiduOCRProcessor.client p) ->
  files w image_file = Some data ->
  upcoming w 0 = Json j ->
  exists out,
    BaiduOCRProcessor.recognize image_file accurate_mode p w
    = (out, p, log_ocr_request basic (tick w))
    /\ match error_code j with
       | Some _ => exists e, out = Raise e
       | None => out = Ret (Layout.convert_to_markdown j)
       end.
Proof.
  intros Hm Hc Hf Hj. rewrite recognize_accurate.
  unfold bind, BaiduOCRProcessor.on_client, on_field,
    BaiduOCRClient.accurate_text_ocr, bind, read_file.
  rewrite Hf, (make_request_answered _ w j Hm Hc Hj).
  destruct p as [c n s f]. cbn [BaiduOCRProcessor.set_client
    BaiduOCRProcessor.client BaiduOCRProcessor.processed_count
    BaiduOCRProcessor.success_count BaiduOCRProcessor.failed_count].
  destruct (error_code j); eexists; (split; [reflexivity|]).
  - eexists; reflexivity.
  - reflexivity.
Qed.

(** The service answers with an error code: the call returns [False]. *)
Lemma process_single_image_api_error (p : BaiduOCRProcessor.t) (w : World) :
  BaiduOCRClient.token_missing (BaiduOCRProcessor.client p) = false ->
  clock w (clock_reads w) <= BaiduOCRClient.token_expires (BaiduOCRProcessor.client p) ->
  files w image_file = Some data ->
  api_error (upcoming w 0) ->
  exists p',
    BaiduOCRProcessor.process_single_image image_file output_file accurate_mode p w
    = (Ret false, p', log_ocr_request basic (tick w))
    /\ BaiduOCRProcessor.client p' = BaiduOCRProcessor.client p.
Proof.
  intros Hm Hc Hf He.
  destruct (upcoming w 0) as [e|j] eqn:Hj; [destruct He|]. simpl in He.
  destruct (recognize_answered p w j Hm Hc Hf Hj) as (out & E & Hout).
  destruct (error_code j) as [code|]; [|congruence].
  destruct Hout as [e ->].
  unfold BaiduOCRProcessor.process_single_image, try_finally, try_except, bind.
  rewrite E. simpl. eexists. split; reflexivity.
Qed.

Lemma encodable_header (stamp : String.string) :
  encodable (BaiduOCRProcessor.header (py stamp) accurate_mode) = true.
Proof.
  unfold BaiduOCRProcessor.header.
  rewrite !encodable_app, !encodable_py. reflexivity.
Qed.

(** The service answers with visible text and the artifact can be written:
    the call returns [True] and the artifact exists afterwards. *)
Lemma process_single_image_content (p : BaiduOCRProcessor.t) (w : World) :
  BaiduOCRClient.token_missing (BaiduOCRProcessor.client p) = false ->
  clock w (clock_reads w) <= BaiduOCRClient.token_expires (BaiduOCRProcessor.client p) ->
  files w image_file = Some data ->
  writable w output_file = true ->
  has_content_reply (upcoming w 0) ->
  encodable_reply (upcoming w 0) ->
  exists p' content,
    BaiduOCRProcessor.process_single_image image_file output_file accurate_mode p w
    = (Ret true, p',
       store_file output_file content (tick (log_ocr_request basic (tick w))))
    /\ BaiduOCRProcessor.client p' = BaiduOCRProcessor.client p.
Proof.
  intros Hm Hc Hf Hw Hr Hu.
  destruct (upcoming w 0) as [e|j] eqn:Hj; [destruct Hr|].
  destruct Hr as [Hcode Hnb]. simpl in Hu.
  destruct (recognize_answered p w j Hm Hc Hf Hj) as (out & E & Hout).
  rewrite Hcode in Hout. subst out.
  unfold BaiduOCRProcessor.process_single_image, try_finally, try_except, bind.
  rewrite E, truthy_strip, Hnb.
  unfold now_strftime, write_file.
  cbn [writable tick log_ocr_request]. rewrite Hw.
  rewrite encodable_app, encodable_header, Hu. simpl.
  do 2 eexists. split; reflexivity.
Qed.

Lemma upcoming_shift (w w' : World) (endpoint : pystr) (i : nat) :
  ocr_endpoint w' = ocr_endpoint w ->
  ocr_requests w' = ocr_requests w ++ [endpoint] ->
  upcoming w' i = upcoming w (S i).
Proof.
  intros He Hr. unfold upcoming. rewrite He, Hr, length_app. simpl.
  f_equal. lia.
Qed.

(** An attempt that the service answers with an error code, with further
    attempts allowed: the loop continues. *)
Lemma attempt_api_error (max_retries attempt : Z) (r : t) (w : World) :
  attempt < max_retries - 1 ->
  BaiduOCRClient.token_missing (BaiduOCRProcessor.client (processor r)) = false ->
  (forall k, clock w k
             <= BaiduOCRClient.token_expires (BaiduOCRProcessor.client (processor r))) ->
  files w image_file = Some data ->
  api_error (upcoming w 0) ->
  exists r' w',
    try_except (attempt_body image_file output_file max_retries attempt)
               (attempt_handler image_file output_file max_retries attempt) r w
    = (Ret Continue, r', w')
    /\ BaiduOCRProcessor.client (processor r')
       = BaiduOCRProcessor.client (processor r)
    /\ advanced image_file attempt w w'.
Proof.
  intros Hlt Hm Hc Hf He.
  apply Z.ltb_lt in Hlt.
  unfold try_except, attempt_body, bind, time_time, on_processor, on_field,
    advanced.
  destruct (0 <? attempt) eqn:Ha; unfold time_sleep, ret.
  - destruct (process_single_image_api_error (processor r)
                (log_sleep (backoff_delay attempt) (tick w)) Hm (Hc _) Hf He)
      as (p' & E & Hcl).
    rewrite E, Hlt. do 2 eexists. split; [reflexivity|].
    destruct r; split; [exact Hcl | repeat split].
  - destruct (process_single_image_api_error (processor r) (tick w)
                Hm (Hc _) Hf He) as (p' & E & Hcl).
    rewrite E, Hlt. do 2 eexists. split; [reflexivity|].
    destruct r; split; [exact Hcl|]. repeat split.
    simpl. now rewrite app_nil_r.
Qed.

(** An attempt that the service answers with visible text: the loop ends
    with a successful outcome that records the attempt index. *)
Lemma attempt_content (max_retries attempt : Z) (r : t) (w : World) :
  BaiduOCRClient.token_missing (BaiduOCRProcessor.client (processor r)) = false ->
  (forall k, clock w k
             <= BaiduOCRClient.token_expires (BaiduOCRProcessor.client (processor r))) ->
  files w image_file = Some data ->
  writable w output_file = true ->
  has_content_reply (upcoming w 0) ->
  encodable_reply (upcoming w 0) ->
  exists o r' w',
    try_except (attempt_body image_file output_file max_retries attempt)
               (attempt_handler image_file output_file max_retries attempt) r w
    = (Ret (Return o), r', w')
    /\ success o = true
    /\ retries o = attempt
    /\ error o = None
    /\ sleeps w' = sleeps w ++ (if 0 <? attempt then [2 ^ attempt] else []).
Proof.
  intros Hm Hc Hf Hw Hr Hu.
  unfold try_except, attempt_body, bind, time_time, on_processor, on_field.
  destruct (0 <? attempt) eqn:Ha; unfold time_sleep, ret.
  - destruct (process_single_image_content (processor r)
                (log_sleep (backoff_delay attempt) (tick w)) Hm (Hc _) Hf Hw Hr Hu)
      as (p' & content & E & Hcl).
    rewrite E. unfold try_except, read_text. cbn [files tick store_file].
    rewrite pystr_eqb_refl. do 3 eexists. split; [reflexivity|]. repeat split.
  - destruct (process_single_image_content (processor r) (tick w)
                Hm (Hc _) Hf Hw Hr Hu) as (p' & content & E & Hcl).
    rewrite E. unfold try_except, read_text. cbn [files tick store_file].
    rewrite pystr_eqb_refl. do 3 eexists. split; [reflexivity|]. repeat split.
    simpl. now rewrite app_nil_r.
Qed.

End ValidTokenRuns.

Section BackoffClaims.

Import RetryFailedFiles.

Lemma retry_loop_unfold (remaining : nat) (image_file output_file : pystr)
  (max_retries attempt : Z) (r : t) (w : World) :
  retry_loop (S remaining) image_file output_file max_retries attempt r w
  = match try_except (attempt_body image_file output_file max_retries attempt)
            (attempt_handler image_file output_file max_retries attempt) r w with
    | (Ret Continue, r', w') =>
        retry_loop remaining image_file output_file max_retries (attempt + 1) r' w'
    | (Ret (Return o), r', w') => (Ret (Some o), r', w')
    | (Raise e, r', w') => (Raise e, r', w')
    end.
Proof.
  cbn [retry_loop]. unfold bind at 1.
  destruct (try_except _ _ r w) as [[[[|o]|e] r'] w']; reflexivity.
Qed.

(** C2. Let at least three attempts be allowed, the token be valid for the
    whole run, the image be readable and the artifact writable.  If the
    service answers the first two requests with an error code (as a
    rate-limit reply has) and the third with visible text that a UTF-8 file
    can hold (so that the third call succeeds), then
    [process_with_retry] returns a successful outcome with [retries = 2],
    and it has slept exactly twice: [1 * 2^1] seconds before attempt 1 and
    [1 * 2^2] seconds before attempt 2.  The delay before attempt [k] is
    [2^k], which grows strictly with [k]. *)
Theorem retry_after_two_rate_limits :
  forall (image_file output_file data : pystr) (max_retries : Z) (r : t)
         (w : World),
    3 <= max_retries ->
    BaiduOCRClient.token_missing (BaiduOCRProcessor.client (processor r)) = false ->
    (forall k, clock w k
               <= BaiduOCRClient.token_expires
                    (BaiduOCRProcessor.client (processor r))) ->
    files w image_file = Some data ->
    writable w output_file = true ->
    api_error (upcoming w 0) ->
    api_error (upcoming w 1) ->
    has_content_reply (upcoming w 2) ->
    encodable_reply (upcoming w 2) ->
    (exists o r' w',
       process_with_retry image_file output_file max_retries r w
       = (Ret (Some o), r', w')
       /\ success o = true
       /\ retries o = 2
       /\ sleeps w' = sleeps w ++ [1 * 2 ^ 1; 1 * 2 ^ 2])
    /\ (forall k, 0 <= k ->
          backoff_delay k = 1 * 2 ^ k /\ backoff_delay k < backoff_delay (k + 1)).
Proof.
  intros image_file output_file data max_retries r w Hmax Hm Hc Hf Hw H0 H1 H2 Hu.
  split.
  - unfold process_with_retry.
    destruct (Z.to_nat max_retries) as [|[|[|n]]] eqn:En; try lia.
    (* attempt 0 *)
    destruct (attempt_api_error image_file output_file data max_retries 0 r w
                ltac:(lia) Hm Hc Hf H0)
      as (r1 & w1 & E1 & Hcl1 & Hk1 & Hf1 & Hw1 & He1 & Hr1 & Hs1).
    rewrite retry_loop_unfold, E1.
    (* attempt 1 *)
    rewrite <- Hcl1 in Hm, Hc. rewrite <- Hk1 in Hc. rewrite <- Hf1 in Hf.
    rewrite <- (upcoming_shift w w1 _ 0 He1 Hr1) in H1.
    destruct (attempt_api_error image_file output_file data max_retries (0 + 1)
                r1 w1 ltac:(lia) Hm Hc Hf H1)
      as (r2 & w2 & E2 & Hcl2 & Hk2 & Hf2 & Hw2 & He2 & Hr2 & Hs2).
    rewrite retry_loop_unfold, E2.
    (* attempt 2 *)
    rewrite <- Hcl2 in Hm, Hc. rewrite <- Hk2 in Hc. rewrite <- Hf2 in Hf.
    rewrite <- (upcoming_shift w w1 _ 1 He1 Hr1) in H2, Hu.
    rewrite <- (upcoming_shift w1 w2 _ 0 He2 Hr2) in H2, Hu.
    assert (Hw' : writable w2 output_file = true) by now rewrite Hw2, Hw1.
    destruct (attempt_content image_file output_file data max_retries
                (0 + 1 + 1) r2 w2 Hm Hc Hf Hw' H2 Hu)
      as (o & r3 & w3 & E3 & Ho1 & Ho2 & Ho3 & Hs3).
    rewrite retry_loop_unfold, E3.
    exists o, r3, w3. split; [reflexivity|]. split; [exact Ho1|].
    split; [exact Ho2|].
    rewrite Hs3, Hs2, Hs1. simpl. rewrite app_nil_r, <- app_assoc. reflexivity.
  - intros k Hk. unfold backoff_delay. split; [lia|].
    rewrite Z.pow_add_r by lia. assert (0 < 2 ^ k) by (apply Z.pow_pos_nonneg; lia).
    lia.
Qed.

(** C2 on a world whose service is rate limited twice and then recognises
    the word "hello". *)
Lemma retry_after_two_rate_limits_witness :
  exists o r' w',
    process_with_retry (py "in/a.jpg") (py "out/a_baidu.md") 3
      Worlds.retrier_ready Worlds.limited_twice
    = (Ret (Some o), r', w')
    /\ success o = true
    /\ retries o = 2
    /\ sleeps w' = sleeps Worlds.limited_twice ++ [1 * 2 ^ 1; 1 * 2 ^ 2].
Proof.
  apply (retry_after_two_rate_limits (py "in/a.jpg") (py "out/a_baidu.md")
           (py "IMG") 3 Worlds.retrier_ready Worlds.limited_twice).
  - lia.
  - reflexivity.
  - intros k. simpl. lia.
  - reflexivity.
  - reflexivity.
  - simpl. discriminate.
  - simpl. discriminate.
  - split; reflexivity.
  - reflexivity.
Defined.

End BackoffClaims.

(** ** Paths *)

Section PathFacts.

Import PathLib.

Lemma no_slash_app (a b : pystr) :
  no_slash (a ++ b) = (no_slash a && no_slash b)%bool.
Proof. apply forallb_app. Qed.

(** No component of a split text holds the separator. *)
Lemma split_on_no_sep (s : pystr) :
  Forall (fun x => no_slash x = true) (split_on SLASH s).
Proof.
  induction s as [|x s IH]; simpl.
  - repeat constructor.
  - destruct (N.eqb x SLASH) eqn:E.
    + constructor; [reflexivity | exact IH].
    + destruct (split_on SLASH s) as [|h t].
      * repeat constructor. simpl. now rewrite E.
      * inversion IH as [|? ? Hh Ht]; subst.
        constructor; [simpl; now rewrite E | exact Ht].
Qed.

Lemma split_on_slashless (s : pystr) :
  no_slash s = true -> split_on SLASH s = [s].
Proof.
  induction s as [|x s IH]; simpl; [reflexivity|]. intros H.
  apply andb_true_iff in H. destruct H as [H1 H2].
  apply negb_true_iff in H1. now rewrite H1, (IH H2).
Qed.

Lemma split_on_app_sep (a b : pystr) :
  no_slash a = true ->
  split_on SLASH (a ++ SLASH :: b) = a :: split_on SLASH b.
Proof.
  induction a as [|x a IH]; simpl; intros H.
  - reflexivity.
  - apply andb_true_iff in H. destruct H as [H1 H2].
    apply negb_true_iff in H1. now rewrite H1, (IH H2).
Qed.

(** Splitting undoes joining, for components without a slash. *)
Lemma split_on_join (segs : list pystr) :
  segs <> [] ->
  Forall (fun x => no_slash x = true) segs ->
  split_on SLASH (join [SLASH] segs) = segs.
Proof.
  induction segs as [|a segs IH]; [congruence|]. intros _ H.
  inversion H as [|? ? Ha Hs]; subst.
  destruct segs as [|b segs].
  - simpl. now apply split_on_slashless.
  - change (join [SLASH] (a :: b :: segs))
      with (a ++ SLASH :: join [SLASH] (b :: segs)).
    rewrite (split_on_app_sep _ _ Ha), IH; [reflexivity | discriminate | exact Hs].
Qed.

Lemma segment_parts (s : pystr) :
  segment s = true -> truthy s = true /\ no_slash s = true /\ kept s = true.
Proof.
  unfold segment, kept. rewrite !andb_true_iff. intros [[H1 H2] H3].
  now rewrite H1, H3.
Qed.

Lemma filter_kept_segments (segs : list pystr) :
  Forall (fun s => segment s = true) segs -> filter kept segs = segs.
Proof.
  induction 1 as [|x segs Hx _ IH]; [reflexivity|].
  simpl. destruct (segment_parts x Hx) as (_ & _ & ->). now rewrite IH.
Qed.

Lemma segments_no_slash (segs : list pystr) :
  Forall (fun s => segment s = true) segs ->
  Forall (fun s => no_slash s = true) segs.
Proof.
  intros H. eapply Forall_impl; [|exact H].
  intros x Hx. apply (segment_parts x Hx).
Qed.

(** A text that does not start with a slash has no root. *)
Lemma split_root_relative (c : N) (s : pystr) :
  N.eqb c SLASH = false -> split_root (c :: s) = ([], c :: s).
Proof. intros H. simpl. now rewrite H. Qed.

(** The joined components start with the first character of the first. *)
Lemma join_head (c : N) (a : pystr) (segs : list pystr) :
  exists rest, join [SLASH] ((c :: a) :: segs) = c :: rest.
Proof. destruct segs; eexists; reflexivity. Qed.

(** A normal-form path string parses into its root and components. *)
Lemma Path_plain (r : pystr) (segs : list pystr) :
  r = [] \/ r = [SLASH] ->
  segs <> [] ->
  Forall (fun s => segment s = true) segs ->
  Path (r ++ join [SLASH] segs) = mk_path r segs.
Proof.
  intros Hr Hne Hsegs.
  destruct segs as [|a segs]; [congruence|].
  inversion Hsegs as [|? ? Ha _]; subst.
  destruct (segment_parts a Ha) as (Ht & Hs & _).
  destruct a as [|c a]; [discriminate|].
  simpl in Hs. apply andb_true_iff in Hs. destruct Hs as [Hc _].
  apply negb_true_iff in Hc.
  destruct (join_head c a segs) as [rest Hj].
  assert (Hsplit : filter kept (split_on SLASH (join [SLASH] ((c :: a) :: segs)))
                   = (c :: a) :: segs).
  { rewrite split_on_join;
      [now apply filter_kept_segments | discriminate
      | now apply segments_no_slash]. }
  unfold Path. destruct Hr as [-> | ->].
  - assert (Hroot : split_root (join [SLASH] ((c :: a) :: segs))
                    = ([], join [SLASH] ((c :: a) :: segs))).
    { rewrite Hj. apply split_root_relative, Hc. }
    change ([] ++ join [SLASH] ((c :: a) :: segs))
      with (join [SLASH] ((c :: a) :: segs)).
    rewrite Hroot. cbn [fst snd]. now rewrite Hsplit.
  - assert (Hroot : split_root (SLASH :: join [SLASH] ((c :: a) :: segs))
                    = ([SLASH], join [SLASH] ((c :: a) :: segs))).
    { rewrite Hj. cbn [split_root]. now rewrite N.eqb_refl, Hc. }
    change ([SLASH] ++ join [SLASH] ((c :: a) :: segs))
      with (SLASH :: join [SLASH] ((c :: a) :: segs)).
    rewrite Hroot. cbn [fst snd]. now rewrite Hsplit.
Qed.

Lemma Path_segment (s : pystr) : segment s = true -> Path s = mk_path [] [s].
Proof.
  intros H.
  apply (Path_plain [] [s] (or_introl eq_refl)); [discriminate|].
  now constructor.
Qed.

(** The path of a directory entry is the directory's prefix followed by
    the entry name. *)
Lemma child_prefix (d n : pystr) : child d n = dir_prefix d ++ n.
Proof.
  unfold dir_prefix, child.
  destruct (tail (Path d)); [destruct (truthy (root (Path d)))|].
  - now rewrite app_nil_r.
  - reflexivity.
  - now rewrite <- !app_assoc.
Qed.

(** Joining a single component to a directory gives the same string. *)
Lemma joinpath_segment (d seg : pystr) :
  segment seg = true -> joinpath d seg = dir_prefix d ++ seg.
Proof.
  intros H. unfold joinpath, truediv, dir_prefix, child.
  rewrite (Path_segment seg H). cbn [root tail truthy].
  destruct (Path d) as [r t]. cbn [root tail]. unfold str. cbn [root tail].
  destruct t as [|a t].
  - destruct r as [|c r]; [reflexivity|].
    cbn [app truthy join]. now rewrite !app_nil_r.
  - rewrite join_snoc by discriminate.
    destruct r; cbn [app]; now rewrite <- ?app_assoc.
Qed.

(** For a directory string in normal form the prefix is that string and a
    slash. *)
Lemma dir_prefix_plain (d : pystr) : plain d -> dir_prefix d = d ++ [SLASH].
Proof.
  intros (r & segs & Hr & Hne & Hsegs & ->).
  unfold dir_prefix, child. rewrite (Path_plain r segs Hr Hne Hsegs).
  cbn [root tail]. destruct segs as [|a segs]; [congruence|].
  unfold str. cbn [root tail].
  destruct r; now rewrite app_nil_r.
Qed.

Lemma last_forall {A} (P : A -> Prop) (l : list A) (d : A) :
  Forall P l -> P d -> P (last l d).
Proof.
  induction 1 as [|x l Hx Hl IH]; intros Hd; [exact Hd|].
  destruct l; [exact Hx | now apply IH].
Qed.

Lemma name_no_slash (p : pystr) : no_slash (name p) = true.
Proof.
  unfold name, Path. cbn [tail].
  apply (last_forall (fun x => no_slash x = true)); [|reflexivity].
  apply Forall_forall. intros x Hx. apply filter_In in Hx.
  pose proof (split_on_no_sep (snd (split_root p))) as H.
  rewrite Forall_forall in H. now apply H.
Qed.

Lemma split_last_app (c : N) (s before after : pystr) :
  split_last c s = Some (before, after) -> s = before ++ c :: after.
Proof.
  revert before after. induction s as [|x s IH]; intros before after H;
    [discriminate|].
  simpl in H. destruct (split_last c s) as [[b a]|].
  - inversion H; subst. cbn [app]. f_equal. now apply IH.
  - destruct (N.eqb_spec x c) as [->|]; [|discriminate].
    now inversion H.
Qed.

Lemma stem_no_slash (p : pystr) : no_slash (stem p) = true.
Proof.
  unfold stem. pose proof (name_no_slash p) as H.
  destruct (split_last DOT (name p)) as [[before after]|] eqn:E; [|exact H].
  destruct (truthy before && truthy after)%bool; [|exact H].
  apply split_last_app in E. rewrite E, no_slash_app in H.
  now apply andb_true_iff in H.
Qed.

(** A stem followed by a suffix of two or more characters without a slash
    is a path component. *)
Lemma stem_suffix_segment (p suffix : pystr) :
  no_slash suffix = true -> (2 <= List.length suffix)%nat ->
  segment (stem p ++ suffix) = true.
Proof.
  intros Hs Hl. unfold segment.
  rewrite truthy_app, no_slash_app, stem_no_slash, Hs.
  assert (T : truthy suffix = true) by (destruct suffix; [simpl in Hl; lia | reflexivity]).
  rewrite T, orb_true_r. cbn [andb].
  apply negb_true_iff.
  destruct (PyStr.eqb (stem p ++ suffix) [DOT]) eqn:E; [|reflexivity].
  apply pystr_eqb_eq in E. apply (f_equal (@List.length N)) in E.
  rewrite length_app in E. simpl in E. lia.
Qed.

End PathFacts.

(** ** Artifact paths and image discovery *)

Section BatchFacts.

Import BaiduOCRBatchProcessor.

Lemma startswith_map (f : N -> N) (s p : pystr) :
  startswith s p = true -> startswith (List.map f s) (List.map f p) = true.
Proof.
  revert s. induction p as [|a p IH]; intros s H; [now destruct s|].
  destruct s as [|b s]; [discriminate|].
  simpl in *. apply andb_true_iff in H. destruct H as [Hab Hs].
  apply N.eqb_eq in Hab. subst b.
  now rewrite N.eqb_refl, IH.
Qed.

(** A name that ends with [p] ends, in lower case, with [p] in lower case. *)
Lemma endswith_lower (n p : pystr) :
  endswith n p = true -> endswith (lower n) (lower p) = true.
Proof.
  unfold endswith, lower. rewrite <- !map_rev. apply startswith_map.
Qed.

Lemma image_extension_cases (ext : pystr) :
  In ext IMAGE_EXTENSIONS -> lower ext = ext /\ lower (upper ext) = ext.
Proof.
  unfold IMAGE_EXTENSIONS. simpl.
  intros [<-|[<-|[<-|[<-|[<-|[]]]]]]; split; reflexivity.
Qed.

Lemma filter_nil_all_false {A} (f : A -> bool) (l : list A) :
  (forall x, In x l -> f x = false) -> filter f l = [].
Proof.
  induction l as [|x l IH]; intros H; [reflexivity|].
  simpl. rewrite (H x (or_introl eq_refl)). apply IH.
  intros y Hy. apply H. now right.
Qed.

Lemma flat_map_nil_all_nil {A B} (f : A -> list B) (l : list A) :
  (forall x, In x l -> f x = []) -> flat_map f l = [].
Proof.
  induction l as [|x l IH]; intros H; [reflexivity|].
  simpl. rewrite (H x (or_introl eq_refl)). apply IH.
  intros y Hy. apply H. now right.
Qed.

(** A directory without a name that ends, case-insensitively, with an
    image extension yields no file. *)
Lemma globbed_nil (w : World) (directory : pystr) :
  (forall n, In n (scandir w directory) ->
     forall ext, In ext IMAGE_EXTENSIONS -> endswith (lower n) ext = false) ->
  globbed w directory = [].
Proof.
  intros H. unfold globbed. apply flat_map_nil_all_nil. intros ext Hext.
  destruct (image_extension_cases ext Hext) as [Hl Hu].
  unfold PathLib.glob_suffix.
  rewrite !filter_nil_all_false; [reflexivity| |].
  - intros n Hn. destruct (endswith n (upper ext)) eqn:E; [|reflexivity].
    apply endswith_lower in E. rewrite Hu in E.
    now rewrite (H n Hn ext Hext) in E.
  - intros n Hn. destruct (endswith n ext) eqn:E; [|reflexivity].
    apply endswith_lower in E. rewrite Hl in E.
    now rewrite (H n Hn ext Hext) in E.
Qed.



(** C8, as stated, fails: a directory holding a.jpg and a.png yields two
    distinct image files with one and the same artifact path. *)
Lemma artifact_paths_collide_counterexample :
  get_image_files (py "in") Worlds.batch_ready Worlds.two_formats
  = (Ret [py "in/a.jpg"; py "in/a.png"], Worlds.batch_ready, Worlds.two_formats)
  /\ py "in/a.jpg" <> py "in/a.png"
  /\ artifact_path (py "out") (py "in/a.jpg") = py "out/a_baidu.md"
  /\ artifact_path (py "out") (py "in/a.png") = py "out/a_baidu.md".
Proof. repeat split. discriminate. Qed.

(** The artifact path is the prefix of the output directory followed by
    the stem and "_baidu.md". *)
Lemma artifact_path_prefix (output_dir f : pystr) :
  artifact_path output_dir f
  = dir_prefix output_dir ++ PathLib.stem f ++ py "_baidu.md".
Proof.
  unfold artifact_path. apply joinpath_segment, stem_suffix_segment.
  - reflexivity.
  - simpl. lia.
Qed.

(** C8, amended. The artifact path is a function of the output directory
    and the stem of the source file, in both batch entry points: two image
    files of a batch get the same artifact path exactly when their stems are
    equal, so files with distinct stems get distinct paths and files that
    differ only in their extension share one.  The path is the stem and
    "_baidu.md" after what [pathlib] makes of the output directory: for a
    directory string in normal form that is the string and a slash, while
    "out/" gives "out/" and both "" and "." give nothing. *)
Theorem artifact_path_injective_on_stems :
  forall output_dir f g : pystr,
    (artifact_path output_dir f = artifact_path output_dir g
     <-> PathLib.stem f = PathLib.stem g)
    /\ (BaiduOCRProcessor.artifact_path output_dir f
        = BaiduOCRProcessor.artifact_path output_dir g
        <-> PathLib.stem f = PathLib.stem g)
    /\ artifact_path output_dir f
       = dir_prefix output_dir ++ PathLib.stem f ++ py "_baidu.md"
    /\ (plain output_dir ->
        artifact_path output_dir f
        = output_dir ++ py "/" ++ PathLib.stem f ++ py "_baidu.md")
    /\ dir_prefix (py "out/") = py "out/"
    /\ dir_prefix (py "./out") = py "out/"
    /\ dir_prefix (py "") = []
    /\ dir_prefix (py ".") = [].
Proof.
  intros output_dir f g.
  assert (E : artifact_path output_dir f = artifact_path output_dir g
              <-> PathLib.stem f = PathLib.stem g).
  { rewrite !artifact_path_prefix. split.
    - intros H. apply app_inv_head in H. now apply app_inv_tail in H.
    - now intros ->. }
  split; [exact E|]. split; [exact E|].
  split; [apply artifact_path_prefix|].
  split; [|repeat split].
  intros Hd. rewrite artifact_path_prefix, (dir_prefix_plain _ Hd).
  now rewrite <- app_assoc.
Qed.

(** The amended C8 at a.jpg and a.png, whose stems are both "a", in the
    output directory "out". *)
Lemma artifact_path_injective_on_stems_witness :
  PathLib.stem (py "in/a.jpg") = PathLib.stem (py "in/a.png")
  /\ artifact_path (py "out") (py "in/a.jpg")
     = artifact_path (py "out") (py "in/a.png")
  /\ artifact_path (py "out") (py "in/a.jpg") = py "out/a_baidu.md".
Proof.
  split; [reflexivity|]. split.
  - apply (proj1 (artifact_path_injective_on_stems (py "out") (py "in/a.jpg")
                    (py "in/a.png"))).
    reflexivity.
  - apply (proj1 (proj2 (proj2 (proj2
             (artifact_path_injective_on_stems (py "out") (py "in/a.jpg")
                (py "in/a.png")))))).
    exists [], [py "out"]. split; [now left|]. split; [discriminate|].
    split; [repeat constructor | reflexivity].
Defined.

End BatchFacts.

(** * Further properties of the embedded code *)

(** ** Observations of the world that a method leaves alone *)

Section Preservation.

Context {X S : Type} (f : World -> X).

Lemma pv_ret {A} (a : A) : preserves f (@ret S A a).
Proof. intros s w. reflexivity. Qed.

Lemma pv_raise {A} (e : pystr) : preserves f (@raise S A e).
Proof. intros s w. reflexivity. Qed.

Lemma pv_modify (g : S -> S) : preserves f (modify g).
Proof. intros s w. reflexivity. Qed.

Lemma pv_get_self : preserves f (@get_self S).
Proof. intros s w. reflexivity. Qed.

Lemma pv_read_file (path : pystr) : preserves f (@read_file S path).
Proof. intros s w. unfold read_file. now destruct (files w path). Qed.

Lemma pv_mkdir (path : pystr) : preserves f (@mkdir S path).
Proof. intros s w. unfold mkdir. now destruct (can_mkdir w path). Qed.

Lemma pv_bind {A B} (m : M S A) (k : A -> M S B) :
  preserves f m -> (forall a, preserves f (k a)) -> preserves f (bind m k).
Proof.
  intros Hm Hk s w. specialize (Hm s w). unfold bind.
  destruct (m s w) as [[[a|e] s'] w']; simpl in *.
  - now rewrite Hk.
  - exact Hm.
Qed.

Lemma pv_try_except {A} (m : M S A) (h : pystr -> M S A) :
  preserves f m -> (forall e, preserves f (h e)) -> preserves f (try_except m h).
Proof.
  intros Hm Hh s w. specialize (Hm s w). unfold try_except.
  destruct (m s w) as [[[a|e] s'] w']; simpl in *.
  - exact Hm.
  - now rewrite Hh.
Qed.

Lemma pv_try_finally {A} (m : M S A) (g : M S unit) :
  preserves f m -> preserves f g -> preserves f (try_finally m g).
Proof.
  intros Hm Hg s w. specialize (Hm s w). unfold try_finally.
  destruct (m s w) as [[r s'] w']. specialize (Hg s' w').
  destruct (g s' w') as [[[u|e] s''] w'']; simpl in *; congruence.
Qed.

Lemma pv_on_field {T A} (get : S -> T) (set : T -> S -> S) (m : M T A) :
  preserves f m -> preserves f (on_field get set m).
Proof.
  intros Hm s w. specialize (Hm (get s) w). unfold on_field.
  destruct (m (get s) w) as [[r t'] w']. exact Hm.
Qed.

Lemma pv_time_time : (forall w, f (tick w) = f w) -> preserves f (@time_time S).
Proof. intros H s w. apply H. Qed.

Lemma pv_now_strftime :
  (forall w, f (tick w) = f w) -> preserves f (@now_strftime S).
Proof. intros H s w. apply H. Qed.

Lemma pv_time_sleep (d : Z) :
  (forall w, f (log_sleep d w) = f w) -> preserves f (@time_sleep S d).
Proof. intros H s w. apply H. Qed.

Lemma pv_post_token :
  (forall w, f (count_token_request w) = f w) -> preserves f (@post_token S).
Proof.
  intros H s w. unfold post_token.
  destruct (token_endpoint w (token_requests w)); apply H.
Qed.

Lemma pv_post_ocr (endpoint : pystr) :
  (forall w, f (log_ocr_request endpoint w) = f w) ->
  preserves f (@post_ocr S endpoint).
Proof.
  intros H s w. unfold post_ocr.
  destruct (ocr_endpoint w (List.length (ocr_requests w))); apply H.
Qed.

Lemma pv_read_text (path : pystr) : preserves f (@read_text S path).
Proof. intros s w. unfold read_text. now destruct (files w path). Qed.

Lemma pv_write_file (path content : pystr) :
  (forall c w, f (store_file path c w) = f w) ->
  preserves f (@write_file S path content).
Proof.
  intros H s w. unfold write_file.
  destruct (writable w path); [|reflexivity].
  destruct (encodable content); apply H.
Qed.

Lemma pv_open_w (path : pystr) :
  (forall c w, f (store_file path c w) = f w) -> preserves f (@open_w S path).
Proof.
  intros H s w. unfold open_w.
  destruct (writable w path); [apply H | reflexivity].
Qed.

Lemma pv_write_text (path text : pystr) :
  (forall c w, f (store_file path c w) = f w) ->
  preserves f (@write_text S path text).
Proof.
  intros H s w. unfold write_text.
  destruct (encodable text); [apply H | reflexivity].
Qed.

End Preservation.

Ltac preserve_step :=
  match goal with
  | |- preserves _ (bind _ _) => apply pv_bind; [|intros ?]
  | |- preserves _ (try_except _ _) => apply pv_try_except; [|intros ?]
  | |- preserves _ (try_finally _ _) => apply pv_try_finally
  | |- preserves _ (on_field _ _ _) => apply pv_on_field
  | |- preserves _ (ret _) => apply pv_ret
  | |- preserves _ (raise _) => apply pv_raise
  | |- preserves _ (modify _) => apply pv_modify
  | |- preserves _ get_self => apply pv_get_self
  | |- preserves _ (read_file _) => apply pv_read_file
  | |- preserves _ (read_text _) => apply pv_read_text
  | |- preserves _ (mkdir _) => apply pv_mkdir
  | |- preserves _ time_time => apply pv_time_time; solve [auto]
  | |- preserves _ now_strftime => apply pv_now_strftime; solve [auto]
  | |- preserves _ post_token => apply pv_post_token; solve [auto]
  | |- preserves _ (post_ocr _) => apply pv_post_ocr; solve [auto]
  | |- preserves _ (time_sleep _) =>
      apply pv_time_sleep; first [solve [intros; reflexivity] | solve [auto]]
  | |- preserves _ (write_file _ _) =>
      apply pv_write_file; first [solve [intros; reflexivity] | solve [auto]]
  | |- preserves _ (if ?b then _ else _) => destruct b
  | |- preserves _ (match ?x with Some _ => _ | None => _ end) => destruct x
  end.

Ltac preserve := repeat preserve_step.

Section PreservationMethods.

Context {X : Type} (f : World -> X).

Hypothesis blind : network_blind f.

Let blind_tick : forall w, f (tick w) = f w := proj1 blind.
Let blind_token : forall w, f (count_token_request w) = f w := proj1 (proj2 blind).
Let blind_ocr : forall endpoint w, f (log_ocr_request endpoint w) = f w :=
  proj2 (proj2 blind).

Lemma pv_get_access_token : preserves f BaiduOCRClient._get_access_token.
Proof. unfold BaiduOCRClient._get_access_token. preserve. Qed.

Lemma pv_ensure_token_valid : preserves f BaiduOCRClient._ensure_token_valid.
Proof.
  unfold BaiduOCRClient._ensure_token_valid.
  preserve; apply pv_get_access_token.
Qed.

Lemma pv_make_request (endpoint image_data : pystr) :
  preserves f (BaiduOCRClient._make_request endpoint image_data).
Proof.
  unfold BaiduOCRClient._make_request.
  apply pv_bind; [apply pv_ensure_token_valid | intros _]. preserve.
Qed.

Lemma pv_recognize (image_path ocr_type : pystr) :
  preserves f (BaiduOCRProcessor.recognize image_path ocr_type).
Proof.
  unfold BaiduOCRProcessor.recognize, BaiduOCRProcessor.on_client,
    BaiduOCRClient.table_ocr, BaiduOCRClient.handwriting_ocr,
    BaiduOCRClient.accurate_text_ocr, BaiduOCRClient.general_text_ocr.
  preserve; apply pv_make_request.
Qed.

End PreservationMethods.

(** ** Construction needs a token *)

Section CredentialExtras.

(** Each of the four classes can be constructed exactly when the token
    endpoint grants a token on the first request; the constructed object
    holds that token and starts with all counters at zero.  Otherwise the
    constructor raises. *)
Theorem constructors_need_a_token :
  forall (api_key secret_key : pystr) (w : World),
    (forall app_id,
       match BaiduOCRClient.__init__ api_key secret_key app_id w with
       | (Ret c, _) =>
           granted w <> None /\ BaiduOCRClient.access_token c = granted w
       | (Raise _, _) => granted w = None
       end)
    /\ match BaiduOCRProcessor.__init__ api_key secret_key w with
       | (Ret p, _) =>
           granted w <> None
           /\ BaiduOCRClient.access_token (BaiduOCRProcessor.client p) = granted w
           /\ BaiduOCRProcessor.processed_count p = 0
           /\ BaiduOCRProcessor.success_count p = 0
           /\ BaiduOCRProcessor.failed_count p = 0
       | (Raise _, _) => granted w = None
       end
    /\ match RetryFailedFiles.__init__ api_key secret_key w with
       | (Ret r, _) =>
           granted w <> None
           /\ BaiduOCRClient.access_token
                (BaiduOCRProcessor.client (RetryFailedFiles.processor r))
              = granted w
           /\ RetryFailedFiles.stats r = RetryFailedFiles.mk_stats 0 0 0
       | (Raise _, _) => granted w = None
       end
    /\ match BaiduOCRBatchProcessor.__init__ api_key secret_key w with
       | (Ret b, _) =>
           granted w <> None
           /\ BaiduOCRClient.access_token
                (BaiduOCRProcessor.client (BaiduOCRBatchProcessor.processor b))
              = granted w
           /\ BaiduOCRBatchProcessor.processed_count b = 0
           /\ BaiduOCRBatchProcessor.success_count b = 0
           /\ BaiduOCRBatchProcessor.failed_count b = 0
       | (Raise _, _) => granted w = None
       end.
Proof.
  intros api_key secret_key w.
  assert (C : forall app_id,
             match BaiduOCRClient.__init__ api_key secret_key app_id w with
             | (Ret c, _) =>
                 granted w <> None /\ BaiduOCRClient.access_token c = granted w
             | (Raise _, _) => granted w = None
             end).
  { intros app_id. unfold BaiduOCRClient.__init__.
    set (self := BaiduOCRClient.mk _ _ _ _ _ _).
    pose proof (get_access_token_outcome self w) as H.
    destruct (BaiduOCRClient._get_access_token self w) as [[[u|e] c'] w'];
      [exact H | exact (proj1 H)]. }
  split; [exact C|].
  specialize (C None).
  unfold BaiduOCRBatchProcessor.__init__, RetryFailedFiles.__init__,
    BaiduOCRProcessor.__init__.
  destruct (BaiduOCRClient.__init__ api_key secret_key None w) as [[c|e] w'];
    simpl; [|now repeat split].
  destruct C as [C1 C2]. repeat split; assumption.
Qed.

Lemma ensure_token_valid_cases :
  forall (c : BaiduOCRClient.t) (w : World),
    match BaiduOCRClient._ensure_token_valid c w with
    | (Ret _, c', _) => BaiduOCRClient.access_token c' <> None
    | (Raise _, c', _) => c' = c
    end.
Proof.
  intros c w. unfold BaiduOCRClient._ensure_token_valid, bind, get_self, time_time.
  destruct (BaiduOCRClient.token_missing c) eqn:Hm.
  - pose proof (get_access_token_outcome c w) as H.
    destruct (BaiduOCRClient._get_access_token c w) as [[[u|e] c'] w'].
    + destruct H as [H1 H2]. now rewrite H2.
    + exact (proj2 H).
  - assert (Hc : BaiduOCRClient.access_token c <> None).
    { unfold BaiduOCRClient.token_missing in Hm.
      destruct (BaiduOCRClient.access_token c); [discriminate | discriminate Hm]. }
    destruct (BaiduOCRClient.token_expires c <? clock w (clock_reads w)).
    + pose proof (get_access_token_outcome c (tick w)) as H.
      destruct (BaiduOCRClient._get_access_token c (tick w)) as [[[u|e] c'] w'].
      * destruct H as [H1 H2]. unfold granted in *. simpl in *. now rewrite H2.
      * exact (proj2 H).
    + exact Hc.
Qed.

Lemma ensure_token_valid_requests (c : BaiduOCRClient.t) (w : World) :
  ocr_requests (snd (BaiduOCRClient._ensure_token_valid c w)) = ocr_requests w.
Proof.
  unfold BaiduOCRClient._ensure_token_valid, bind, get_self, time_time.
  destruct (BaiduOCRClient.token_missing c).
  - apply get_access_token_requests.
  - destruct (BaiduOCRClient.token_expires c <? clock w (clock_reads w)).
    + apply (get_access_token_requests c (tick w)).
    + reflexivity.
Qed.

(** When [_ensure_token_valid] returns, the client holds a token; when it
    raises, the client is as it was before.  Either way no recognition
    request has been sent. *)
Theorem ensure_token_valid_outcome :
  forall (c : BaiduOCRClient.t) (w : World),
    match BaiduOCRClient._ensure_token_valid c w with
    | (Ret _, c', w') =>
        BaiduOCRClient.access_token c' <> None
        /\ ocr_requests w' = ocr_requests w
    | (Raise _, c', w') => c' = c /\ ocr_requests w' = ocr_requests w
    end.
Proof.
  intros c w.
  pose proof (ensure_token_valid_cases c w) as T.
  pose proof (ensure_token_valid_requests c w) as R.
  destruct (BaiduOCRClient._ensure_token_valid c w) as [[[u|e] c'] w'];
    simpl in R; now split.
Qed.

Lemma make_request_cases :
  forall (endpoint image_data : pystr) (c : BaiduOCRClient.t) (w : World),
    match BaiduOCRClient._make_request endpoint image_data c w with
    | (Ret j, c', w') =>
        error_code j = None
        /\ ocr_endpoint w (List.length (ocr_requests w)) = Json j
        /\ ocr_requests w' = ocr_requests w ++ [endpoint]
        /\ BaiduOCRClient.access_token c' <> None
    | (Raise _, c', w') =>
        (ocr_requests w' = ocr_requests w
         \/ (ocr_requests w' = ocr_requests w ++ [endpoint]
             /\ BaiduOCRClient.access_token c' <> None))
    end.
Proof.
  intros endpoint image_data c w.
  unfold BaiduOCRClient._make_request, bind.
  pose proof (ensure_token_valid_cases c w) as T.
  pose proof (ensure_token_valid_requests c w) as R.
  pose proof (ks_ensure_token_valid c w) as K.
  destruct (BaiduOCRClient._ensure_token_valid c w) as [[[u|e] c1] w1];
    simpl in R, K; [|now left].
  unfold try_except, post_ocr. rewrite K, R.
  destruct (ocr_endpoint w (List.length (ocr_requests w))) as [e|j]; simpl.
  - right. rewrite R. now split.
  - destruct (error_code j) eqn:E; simpl.
    + right. rewrite R. now split.
    + rewrite R. now repeat split.
Qed.

(** [_make_request] sends at most one recognition request, and none while
    the client is left without a token.  A result it returns is the reply
    of the service to that one request and carries no error code. *)
Theorem make_request_discipline :
  forall (endpoint image_data : pystr) (c : BaiduOCRClient.t) (w : World),
    exists out c' w',
      BaiduOCRClient._make_request endpoint image_data c w = (out, c', w')
      /\ (ocr_requests w' = ocr_requests w
          \/ ocr_requests w' = ocr_requests w ++ [endpoint])
      /\ (ocr_requests w' = ocr_requests w
          \/ BaiduOCRClient.access_token c' <> None)
      /\ match out with
         | Ret j =>
             error_code j = None
             /\ ocr_endpoint w (List.length (ocr_requests w)) = Json j
             /\ ocr_requests w' = ocr_requests w ++ [endpoint]
         | Raise _ => True
         end.
Proof.
  intros endpoint image_data c w.
  pose proof (make_request_cases endpoint image_data c w) as H.
  destruct (BaiduOCRClient._make_request endpoint image_data c w)
    as [[[j|e] c'] w'].
  - destruct H as (H1 & H2 & H3 & H4).
    exists (Ret j), c', w'. split; [reflexivity|].
    split; [now right|]. split; [now right|]. now repeat split.
  - exists (Raise e), c', w'. split; [reflexivity|].
    destruct H as [H|[H1 H2]].
    + split; [now left|]. split; [now left | exact I].
    + split; [now right|]. split; [now right | exact I].
Qed.

End CredentialExtras.

(** ** Artifacts written by [process_single_image] *)

Section ArtifactExtras.

Lemma files_blind : network_blind files.
Proof. repeat split. Qed.

Lemma writable_blind : network_blind writable.
Proof. repeat split. Qed.

Lemma sleeps_blind : network_blind sleeps.
Proof. repeat split. Qed.

Lemma clock_blind : network_blind clock.
Proof. repeat split. Qed.

Lemma strftime_blind : network_blind strftime.
Proof. repeat split. Qed.

Lemma upcoming_now (w : World) :
  upcoming w 0 = ocr_endpoint w (List.length (ocr_requests w)).
Proof. unfold upcoming. now rewrite Nat.add_0_r. Qed.

(** What a client call returns is the reply of the service to the next
    request, and it has no error code. *)
Lemma client_call_result (endpoint image_path : pystr)
  (p : BaiduOCRProcessor.t) (w : World) :
  match BaiduOCRProcessor.on_client
          (image_data <- read_file image_path ;;
           BaiduOCRClient._make_request endpoint image_data) p w with
  | (Ret j, _, _) => upcoming w 0 = Json j /\ error_code j = None
  | (Raise _, _, _) => True
  end.
Proof.
  unfold BaiduOCRProcessor.on_client, on_field, bind, read_file.
  destruct (files w image_path) as [data|]; [|exact I].
  pose proof (make_request_cases endpoint data (BaiduOCRProcessor.client p) w)
    as H.
  destruct (BaiduOCRClient._make_request endpoint data (BaiduOCRProcessor.client p) w)
    as [[[j|e] c'] w']; [|exact I].
  destruct H as (H1 & H2 & _). now rewrite upcoming_now.
Qed.

(** The text that [recognize] returns is the conversion of that reply. *)
Lemma recognize_result (image_path ocr_type : pystr)
  (p : BaiduOCRProcessor.t) (w : World) :
  match BaiduOCRProcessor.recognize image_path ocr_type p w with
  | (Ret content, _, _) =>
      exists j, upcoming w 0 = Json j /\ error_code j = None
                /\ content = conversion_of ocr_type j
  | (Raise _, _, _) => True
  end.
Proof.
  unfold BaiduOCRProcessor.recognize, conversion_of,
    BaiduOCRClient.table_ocr, BaiduOCRClient.handwriting_ocr,
    BaiduOCRClient.accurate_text_ocr, BaiduOCRClient.general_text_ocr.
  destruct (PyStr.eqb ocr_type (py "table"));
    [|destruct (PyStr.eqb ocr_type (py "handwriting"));
      [|destruct (PyStr.eqb ocr_type (py "accurate"))]];
    unfold bind at 1;
    match goal with
    | |- context [BaiduOCRProcessor.on_client
                    (image_data <- read_file image_path ;;
                     BaiduOCRClient._make_request ?ep image_data) p w] =>
        pose proof (client_call_result ep image_path p w) as H;
        destruct (BaiduOCRProcessor.on_client
                    (image_data <- read_file image_path ;;
                     BaiduOCRClient._make_request ep image_data) p w)
          as [[[j|e] p'] w']; [|exact I];
        destruct H as [H1 H2]; exists j; now repeat split
    end.
Qed.

Lemma process_single_image_files :
  forall (image_path output_path ocr_type : pystr) (p : BaiduOCRProcessor.t)
         (w : World),
    exists b p' w',
      BaiduOCRProcessor.process_single_image image_path output_path ocr_type p w
      = (Ret b, p', w')
      /\ if b
         then writable w output_path = true
              /\ exists j,
                   answered_with w ocr_type j
                   /\ encodable
                        (artifact_text w (Nat.pred (clock_reads w')) ocr_type j)
                      = true
                   /\ stored output_path
                        (artifact_text w (Nat.pred (clock_reads w')) ocr_type j)
                        w w'
         else files w' = files w
              \/ (writable w output_path = true
                  /\ stored output_path [] w w'
                  /\ exists j,
                       answered_with w ocr_type j
                       /\ encodable
                            (artifact_text w (Nat.pred (clock_reads w'))
                               ocr_type j)
                          = false).
Proof.
  intros image_path output_path ocr_type p w.
  pose proof (pv_recognize files files_blind image_path ocr_type p w) as F.
  pose proof (pv_recognize writable writable_blind image_path ocr_type p w) as W.
  pose proof (pv_recognize clock clock_blind image_path ocr_type p w) as C.
  pose proof (pv_recognize strftime strftime_blind image_path ocr_type p w) as T.
  pose proof (recognize_result image_path ocr_type p w) as R.
  unfold BaiduOCRProcessor.process_single_image, try_finally, try_except, bind.
  destruct (BaiduOCRProcessor.recognize image_path ocr_type p w)
    as [[[content|e] p1] w1]; cbn [snd] in F, W, C, T.
  - destruct R as (j & Hj & Hc & ->).
    rewrite truthy_strip.
    destruct (nonblank (conversion_of ocr_type j)) eqn:Hnb.
    + unfold now_strftime, write_file. cbn [writable tick].
      destruct (writable w1 output_path) eqn:Hw.
      * rewrite T, C.
        change (BaiduOCRProcessor.header
                  (py (strftime w (clock w (clock_reads w1)))) ocr_type
                ++ conversion_of ocr_type j)
          with (artifact_text w (clock_reads w1) ocr_type j).
        destruct (encodable (artifact_text w (clock_reads w1) ocr_type j)) eqn:He;
          cbv beta iota; unfold modify, ret; cbv beta iota;
          do 3 eexists; (split; [reflexivity|]);
          cbn [clock_reads store_file tick Nat.pred]; cbv beta iota.
        -- split; [now rewrite <- W|]. exists j.
           split; [now repeat split|]. split; [exact He|].
           unfold stored. cbn [files store_file tick]. now rewrite F.
        -- right. split; [now rewrite <- W|]. split.
           ++ unfold stored. cbn [files store_file tick]. now rewrite F.
           ++ exists j. split; [now repeat split | exact He].
      * cbv beta iota. unfold modify, ret. cbv beta iota.
        do 3 eexists. split; [reflexivity|]. left. exact F.
    + cbv beta iota. unfold modify, ret. cbv beta iota.
      do 3 eexists. split; [reflexivity|]. left. exact F.
  - cbv beta iota. unfold modify, ret. cbv beta iota.
    do 3 eexists. split; [reflexivity|]. left. exact F.
Qed.


(** [process_single_image] never sleeps. *)
Lemma process_single_image_sleeps (image_path output_path ocr_type : pystr) :
  preserves sleeps
    (BaiduOCRProcessor.process_single_image image_path output_path ocr_type).
Proof.
  unfold BaiduOCRProcessor.process_single_image.
  apply pv_try_finally; [|preserve].
  apply pv_try_except; [|intros ?; preserve].
  apply pv_bind; [apply pv_recognize, sleeps_blind | intros ?].
  preserve.
Qed.

End ArtifactExtras.

(** ** Recognition requests per image *)

Section RequestExtras.

Lemma ocr_requests_store (path content : pystr) (w : World) :
  ocr_requests (store_file path content w) = ocr_requests w.
Proof. reflexivity. Qed.

Lemma client_call_requests (endpoint image_path : pystr)
  (p : BaiduOCRProcessor.t) (w : World) :
  match BaiduOCRProcessor.on_client
          (image_data <- read_file image_path ;;
           BaiduOCRClient._make_request endpoint image_data) p w with
  | (Ret _, _, w') => ocr_requests w' = ocr_requests w ++ [endpoint]
  | (Raise _, _, w') =>
      ocr_requests w' = ocr_requests w
      \/ ocr_requests w' = ocr_requests w ++ [endpoint]
  end.
Proof.
  unfold BaiduOCRProcessor.on_client, on_field, bind, read_file.
  destruct (files w image_path) as [data|]; [|now left].
  pose proof (make_request_cases endpoint data (BaiduOCRProcessor.client p) w)
    as H.
  destruct (BaiduOCRClient._make_request endpoint data (BaiduOCRProcessor.client p) w)
    as [[[j|e] c'] w'].
  - now destruct H as (_ & _ & H & _).
  - destruct H as [H|[H _]]; [now left | now right].
Qed.

Lemma recognize_requests (image_path ocr_type : pystr)
  (p : BaiduOCRProcessor.t) (w : World) :
  match BaiduOCRProcessor.recognize image_path ocr_type p w with
  | (Ret _, _, w') => ocr_requests w' = ocr_requests w ++ [endpoint_of ocr_type]
  | (Raise _, _, w') =>
      ocr_requests w' = ocr_requests w
      \/ ocr_requests w' = ocr_requests w ++ [endpoint_of ocr_type]
  end.
Proof.
  unfold BaiduOCRProcessor.recognize, endpoint_of,
    BaiduOCRClient.table_ocr, BaiduOCRClient.handwriting_ocr,
    BaiduOCRClient.accurate_text_ocr, BaiduOCRClient.general_text_ocr.
  destruct (PyStr.eqb ocr_type (py "table"));
    [|destruct (PyStr.eqb ocr_type (py "handwriting"));
      [|destruct (PyStr.eqb ocr_type (py "accurate"))]];
    unfold bind at 1;
    match goal with
    | |- context [BaiduOCRProcessor.on_client
                    (image_data <- read_file image_path ;;
                     BaiduOCRClient._make_request ?ep image_data) p w] =>
        pose proof (client_call_requests ep image_path p w) as H;
        destruct (BaiduOCRProcessor.on_client
                    (image_data <- read_file image_path ;;
                     BaiduOCRClient._make_request ep image_data) p w)
          as [[[j|e] p'] w']; exact H
    end.
Qed.

Lemma process_single_image_request_cases :
  forall (image_path output_path ocr_type : pystr) (p : BaiduOCRProcessor.t)
         (w : World),
    exists b p' w',
      BaiduOCRProcessor.process_single_image image_path output_path ocr_type p w
      = (Ret b, p', w')
      /\ (ocr_requests w' = ocr_requests w ++ [endpoint_of ocr_type]
          \/ (b = false /\ ocr_requests w' = ocr_requests w)).
Proof.
  intros image_path output_path ocr_type p w.
  pose proof (recognize_requests image_path ocr_type p w) as R.
  unfold BaiduOCRProcessor.process_single_image, try_finally, try_except, bind.
  destruct (BaiduOCRProcessor.recognize image_path ocr_type p w)
    as [[[content|e] p1] w1].
  - destruct (truthy (strip content)).
    + unfold now_strftime, write_file.
      destruct (writable (tick w1) output_path); [destruct (encodable _)|];
        simpl; do 3 eexists; (split; [reflexivity|]); left; exact R.
    + simpl. do 3 eexists. split; [reflexivity|]. left. exact R.
  - simpl. do 3 eexists. split; [reflexivity|].
    destruct R as [R|R]; [right; now split | left; exact R].
Qed.

Lemma at_most_more_refl (l : list pystr) : at_most_more 0 l l.
Proof. exists []. now rewrite app_nil_r. Qed.

Lemma at_most_more_trans (n m : nat) (a b c : list pystr) :
  at_most_more n a b -> at_most_more m b c -> at_most_more (n + m) a c.
Proof.
  intros (s1 & -> & H1) (s2 & -> & H2). exists (s1 ++ s2).
  rewrite app_assoc, length_app. split; [reflexivity | lia].
Qed.

Lemma at_most_more_weaken (n m : nat) (a b : list pystr) :
  (n <= m)%nat -> at_most_more n a b -> at_most_more m a b.
Proof. intros H (s & -> & Hs). exists s. split; [reflexivity | lia]. Qed.

Lemma process_single_image_requests (image_path output_path ocr_type : pystr)
  (p : BaiduOCRProcessor.t) (w : World) :
  at_most_more 1 (ocr_requests w)
    (ocr_requests
       (snd (BaiduOCRProcessor.process_single_image image_path output_path
               ocr_type p w))).
Proof.
  destruct (process_single_image_request_cases image_path output_path ocr_type p w)
    as (b & p' & w' & E & [H|[_ H]]); rewrite E; simpl; rewrite H.
  - exists [endpoint_of ocr_type]. split; [reflexivity | simpl; lia].
  - apply at_most_more_weaken with 0%nat; [lia | apply at_most_more_refl].
Qed.


End RequestExtras.

(** ** Every run of the retry loop *)

Section RetryEveryRun.

Import RetryFailedFiles.

Variables image_file_arg output_file_arg : pystr.

(** One iteration of the loop, whatever the service does. *)
Lemma attempt_general (max_retries attempt : Z) (r : t) (w : World) :
  exists step r' w',
    try_except (attempt_body image_file_arg output_file_arg max_retries attempt)
               (attempt_handler image_file_arg output_file_arg max_retries attempt)
               r w
    = (Ret step, r', w')
    /\ BaiduOCRProcessor.processed_count (processor r')
       = BaiduOCRProcessor.processed_count (processor r) + 1
    /\ sleeps w' = sleeps w ++ (if 0 <? attempt then [2 ^ attempt] else [])
    /\ match step with
       | Continue => attempt < max_retries - 1 /\ stats r' = stats r
       | Return o =>
           retries o = attempt
           /\ image_file o = image_file_arg
           /\ output_file o = output_file_arg
           /\ if success o
              then error o = None
                   /\ stats r' = mk_stats (total_processed (stats r))
                                   (success_count (stats r) + 1)
                                   (failed_count (stats r))
              else max_retries - 1 <= attempt
                   /\ error o = Some MSG_PROCESSING_FAILED
                   /\ char_count o = 0 /\ word_count o = 0
                   /\ stats r' = mk_stats (total_processed (stats r))
                                   (success_count (stats r))
                                   (failed_count (stats r) + 1)
       end.
Proof.
  unfold try_except at 1. unfold attempt_body, bind, time_time, on_processor, on_field.
  set (w1 := snd ((if 0 <? attempt
                   then time_sleep (backoff_delay attempt)
                   else ret tt) r (tick w))).
  assert (E1 : (if 0 <? attempt then time_sleep (backoff_delay attempt) else ret tt)
                 r (tick w) = (Ret tt, r, w1)).
  { subst w1. destruct (0 <? attempt); reflexivity. }
  assert (S1 : sleeps w1 = sleeps w ++ (if 0 <? attempt then [2 ^ attempt] else [])).
  { subst w1. destruct (0 <? attempt); simpl; [reflexivity | now rewrite app_nil_r]. }
  rewrite E1.
  destruct (process_single_image_step image_file_arg output_file_arg (py "accurate")
              (processor r) w1) as (b & p' & w2 & E2 & Hp & _ & _).
  pose proof (process_single_image_sleeps image_file_arg output_file_arg
                (py "accurate") (processor r) w1) as S2.
  rewrite E2 in S2 |- *. simpl in S2.
  destruct b.
  - unfold try_except, read_text. cbn [files tick].
    destruct (files w2 output_file_arg) as [content|]; simpl;
      do 3 eexists; (split; [reflexivity|]); simpl;
      (split; [exact Hp|]); (split; [congruence|]); repeat split.
  - destruct (attempt <? max_retries - 1) eqn:Hlt; simpl.
    + do 3 eexists. split; [reflexivity|]. simpl.
      split; [exact Hp|]. split; [congruence|].
      apply Z.ltb_lt in Hlt. now split.
    + do 3 eexists. split; [reflexivity|]. simpl.
      split; [exact Hp|]. split; [congruence|].
      apply Z.ltb_ge in Hlt. repeat split. exact Hlt.
Qed.

(** What a run that ends with the outcome [o] has done, started at the
    attempt with index [a]. *)
Lemma retry_loop_general (max_retries : Z) (remaining : nat) :
  forall (a : nat) (r : t) (w : World),
    (1 <= a)%nat ->
    Z.of_nat a + Z.of_nat (S remaining) = max_retries ->
    exists o r' w',
      retry_loop (S remaining) image_file_arg output_file_arg max_retries
        (Z.of_nat a) r w
      = (Ret (Some o), r', w')
      /\ Z.of_nat a <= retries o < max_retries
      /\ image_file o = image_file_arg
      /\ output_file o = output_file_arg
      /\ BaiduOCRProcessor.processed_count (processor r')
         = BaiduOCRProcessor.processed_count (processor r)
           + (retries o - Z.of_nat a + 1)
      /\ sleeps w'
         = sleeps w ++ List.map (fun k => 2 ^ Z.of_nat k)
                         (seq a (Z.to_nat (retries o) + 1 - a))
      /\ if success o
         then error o = None
              /\ stats r' = mk_stats (total_processed (stats r))
                              (success_count (stats r) + 1)
                              (failed_count (stats r))
         else retries o = max_retries - 1
              /\ error o = Some MSG_PROCESSING_FAILED
              /\ char_count o = 0 /\ word_count o = 0
              /\ stats r' = mk_stats (total_processed (stats r))
                              (success_count (stats r))
                              (failed_count (stats r) + 1).
Proof.
  induction remaining as [|n IH]; intros a r w Ha Hn.
  - destruct (attempt_general max_retries (Z.of_nat a) r w)
      as (step & r' & w' & E & Hp & Hs & Hstep).
    rewrite retry_loop_unfold, E.
    destruct step as [|o]; [lia|].
    destruct Hstep as (Hr & Hi & Ho & Hres).
    exists o, r', w'. split; [reflexivity|].
    split; [lia|]. split; [exact Hi|]. split; [exact Ho|].
    split; [lia|]. split.
    + rewrite Hs, Hr, Nat2Z.id.
      replace (0 <? Z.of_nat a) with true by (symmetry; apply Z.ltb_lt; lia).
      replace (a + 1 - a)%nat with 1%nat by lia. reflexivity.
    + destruct (success o); [exact Hres|].
      destruct Hres as (H1 & H2 & H3 & H4 & H5). repeat split; try assumption. lia.
  - destruct (attempt_general max_retries (Z.of_nat a) r w)
      as (step & r1 & w1 & E & Hp & Hs & Hstep).
    rewrite retry_loop_unfold, E.
    replace (0 <? Z.of_nat a) with true in Hs by (symmetry; apply Z.ltb_lt; lia).
    destruct step as [|o].
    + destruct Hstep as [_ Hst].
      replace (Z.of_nat a + 1) with (Z.of_nat (S a)) by lia.
      destruct (IH (S a) r1 w1 ltac:(lia) ltac:(lia))
        as (o & r' & w' & E' & Hr & Hi & Ho & Hp' & Hs' & Hres).
      exists o, r', w'. split; [exact E'|].
      split; [lia|]. split; [exact Hi|]. split; [exact Ho|].
      split; [lia|]. split.
      * rewrite Hs', Hs, <- app_assoc. f_equal.
        replace (Z.to_nat (retries o) + 1 - a)%nat
          with (S (Z.to_nat (retries o) + 1 - S a)) by lia.
        reflexivity.
      * rewrite Hst in Hres. exact Hres.
    + destruct Hstep as (Hr & Hi & Ho & Hres).
      exists o, r1, w1. split; [reflexivity|].
      split; [lia|]. split; [exact Hi|]. split; [exact Ho|].
      split; [lia|]. split.
      * rewrite Hs, Hr, Nat2Z.id.
        replace (a + 1 - a)%nat with 1%nat by lia. reflexivity.
      * destruct (success o); [exact Hres|].
        destruct Hres as (H1 & H2 & H3 & H4 & H5). exfalso. lia.
Qed.

End RetryEveryRun.

Section RetryExtras.

Import RetryFailedFiles.

Lemma total_delay_app (a b : list Z) :
  total_delay (a ++ b) = total_delay a + total_delay b.
Proof.
  unfold total_delay. induction a as [|x a IH]; simpl; [reflexivity|].
  rewrite IH. lia.
Qed.

(** The delays before the attempts 1 .. n add up to [2^(n+1) - 2]. *)
Lemma total_backoff (n : nat) :
  total_delay (backoff_schedule n) = 2 ^ (Z.of_nat n + 1) - 2.
Proof.
  unfold backoff_schedule. induction n as [|n IH]; [reflexivity|].
  rewrite seq_S, map_app, total_delay_app, IH. cbn [List.map total_delay fold_right].
  replace (Z.of_nat (S n) + 1) with (Z.of_nat (1 + n) + 1) by lia.
  replace (Z.of_nat (1 + n)) with (Z.of_nat n + 1) by lia.
  rewrite (Z.pow_add_r 2 (Z.of_nat n + 1) 1) by lia. lia.
Qed.

(** A run with at least one attempt allowed, from the first attempt on. *)
Lemma process_with_retry_general (image_file_arg output_file_arg : pystr)
  (max_retries : Z) (r : t) (w : World) :
  0 < max_retries ->
  exists o r' w',
    process_with_retry image_file_arg output_file_arg max_retries r w
    = (Ret (Some o), r', w')
    /\ 0 <= retries o < max_retries
    /\ image_file o = image_file_arg
    /\ output_file o = output_file_arg
    /\ BaiduOCRProcessor.processed_count (processor r')
       = BaiduOCRProcessor.processed_count (processor r) + retries o + 1
    /\ sleeps w' = sleeps w ++ backoff_schedule (Z.to_nat (retries o))
    /\ if success o
       then error o = None
            /\ stats r' = mk_stats (total_processed (stats r))
                            (success_count (stats r) + 1)
                            (failed_count (stats r))
       else retries o = max_retries - 1
            /\ error o = Some MSG_PROCESSING_FAILED
            /\ char_count o = 0 /\ word_count o = 0
            /\ stats r' = mk_stats (total_processed (stats r))
                            (success_count (stats r))
                            (failed_count (stats r) + 1).
Proof.
  intros Hmax. unfold process_with_retry.
  destruct (Z.to_nat max_retries) as [|n] eqn:En; [lia|].
  destruct (attempt_general image_file_arg output_file_arg max_retries 0 r w)
    as (step & r1 & w1 & E & Hp & Hs & Hstep).
  rewrite retry_loop_unfold, E. cbn [Z.ltb Z.compare] in Hs. rewrite app_nil_r in Hs.
  destruct step as [|o].
  - destruct Hstep as [Hlt Hst].
    destruct n as [|n]; [lia|].
    destruct (retry_loop_general image_file_arg output_file_arg max_retries n 1
                r1 w1 ltac:(lia) ltac:(lia))
      as (o & r' & w' & E' & Hr & Hi & Ho & Hp' & Hs' & Hres).
    exists o, r', w'. split; [exact E'|].
    split; [lia|]. split; [exact Hi|]. split; [exact Ho|].
    split; [lia|]. split.
    + rewrite Hs', Hs. unfold backoff_schedule.
      replace (Z.to_nat (retries o) + 1 - 1)%nat with (Z.to_nat (retries o)) by lia.
      reflexivity.
    + rewrite Hst in Hres. exact Hres.
  - destruct Hstep as (Hr & Hi & Ho & Hres).
    exists o, r1, w1. split; [reflexivity|].
    split; [lia|]. split; [exact Hi|]. split; [exact Ho|].
    split; [lia|]. split.
    + rewrite Hs, Hr. simpl. now rewrite app_nil_r.
    + destruct (success o); [exact Hres|].
      destruct Hres as (H1 & H2 & H3 & H4 & H5). repeat split; try assumption. lia.
Qed.




(** The effort of a run of [process_with_retry] that ends with an outcome:
    [process_single_image] was called [retries + 1] times, and the run slept
    exactly before the attempts 1 .. [retries], [2^k] seconds before attempt
    [k], which is [2^(retries+1) - 2] seconds in all. *)
Theorem process_with_retry_effort :
  forall (image_file_arg output_file_arg : pystr) (max_retries : Z) (r : t)
         (w : World),
    match process_with_retry image_file_arg output_file_arg max_retries r w with
    | (Ret (Some o), r', w') =>
        BaiduOCRProcessor.processed_count (processor r')
        = BaiduOCRProcessor.processed_count (processor r) + retries o + 1
        /\ sleeps w' = sleeps w ++ backoff_schedule (Z.to_nat (retries o))
        /\ total_delay (backoff_schedule (Z.to_nat (retries o)))
           = 2 ^ (retries o + 1) - 2
    | (Ret None, r', w') => sleeps w' = sleeps w /\ processor r' = processor r
    | (Raise _, _, _) => False
    end.
Proof.
  intros image_file_arg output_file_arg max_retries r w.
  destruct (Z_lt_le_dec 0 max_retries) as [Hpos|Hneg].
  - destruct (process_with_retry_general image_file_arg output_file_arg
                max_retries r w Hpos)
      as (o & r' & w' & E & Hr & _ & _ & Hp & Hs & _).
    rewrite E. split; [exact Hp|]. split; [exact Hs|].
    rewrite total_backoff, Z2Nat.id by lia. reflexivity.
  - unfold process_with_retry.
    replace (Z.to_nat max_retries) with 0%nat by lia.
    simpl. now split.
Qed.

End RetryExtras.

(** ** Recognition requests of a retry run *)

Section RetryRequests.

Import RetryFailedFiles.

Lemma attempt_requests (image_file_arg output_file_arg : pystr)
  (max_retries attempt : Z) (r : t) (w : World) :
  at_most_more 1 (ocr_requests w)
    (ocr_requests
       (snd (try_except
               (attempt_body image_file_arg output_file_arg max_retries attempt)
               (attempt_handler image_file_arg output_file_arg max_retries attempt)
               r w))).
Proof.
  unfold try_except at 1. unfold attempt_body, bind, time_time, on_processor, on_field.
  set (w1 := snd ((if 0 <? attempt
                   then time_sleep (backoff_delay attempt)
                   else ret tt) r (tick w))).
  assert (E1 : (if 0 <? attempt then time_sleep (backoff_delay attempt) else ret tt)
                 r (tick w) = (Ret tt, r, w1)).
  { subst w1. destruct (0 <? attempt); reflexivity. }
  assert (R1 : ocr_requests w1 = ocr_requests w).
  { subst w1. destruct (0 <? attempt); reflexivity. }
  rewrite E1.
  pose proof (process_single_image_requests image_file_arg output_file_arg
                (py "accurate") (processor r) w1) as R2.
  destruct (process_single_image_step image_file_arg output_file_arg (py "accurate")
              (processor r) w1) as (b & p' & w2 & E2 & _).
  rewrite E2 in R2 |- *. simpl in R2. rewrite R1 in R2.
  destruct b.
  - unfold try_except, read_text. cbn [files tick].
    destruct (files w2 output_file_arg); exact R2.
  - destruct (attempt <? max_retries - 1); exact R2.
Qed.

Lemma retry_loop_requests (image_file_arg output_file_arg : pystr)
  (max_retries : Z) (remaining : nat) :
  forall (attempt : Z) (r : t) (w : World),
    let out := retry_loop remaining image_file_arg output_file_arg max_retries
                 attempt r w in
    exists sent,
      ocr_requests (snd out) = ocr_requests w ++ sent
      /\ Z.of_nat (List.length sent)
         <= BaiduOCRProcessor.processed_count (processor (snd (fst out)))
            - BaiduOCRProcessor.processed_count (processor r).
Proof.
  induction remaining as [|n IH]; intros attempt r w out; subst out.
  - exists []. cbn. rewrite app_nil_r. split; [reflexivity | lia].
  - rewrite retry_loop_unfold.
    pose proof (attempt_requests image_file_arg output_file_arg max_retries
                  attempt r w) as (s1 & R1 & L1).
    destruct (attempt_general image_file_arg output_file_arg max_retries attempt r w)
      as (step & r1 & w1 & E & Hp & _).
    rewrite E in R1 |- *. simpl in R1.
    destruct step as [|o].
    + destruct (IH (attempt + 1) r1 w1) as (s2 & R2 & L2).
      exists (s1 ++ s2). rewrite R2, R1, app_assoc, length_app.
      split; [reflexivity | lia].
    + exists s1. cbn. split; [exact R1 | lia].
Qed.

(** A run of [process_with_retry] sends at most one recognition request
    per attempt: at most [retries + 1] requests, which is at most
    [max_retries]. *)
Theorem process_with_retry_requests :
  forall (image_file_arg output_file_arg : pystr) (max_retries : Z) (r : t)
         (w : World),
    match process_with_retry image_file_arg output_file_arg max_retries r w with
    | (Ret (Some o), _, w') =>
        at_most_more (Z.to_nat (retries o + 1)) (ocr_requests w) (ocr_requests w')
        /\ retries o + 1 <= max_retries
    | (Ret None, _, w') => ocr_requests w' = ocr_requests w
    | (Raise _, _, _) => False
    end.
Proof.
  intros image_file_arg output_file_arg max_retries r w.
  pose proof (retry_loop_requests image_file_arg output_file_arg max_retries
                (Z.to_nat max_retries) 0 r w) as (sent & R & L).
  unfold process_with_retry.
  destruct (Z_lt_le_dec 0 max_retries) as [Hpos|Hneg].
  - destruct (process_with_retry_general image_file_arg output_file_arg
                max_retries r w Hpos)
      as (o & r' & w' & E & Hr & _ & _ & Hp & _).
    unfold process_with_retry in E. rewrite E in R, L |- *. simpl in R, L.
    split; [|lia]. exists sent. split; [exact R | lia].
  - replace (Z.to_nat max_retries) with 0%nat by lia. reflexivity.
Qed.

End RetryRequests.

(** ** Sorting and discovery of image files *)

Section SortingFacts.

Lemma leb_refl (a : pystr) : PyStr.leb a a = true.
Proof.
  induction a as [|x a IH]; [reflexivity|].
  simpl. now rewrite N.ltb_irrefl, N.eqb_refl.
Qed.

Lemma leb_total (a b : pystr) : PyStr.leb a b = true \/ PyStr.leb b a = true.
Proof.
  revert b. induction a as [|x a IH]; intros [|y b]; simpl; auto.
  destruct (N.ltb_spec x y) as [Hxy|Hxy]; [now left|].
  destruct (N.ltb_spec y x) as [Hyx|Hyx]; [now right|].
  assert (x = y) by lia. subst y. rewrite N.eqb_refl. apply IH.
Qed.

Lemma leb_antisym (a b : pystr) :
  PyStr.leb a b = true -> PyStr.leb b a = true -> a = b.
Proof.
  revert b. induction a as [|x a IH]; intros [|y b]; simpl; try discriminate;
    [reflexivity|].
  destruct (N.ltb_spec x y) as [Hxy|Hxy].
  - destruct (N.ltb_spec y x) as [Hyx|Hyx]; [lia|].
    destruct (N.eqb_spec y x); [lia | discriminate].
  - destruct (N.eqb_spec x y) as [->|Hne]; [|discriminate].
    rewrite N.ltb_irrefl, N.eqb_refl. intros H1 H2. f_equal. now apply IH.
Qed.

Lemma leb_trans (a b c : pystr) :
  PyStr.leb a b = true -> PyStr.leb b c = true -> PyStr.leb a c = true.
Proof.
  revert b c. induction a as [|x a IH]; intros [|y b] [|z c]; simpl;
    try discriminate; try reflexivity.
  destruct (N.ltb_spec x y) as [Hxy|Hxy].
  - intros _. destruct (N.ltb_spec y z) as [Hyz|Hyz].
    + intros _. destruct (N.ltb_spec x z); [reflexivity | lia].
    + destruct (N.eqb_spec y z) as [->|]; [|discriminate].
      intros _. destruct (N.ltb_spec x z); [reflexivity | lia].
  - destruct (N.eqb_spec x y) as [->|]; [|discriminate].
    intros H1. destruct (N.ltb_spec y z) as [Hyz|Hyz]; [reflexivity|].
    destruct (N.eqb_spec y z) as [->|]; [|discriminate].
    intros H2. now apply (IH b c).
Qed.

Lemma insert_sorted_perm (x : pystr) (l : list pystr) :
  Permutation (insert_sorted x l) (x :: l).
Proof.
  induction l as [|y l IH]; [reflexivity|].
  simpl. destruct (PyStr.leb x y); [reflexivity|].
  rewrite IH. apply perm_swap.
Qed.

Lemma sorted_perm (l : list pystr) : Permutation (sorted l) l.
Proof.
  induction l as [|x l IH]; [reflexivity|].
  simpl. rewrite insert_sorted_perm. now constructor.
Qed.

Lemma insert_sorted_ordered (x : pystr) (l : list pystr) :
  StronglySorted le l -> StronglySorted le (insert_sorted x l).
Proof.
  induction 1 as [|y l Hl IH Hy]; simpl.
  - repeat constructor.
  - destruct (PyStr.leb x y) eqn:E.
    + constructor; [now constructor|].
      constructor; [exact E|].
      apply Forall_forall. intros z Hz.
      rewrite Forall_forall in Hy. apply (leb_trans x y z E), Hy, Hz.
    + constructor; [exact IH|].
      apply Forall_forall. intros z Hz.
      apply (Permutation_in _ (insert_sorted_perm x l)) in Hz.
      destruct Hz as [<-|Hz].
      * destruct (leb_total x y) as [H|H]; [congruence | exact H].
      * rewrite Forall_forall in Hy. now apply Hy.
Qed.

Lemma sorted_ordered (l : list pystr) : StronglySorted le (sorted l).
Proof.
  induction l as [|x l IH]; [constructor|].
  simpl. now apply insert_sorted_ordered.
Qed.

(** Two ordered lists with the same elements are the same list. *)
Lemma ordered_perm_unique (l l' : list pystr) :
  StronglySorted le l -> StronglySorted le l' -> Permutation l l' -> l = l'.
Proof.
  intros Hl. revert l'. induction Hl as [|x l Hl IH Hx]; intros l' Hl' P.
  - now apply Permutation_nil in P.
  - destruct Hl' as [|y l' Hl' Hy].
    + symmetry in P. now apply Permutation_nil in P.
    + assert (x = y).
      { assert (Ix : In x (y :: l')) by (apply (Permutation_in _ P); now left).
        assert (Iy : In y (x :: l))
          by (apply (Permutation_in _ (Permutation_sym P)); now left).
        rewrite Forall_forall in Hx, Hy.
        destruct Ix as [->|Ix]; [reflexivity|].
        destruct Iy as [->|Iy]; [reflexivity|].
        apply leb_antisym; [apply Hx, Iy | apply Hy, Ix]. }
      subst y. f_equal. apply IH; [exact Hl'|].
      now apply Permutation_cons_inv in P.
Qed.

Lemma sorted_of_perm (l l' : list pystr) :
  Permutation l l' -> sorted l = sorted l'.
Proof.
  intros P. apply ordered_perm_unique; try apply sorted_ordered.
  rewrite !sorted_perm. exact P.
Qed.

End SortingFacts.

Section DiscoveryFacts.

Import BaiduOCRBatchProcessor.

Lemma permutation_filter {A} (f : A -> bool) (l l' : list A) :
  Permutation l l' -> Permutation (filter f l) (filter f l').
Proof.
  induction 1 as [|x l l' P IH|x y l|l l' l'' P1 IH1 P2 IH2]; simpl.
  - constructor.
  - destruct (f x); [now constructor | exact IH].
  - destruct (f x), (f y); try reflexivity. apply perm_swap.
  - now transitivity (filter f l').
Qed.

Lemma nodup_map_injective {A B} (g : A -> B) (l : list A) :
  (forall x y, g x = g y -> x = y) -> NoDup l -> NoDup (List.map g l).
Proof.
  intros Hg. induction 1 as [|x l Hx Hl IH]; simpl; constructor; [|exact IH].
  rewrite in_map_iff. intros (y & Hy & Iy). apply Hg in Hy. now subst y.
Qed.

(** The collected names are the entries matched by the suffixes, suffix by
    suffix. *)
Lemma globbed_by_suffix (w : World) (directory : pystr) :
  globbed w directory
  = flat_map (fun p => filter (fun n => endswith n p) (scandir w directory))
      suffixes.
Proof.
  unfold globbed, suffixes, PathLib.glob_suffix, IMAGE_EXTENSIONS.
  cbn [flat_map app]. now rewrite <- !app_assoc, !app_nil_r.
Qed.

Lemma in_globbed (w : World) (directory n : pystr) :
  In n (globbed w directory)
  <-> In n (scandir w directory) /\ image_name n = true.
Proof.
  unfold globbed, image_name, PathLib.glob_suffix.
  rewrite in_flat_map, existsb_exists. split.
  - intros (ext & Hext & Hn). apply in_app_or in Hn.
    destruct Hn as [Hn|Hn]; apply filter_In in Hn; destruct Hn as [Hn Hm];
      (split; [exact Hn|]); exists ext; (split; [exact Hext|]);
      rewrite Hm; [reflexivity | apply orb_true_r].
  - intros (Hn & ext & Hext & Hm). exists ext. split; [exact Hext|].
    apply in_or_app. apply orb_true_iff in Hm.
    destruct Hm as [Hm|Hm]; [left | right]; now apply filter_In.
Qed.

(** Two texts that both start a third: one of them starts the other. *)
Lemma startswith_comparable (m p q : pystr) :
  startswith m p = true -> startswith m q = true ->
  startswith p q = true \/ startswith q p = true.
Proof.
  revert p q. induction m as [|c m IH]; intros [|a p] [|b q]; simpl;
    try discriminate; auto.
  intros H1 H2. apply andb_true_iff in H1, H2.
  destruct H1 as [H1 Hp], H2 as [H2 Hq].
  apply N.eqb_eq in H1, H2. subst a b.
  rewrite N.eqb_refl. simpl. now apply IH.
Qed.

Lemma unrelated_exclusive (n p q : pystr) :
  unrelated p q = true -> endswith n p = true -> endswith n q = true -> False.
Proof.
  unfold unrelated, endswith. rewrite andb_true_iff, !negb_true_iff.
  intros [H1 H2] Hp Hq.
  destruct (startswith_comparable _ _ _ Hp Hq); congruence.
Qed.

Lemma nodup_by_suffix (l : list pystr) (ps : list pystr) :
  NoDup l -> pairwise_unrelated ps = true ->
  NoDup (flat_map (fun p => filter (fun n => endswith n p) l) ps).
Proof.
  intros Hl. induction ps as [|p ps IH]; intros Hps; simpl; [constructor|].
  simpl in Hps. apply andb_true_iff in Hps. destruct Hps as [Hp Hps].
  apply NoDup_app; [now apply NoDup_filter | now apply IH|].
  intros n Hn Hn'. apply filter_In in Hn. destruct Hn as [_ Hnp].
  apply in_flat_map in Hn'. destruct Hn' as (q & Hq & Hn').
  apply filter_In in Hn'. destruct Hn' as [_ Hnq].
  rewrite forallb_forall in Hp.
  exact (unrelated_exclusive n p q (Hp q Hq) Hnp Hnq).
Qed.

Lemma child_injective (d x y : pystr) :
  PathLib.child d x = PathLib.child d y -> x = y.
Proof. rewrite !child_prefix. apply app_inv_head. Qed.

(** [get_image_files] only reads the directory.  Its result lists, in
    ascending order of the names, the entry names that end with one of the
    five extensions written all in lower case or all in upper case, each
    after the prefix that [pathlib] makes of the directory string: for a
    directory string in normal form that is the string and a slash, while
    "in/" gives "in/" and "." gives no prefix at all. *)
Theorem get_image_files_sorted_matches :
  forall (directory : pystr) (self : t) (w : World),
    (exists names,
       get_image_files directory self w
       = (Ret (List.map (fun n => dir_prefix directory ++ n) names), self, w)
       /\ StronglySorted le names
       /\ forall n, In n names
                    <-> In n (scandir w directory) /\ image_name n = true)
    /\ (plain directory -> dir_prefix directory = directory ++ py "/")
    /\ dir_prefix (py "in/") = py "in/"
    /\ dir_prefix (py ".") = [].
Proof.
  intros directory self w. split; [|split; [apply dir_prefix_plain | now split]].
  exists (sorted (globbed w directory)).
  split; [|split; [apply sorted_ordered|]].
  - unfold get_image_files. do 2 f_equal. f_equal.
    apply map_ext. intros n. apply child_prefix.
  - intros n. rewrite <- in_globbed. split; intros H.
    + exact (Permutation_in _ (sorted_perm _) H).
    + exact (Permutation_in _ (Permutation_sym (sorted_perm _)) H).
Qed.

(** The directory "in" with the entries b.png, notes.txt and A.JPG. *)
Lemma get_image_files_sorted_matches_witness :
  get_image_files (py "in") Worlds.batch_ready
    (Worlds.sample (fun _ => Json (text_result []))
       [py "b.png"; py "notes.txt"; py "A.JPG"])
  = (Ret [py "in/A.JPG"; py "in/b.png"], Worlds.batch_ready,
     Worlds.sample (fun _ => Json (text_result []))
       [py "b.png"; py "notes.txt"; py "A.JPG"])
  /\ dir_prefix (py "in") = py "in/".
Proof.
  split; [reflexivity|].
  apply (proj1 (proj2 (get_image_files_sorted_matches (py "in")
                         Worlds.batch_ready Worlds.always_empty))).
  exists [], [py "in"]. split; [now left|]. split; [discriminate|].
  split; [repeat constructor | reflexivity].
Defined.

(** A directory whose entries are pairwise distinct yields every image
    file once: no name is matched by two of the ten patterns. *)
Theorem get_image_files_no_duplicates :
  forall (directory : pystr) (self : t) (w : World),
    NoDup (scandir w directory) ->
    get_image_files directory self w = (Ret (discovered w directory), self, w)
    /\ NoDup (discovered w directory).
Proof.
  intros directory self w H. split; [reflexivity|].
  unfold discovered. apply nodup_map_injective.
  - apply child_injective.
  - apply (Permutation_NoDup (Permutation_sym (sorted_perm _))).
    rewrite globbed_by_suffix.
    apply nodup_by_suffix; [exact H | vm_compute; reflexivity].
Qed.

(** On a directory holding A.JPG, b.png and notes.txt, the two pictures
    are found once each. *)
Lemma get_image_files_no_duplicates_witness :
  NoDup (discovered
           (Worlds.sample (fun _ => Json (text_result []))
              [py "b.png"; py "notes.txt"; py "A.JPG"])
           (py "in")).
Proof.
  apply (get_image_files_no_duplicates (py "in") Worlds.batch_ready).
  simpl. repeat constructor; simpl; intuition discriminate.
Defined.

(** The result of [get_image_files] does not depend on the order in which
    the directory lists its entries. *)
Theorem get_image_files_order_independent :
  forall (directory : pystr) (w w' : World),
    Permutation (scandir w directory) (scandir w' directory) ->
    discovered w directory = discovered w' directory.
Proof.
  intros directory w w' P. unfold discovered. f_equal.
  apply sorted_of_perm. rewrite !globbed_by_suffix.
  induction suffixes as [|p ps IH]; simpl; [reflexivity|].
  apply Permutation_app; [now apply permutation_filter | exact IH].
Qed.

(** Two listings of the same three entries give the same files. *)
Lemma get_image_files_order_independent_witness :
  discovered
    (Worlds.sample (fun _ => Json (text_result []))
       [py "b.png"; py "notes.txt"; py "A.JPG"]) (py "in")
  = discovered
      (Worlds.sample (fun _ => Json (text_result []))
         [py "A.JPG"; py "b.png"; py "notes.txt"]) (py "in").
Proof.
  apply get_image_files_order_independent. simpl.
  apply Permutation_sym, (Permutation_cons_app [py "b.png"; py "notes.txt"] []).
  reflexivity.
Defined.

End DiscoveryFacts.

(** ** The batch processor *)

Section BatchRuns.

Import BaiduOCRBatchProcessor.

Lemma run_equal {A B C : Type} (x : A * B * C) (a a' : A) (b b' : B) (c c' : C) :
  x = (a, b, c) -> x = (a', b', c') -> a = a' /\ b = b' /\ c = c'.
Proof. intros -> E. inversion E. auto. Qed.

(** Reading in text mode never lengthens a text. *)
Lemma universal_newlines_length (s : pystr) :
  (List.length (universal_newlines s) <= List.length s)%nat.
Proof.
  assert (H : forall n s, (List.length s <= n)%nat ->
                          (List.length (universal_newlines s) <= List.length s)%nat).
  { induction n as [|n IH]; intros [|c t] Hl; simpl in *; try lia.
    destruct (N.eqb c 13).
    - destruct t as [|d t']; [simpl; lia|].
      destruct (N.eqb d 10).
      + specialize (IH t' ltac:(simpl in Hl; lia)). simpl. lia.
      + specialize (IH (d :: t') ltac:(simpl in *; lia)). simpl in *. lia.
    - specialize (IH t ltac:(lia)). simpl. lia. }
  apply (H (List.length s)). lia.
Qed.

Lemma process_single_image_safe_cases :
  forall (image_file_arg output_file_arg : pystr) (self : t) (w : World),
    exists res self' w',
      process_single_image_safe image_file_arg output_file_arg self w
      = (Ret res, self', w')
      /\ image_file res = image_file_arg
      /\ output_file res = output_file_arg
      /\ processed_count self' = processed_count self
      /\ BaiduOCRProcessor.processed_count (processor self')
         = BaiduOCRProcessor.processed_count (processor self) + 1
      /\ if success res
         then error res = None
              /\ success_count self' = success_count self + 1
              /\ failed_count self' = failed_count self
              /\ exists j text,
                   answered_with w (py "accurate") j
                   /\ text = artifact_text w (Nat.pred (Nat.pred (clock_reads w')))
                               (py "accurate") j
                   /\ encodable text = true
                   /\ stored output_file_arg text w w'
                   /\ char_count res
                      = Z.of_nat (List.length (universal_newlines text))
                   /\ word_count res
                      = Z.of_nat (List.length (split (universal_newlines text)))
         else error res = Some MSG_PROCESSING_FAILED
              /\ char_count res = 0 /\ word_count res = 0
              /\ success_count self' = success_count self
              /\ failed_count self' = failed_count self + 1
              /\ (files w' = files w
                  \/ (writable w output_file_arg = true
                      /\ stored output_file_arg [] w w')).
Proof.
  intros image_file_arg output_file_arg self w.
  unfold process_single_image_safe, try_except at 1.
  unfold bind, time_time, on_processor, on_field.
  destruct (process_single_image_step image_file_arg output_file_arg
              (py "accurate") (processor self) (tick w))
    as (b & p' & w2 & E2 & Hp & _ & _).
  destruct (process_single_image_files image_file_arg output_file_arg
              (py "accurate") (processor self) (tick w))
    as (b0 & p0 & w0 & E0 & Hart).
  destruct (run_equal _ _ _ _ _ _ _ E2 E0) as (Hb & _ & Hw0).
  inversion Hb; subst b0 w0. clear Hb E0 p0.
  rewrite E2. destruct b.
  - destruct Hart as (_ & j & Hans & Henc & Hfiles).
    set (text := artifact_text w (Nat.pred (clock_reads w2)) (py "accurate") j).
    assert (Hout : files w2 output_file_arg = Some text).
    { unfold stored in Hfiles. rewrite Hfiles. cbn [files store_file].
      now rewrite pystr_eqb_refl. }
    unfold try_except, read_text. cbn [files tick]. rewrite Hout.
    cbv beta iota.
    do 3 eexists. split; [reflexivity|].
    cbn [image_file output_file success error char_count word_count fst snd
         processed_count success_count failed_count processor incr_success
         set_processor clock_reads tick Nat.pred].
    split; [reflexivity|]. split; [reflexivity|]. split; [reflexivity|].
    split; [exact Hp|]. split; [reflexivity|]. split; [reflexivity|].
    split; [reflexivity|].
    exists j, text. split; [exact Hans|]. split; [reflexivity|].
    split; [exact Henc|]. split; [exact Hfiles|]. split; reflexivity.
  - cbv beta iota.
    do 3 eexists. split; [reflexivity|].
    cbn [image_file output_file success error char_count word_count fst snd
         processed_count success_count failed_count processor incr_failed
         set_processor files modify tick].
    split; [reflexivity|]. split; [reflexivity|]. split; [reflexivity|].
    split; [exact Hp|]. repeat (split; [reflexivity|]).
    destruct Hart as [Hart|(Hw & Hst & _)]; [left; exact Hart | right].
    split; [exact Hw | exact Hst].
Qed.

End BatchRuns.

Section BatchStatistics.

Import BaiduOCRBatchProcessor.

Lemma tally_total (rs : list result) :
  successes rs + failures rs = Z.of_nat (List.length rs).
Proof.
  unfold successes, failures. induction rs as [|r rs IH]; [reflexivity|].
  simpl. destruct (success r); simpl List.length; lia.
Qed.

(** The worker loop never raises; it returns one result per task, in the
    order of the tasks, and tallies them. *)
Lemma run_tasks_outcome (tasks : list (pystr * pystr)) :
  forall (self : t) (w : World),
    exists results self' w',
      run_tasks tasks self w = (Ret results, self', w')
      /\ Forall2 result_of tasks results
      /\ processed_count self' = processed_count self + Z.of_nat (List.length tasks)
      /\ success_count self' = success_count self + successes results
      /\ failed_count self' = failed_count self + failures results
      /\ BaiduOCRProcessor.processed_count (processor self')
         = BaiduOCRProcessor.processed_count (processor self)
           + Z.of_nat (List.length tasks).
Proof.
  induction tasks as [|[img out] tasks IH]; intros self w.
  - exists [], self, w. cbn. repeat split; try lia. constructor.
  - cbn [run_tasks]. unfold bind at 1.
    destruct (process_single_image_safe_cases img out self w)
      as (res & s1 & w1 & E1 & Hi & Ho & Hp & Hpp & Hres).
    rewrite E1. unfold bind at 1, modify at 1. unfold bind at 1.
    destruct (IH (incr_processed s1) w1)
      as (results & s2 & w2 & E2 & HF & Hp2 & Hs2 & Hf2 & Hpp2).
    rewrite E2. exists (res :: results), s2, w2.
    split; [reflexivity|].
    split; [constructor; [now split | exact HF]|].
    cbn [processed_count success_count failed_count processor incr_processed]
      in Hp2, Hs2, Hf2, Hpp2.
    unfold successes, failures in *. cbn [filter List.length].
    destruct (success res); cbn [negb List.length];
      [destruct Hres as (_ & Hs1 & Hf1 & _)
      |destruct Hres as (_ & _ & _ & Hs1 & Hf1 & _)];
      repeat split; lia.
Qed.

Lemma process_single_image_safe_requests (image_file_arg output_file_arg : pystr)
  (self : t) (w : World) :
  at_most_more 1 (ocr_requests w)
    (ocr_requests (snd (process_single_image_safe image_file_arg output_file_arg
                          self w))).
Proof.
  unfold process_single_image_safe, try_except at 1.
  unfold bind, time_time, on_processor, on_field.
  pose proof (process_single_image_requests image_file_arg output_file_arg
                (py "accurate") (processor self) (tick w)) as R.
  destruct (process_single_image_step image_file_arg output_file_arg
              (py "accurate") (processor self) (tick w))
    as (b & p' & w2 & E2 & _).
  rewrite E2 in R |- *. simpl in R.
  destruct b.
  - unfold try_except, read_text. cbn [files tick].
    destruct (files w2 output_file_arg); exact R.
  - exact R.
Qed.


Lemma run_tasks_requests (tasks : list (pystr * pystr)) :
  forall (self : t) (w : World),
    at_most_more (List.length tasks) (ocr_requests w)
      (ocr_requests (snd (run_tasks tasks self w))).
Proof.
  induction tasks as [|[img out] tasks IH]; intros self w.
  - apply at_most_more_refl.
  - cbn [run_tasks]. unfold bind at 1.
    pose proof (process_single_image_safe_requests img out self w) as R1.
    destruct (process_single_image_safe_cases img out self w)
      as (res & s1 & w1 & E1 & _).
    rewrite E1 in R1 |- *. simpl in R1.
    unfold bind at 1, modify at 1. unfold bind at 1.
    pose proof (IH (incr_processed s1) w1) as R2.
    destruct (run_tasks_outcome tasks (incr_processed s1) w1)
      as (results & s2 & w2 & E2 & _).
    rewrite E2 in R2 |- *. simpl in R2.
    exact (at_most_more_trans 1 (List.length tasks) _ _ _ R1 R2).
Qed.

Lemma get_image_files_discovered (directory : pystr) (self : t) (w : World) :
  get_image_files directory self w = (Ret (discovered w directory), self, w).
Proof. reflexivity. Qed.

Lemma permutation_tally (rs rs' : list result) :
  Permutation rs rs' -> successes rs = successes rs' /\ failures rs = failures rs'.
Proof.
  intros P. unfold successes, failures.
  now rewrite (Permutation_length (permutation_filter success _ _ P)),
    (Permutation_length
       (permutation_filter (fun r => negb (success r)) _ _ P)).
Qed.

Section Pools.

Variable several_workers : list (pystr * pystr) -> M t (list result).
Variable as_completed : list result -> list result.



End Pools.


End BatchStatistics.

(** ** [BaiduOCRProcessor.process_batch] *)

Section ProcessorBatch.

Import BaiduOCRProcessor.

Lemma process_files_outcome (output_dir ocr_type : pystr) (image_files : list pystr) :
  forall (p : t) (w : World),
    exists results p' w',
      process_files output_dir ocr_type image_files p w = (Ret results, p', w')
      /\ List.map fst results = image_files
      /\ processed_count p' = processed_count p + Z.of_nat (List.length image_files)
      /\ success_count p' = success_count p + count_true results
      /\ failed_count p' = failed_count p + count_false results.
Proof.
  induction image_files as [|f fs IH]; intros p w.
  - exists [], p, w. cbn. repeat split; lia.
  - cbn [process_files]. unfold bind at 1.
    destruct (process_single_image_step f (artifact_path output_dir f) ocr_type p w)
      as (b & p1 & w1 & E1 & Hp & Hs & Hf).
    rewrite E1. unfold bind at 1.
    destruct (IH p1 w1) as (results & p2 & w2 & E2 & Hk & Hp2 & Hs2 & Hf2).
    rewrite E2. exists ((f, b) :: results), p2, w2.
    split; [reflexivity|]. split; [cbn; now rewrite Hk|].
    unfold count_true, count_false in *. cbn [filter snd List.length].
    destruct b; cbn [negb List.length]; repeat split; lia.
Qed.

Lemma find_images_nodup (w : World) (image_dir : pystr) (extensions : list pystr) :
  NoDup (find_images w image_dir extensions).
Proof.
  unfold find_images. apply nodup_map_injective.
  - apply child_injective.
  - apply (Permutation_NoDup (Permutation_sym (sorted_perm _))).
    apply NoDup_nodup.
Qed.

(** The files found are listed in ascending order of their names, each
    name once, after the prefix of the directory. *)
Lemma find_images_sorted (w : World) (image_dir : pystr) (extensions : list pystr) :
  exists names,
    find_images w image_dir extensions
    = List.map (fun n => dir_prefix image_dir ++ n) names
    /\ StronglySorted le names
    /\ NoDup names
    /\ forall n, In n names
                 <-> In n (scandir w image_dir)
                     /\ exists ext, In ext extensions
                                    /\ (endswith n ext = true
                                        \/ endswith n (upper ext) = true).
Proof.
  unfold find_images.
  set (globbed := flat_map _ extensions).
  exists (sorted (nodup (list_eq_dec N.eq_dec) globbed)).
  split; [apply map_ext; intros n; apply child_prefix|].
  split; [apply sorted_ordered|].
  split; [apply (Permutation_NoDup (Permutation_sym (sorted_perm _))), NoDup_nodup|].
  intros n. split.
  - intros H. apply (Permutation_in _ (sorted_perm _)) in H.
    apply nodup_In in H. subst globbed. apply in_flat_map in H.
    destruct H as (ext & Hext & H). unfold PathLib.glob_suffix in H.
    apply in_app_or in H.
    destruct H as [H|H]; apply filter_In in H; destruct H as [Hn Hm];
      (split; [exact Hn|]); exists ext; (split; [exact Hext|]); auto.
  - intros (Hn & ext & Hext & Hm).
    apply (Permutation_in _ (Permutation_sym (sorted_perm _))).
    apply nodup_In. subst globbed. apply in_flat_map. exists ext.
    split; [exact Hext|]. unfold PathLib.glob_suffix. apply in_or_app.
    destruct Hm as [Hm|Hm]; [left | right]; now apply filter_In.
Qed.


(** A fresh processor on a directory without pictures: the batch raises
    the division by zero. *)
Lemma processor_batch_without_images :
  exists w',
    process_batch (py "in") (py "out") (py "accurate") None
      Worlds.processor_ready Worlds.no_pictures
    = (Raise (py "division by zero"), Worlds.processor_ready, w').
Proof. eexists. reflexivity. Qed.

End ProcessorBatch.

(** ** Shape of the converted text *)

Section LayoutExtras.

Import Layout.

(** The text conversion is already trimmed: every line it emits is
    non-empty and neither starts nor ends with whitespace, the whole output
    neither starts nor ends with whitespace, and [strip] leaves it as it
    is. *)
Theorem convert_to_markdown_is_trimmed :
  (forall ws : list word_info,
     Forall (fun l => l <> [] /\ trimmed l = true) (md_lines ws))
  /\ (forall r : ocr_result,
        trimmed (convert_to_markdown r) = true
        /\ strip (convert_to_markdown r) = convert_to_markdown r).
Proof.
  assert (L : forall ws, Forall (fun l => truthy l = true /\ trimmed l = true)
                           (md_lines ws)).
  { intros ws. rewrite md_lines_groups. apply Forall_forall. intros l Hl.
    apply filter_In in Hl. destruct Hl as [Hl Ht]. split; [exact Ht|].
    apply in_map_iff in Hl. destruct Hl as (g & <- & _). apply trimmed_strip. }
  split.
  - intros ws. eapply Forall_impl; [|apply L].
    intros l [H1 H2]. split; [now apply truthy_true_iff | exact H2].
  - intros r.
    assert (T : trimmed (convert_to_markdown r) = true).
    { unfold convert_to_markdown.
      destruct (words_result r) as [ws|]; [|reflexivity].
      apply trimmed_join, L. }
    split; [exact T | now apply strip_of_trimmed].
Qed.

Lemma group_lines_one_band (ws : list word_info) :
  forall (y : Z) (g : list pystr),
    gaps_within y ws = true ->
    group_lines_from y g ws = [g ++ List.map word_text ws].
Proof.
  induction ws as [|wi ws IH]; intros y g H.
  - simpl. now rewrite app_nil_r.
  - simpl in *. apply andb_true_iff in H. destruct H as [H1 H2].
    apply negb_true_iff in H1. rewrite H1, (IH _ _ H2), <- app_assoc.
    reflexivity.
Qed.

(** When no word lies more than 20 from the word before it, the whole text
    comes out as one line: the words separated by single spaces, trimmed.
    The words are compared pairwise, so a text may drift by any amount over
    its length.  This is the case, in particular, when no word carries a
    [location], every [top] then counting as 0. *)
Theorem convert_to_markdown_one_line :
  forall ws : list word_info,
    (one_band ws = true ->
     convert_to_markdown (text_result ws)
     = strip (join SP (List.map word_text ws)))
    /\ ((forall wi, In wi ws -> word_location wi = None) -> one_band ws = true).
Proof.
  intros ws. split.
  - intros H. unfold convert_to_markdown, text_result. cbn [words_result].
    rewrite md_lines_groups. destruct ws as [|wi ws]; [reflexivity|].
    cbn [group_lines one_band] in *.
    rewrite (group_lines_one_band ws _ [word_text wi] H).
    cbn [List.map filter app]. unfold group_text.
    destruct (truthy (strip (join SP (word_text wi :: List.map word_text ws))))
      eqn:E; [reflexivity|].
    apply truthy_false_iff in E. now rewrite E.
  - intros H. destruct ws as [|wi ws]; [reflexivity|].
    cbn [one_band].
    assert (T : forall x, In x (wi :: ws) -> word_top x = 0).
    { intros x Hx. unfold word_top. now rewrite (H x Hx). }
    rewrite (T wi (or_introl eq_refl)).
    assert (T' : forall x, In x ws -> word_top x = 0)
      by (intros x Hx; apply T; now right).
    clear - T'. induction ws as [|x ws IH]; [reflexivity|].
    simpl. rewrite (T' x (or_introl eq_refl)). simpl.
    apply IH. intros z Hz. apply T'. now right.
Qed.

(** Three words whose tops drift 0, 15, 30 stay on one line; two words
    without location do, too. *)
Lemma convert_to_markdown_one_line_witness :
  convert_to_markdown
    (text_result [word_at (py "a") 0; word_at (py "b") 15; word_at (py "c") 30])
  = py "a b c"
  /\ one_band [mk_word_info (Some (py "x")) None;
               mk_word_info (Some (py "y")) None] = true.
Proof.
  split.
  - exact (proj1 (convert_to_markdown_one_line
                    [word_at (py "a") 0; word_at (py "b") 15; word_at (py "c") 30])
                 eq_refl).
  - apply (proj2 (convert_to_markdown_one_line
                    [mk_word_info (Some (py "x")) None;
                     mk_word_info (Some (py "y")) None])).
    intros wi [<-|[<-|[]]]; reflexivity.
Defined.

(** A table with at least one row never converts to blank text, whatever
    its cells hold: the output starts with a pipe. *)
Theorem convert_table_to_markdown_never_blank :
  forall (r : ocr_result) (fr : list form_row),
    form_result r = Some fr ->
    table_data fr <> [] ->
    nonblank (convert_table_to_markdown r) = true
    /\ truthy (strip (convert_table_to_markdown r)) = true.
Proof.
  intros r fr Hfr Htd.
  assert (H : nonblank (convert_table_to_markdown r) = true).
  { unfold convert_table_to_markdown. rewrite Hfr.
    destruct fr as [|f fr']; [now destruct Htd|].
    destruct (table_data (f :: fr')) as [|h rest]; [now destruct Htd|].
    unfold md_table_lines. cbn [app List.map join]. reflexivity. }
  split; [exact H | now rewrite truthy_strip].
Qed.

(** A table whose only row has no cells. *)
Lemma convert_table_to_markdown_never_blank_witness :
  nonblank (convert_table_to_markdown (table_result [[]])) = true.
Proof.
  apply (convert_table_to_markdown_never_blank (table_result [[]])
           [mk_form_row (Some [])]); [reflexivity | discriminate].
Defined.

End LayoutExtras.

(** ** Observations that a whole retry run leaves alone *)

Section RetryFrames.

Import RetryFailedFiles.

Context {X : Type} (f : World -> X).

Hypothesis blind : effect_blind f.

Let f_network : network_blind f := proj1 blind.
Let f_tick : forall w, f (tick w) = f w := proj1 (proj1 blind).
Let f_sleep : forall d w, f (log_sleep d w) = f w := proj1 (proj2 blind).
Let f_store : forall path content w, f (store_file path content w) = f w :=
  proj2 (proj2 blind).

Lemma pv_process_single_image (image_path output_path ocr_type : pystr) :
  preserves f
    (BaiduOCRProcessor.process_single_image image_path output_path ocr_type).
Proof.
  unfold BaiduOCRProcessor.process_single_image.
  apply pv_try_finally; [|preserve].
  apply pv_try_except; [|intros ?; preserve].
  apply pv_bind; [apply pv_recognize, f_network | intros ?].
  preserve.
Qed.

Lemma pv_attempt (image_file_arg output_file_arg : pystr) (max_retries attempt : Z) :
  preserves f
    (try_except (attempt_body image_file_arg output_file_arg max_retries attempt)
       (attempt_handler image_file_arg output_file_arg max_retries attempt)).
Proof.
  apply pv_try_except.
  - unfold attempt_body.
    apply pv_bind; [preserve | intros ?].
    apply pv_bind; [preserve | intros ?].
    apply pv_bind;
      [unfold on_processor; apply pv_on_field, pv_process_single_image | intros ?].
    preserve.
  - intros e. unfold attempt_handler. preserve.
Qed.

Lemma pv_retry_loop (image_file_arg output_file_arg : pystr) (max_retries : Z)
  (remaining : nat) :
  forall attempt,
    preserves f
      (retry_loop remaining image_file_arg output_file_arg max_retries attempt).
Proof.
  induction remaining as [|n IH]; intros attempt; cbn [retry_loop].
  - apply pv_ret.
  - apply pv_bind; [apply pv_attempt | intros [|o]]; [apply IH | apply pv_ret].
Qed.

Lemma pv_process_with_retry (image_file_arg output_file_arg : pystr)
  (max_retries : Z) :
  preserves f (process_with_retry image_file_arg output_file_arg max_retries).
Proof. apply pv_retry_loop. Qed.

End RetryFrames.

(** ** Writing a file piece by piece *)

Section PieceFacts.

Context {S : Type}.

Lemma files_stored (path content : pystr) (w : World) :
  files (store_file path content w) path = Some content.
Proof. cbn [files store_file]. now rewrite pystr_eqb_refl. Qed.

(** Pieces that can all be encoded are appended, one after the other;
    otherwise the call raises at a piece that cannot be encoded, and the file
    is still there.  Nothing but the file changes. *)
Lemma write_pieces_cases (path : pystr) (pieces : list pystr) :
  forall (s : S) (w : World) (written : pystr),
    files w path = Some written ->
    match write_pieces path pieces s w with
    | (Ret _, s', w') =>
        s' = s
        /\ files w' path = Some (written ++ concat pieces)
        /\ (forall X (f : World -> X), store_blind f -> f w' = f w)
    | (Raise _, s', w') =>
        s' = s
        /\ (exists piece, In piece pieces /\ encodable piece = false)
        /\ files w' path <> None
        /\ (forall X (f : World -> X), store_blind f -> f w' = f w)
    end.
Proof.
  induction pieces as [|piece rest IH]; intros s w written Hw.
  - cbn. rewrite app_nil_r. now repeat split.
  - cbn [write_pieces]. unfold bind, write_text.
    destruct (encodable piece) eqn:He.
    + rewrite Hw.
      specialize (IH s (store_file path (written ++ piece) w) (written ++ piece)
                    (files_stored _ _ _)).
      destruct (write_pieces path rest s (store_file path (written ++ piece) w))
        as [[[u|e] s'] w'].
      * destruct IH as (-> & Hf & Hb). split; [reflexivity|].
        split; [cbn [concat]; now rewrite Hf, <- app_assoc|].
        intros X f Bf. now rewrite (Hb X f Bf), Bf.
      * destruct IH as (-> & (x & Hx & Hxe) & Hf & Hb). split; [reflexivity|].
        split; [exists x; split; [now right | exact Hxe]|].
        split; [exact Hf|].
        intros X f Bf. now rewrite (Hb X f Bf), Bf.
    + split; [reflexivity|].
      split; [exists piece; split; [now left | exact He]|].
      split; [now rewrite Hw | reflexivity].
Qed.

Lemma write_text_cases (path text : pystr) (s : S) (w : World) (written : pystr) :
  files w path = Some written ->
  match write_text path text s w with
  | (Ret _, s', w') =>
      s' = s
      /\ files w' path = Some (written ++ text)
      /\ (forall X (f : World -> X), store_blind f -> f w' = f w)
  | (Raise _, s', w') =>
      s' = s /\ encodable text = false /\ w' = w
  end.
Proof.
  intros Hw. unfold write_text. destruct (encodable text).
  - rewrite Hw. split; [reflexivity|]. split; [apply files_stored|].
    intros X f Bf. apply Bf.
  - now repeat split.
Qed.

(** Writing a file in one piece is opening it and writing the piece: the
    two give the same result and the same files, and agree on everything
    else. *)
Lemma write_file_open_write (path content : pystr) (s : S) (w : World) :
  let direct := write_file path content s w in
  let stepwise := bind (open_w path) (fun _ => write_text path content) s w in
  fst direct = fst stepwise
  /\ (forall p, files (snd direct) p = files (snd stepwise) p)
  /\ (forall X (f : World -> X), store_blind f ->
      f (snd direct) = f (snd stepwise)).
Proof.
  unfold write_file, bind, open_w, write_text.
  destruct (writable w path); [|now repeat split].
  destruct (encodable content); cbn [fst snd]; [|now repeat split].
  rewrite files_stored. cbn [app].
  split; [reflexivity|]. split.
  - intros p. cbn [files store_file]. now destruct (PyStr.eqb p path).
  - intros X f Bf. now rewrite !Bf.
Qed.

End PieceFacts.

Ltac encodable_solve :=
  repeat rewrite encodable_app;
  repeat rewrite encodable_py;
  repeat rewrite encodable_str_int;
  reflexivity.

(** ** [retry_failed_files] *)

Section RetryRun.

Import RetryFailedFiles RetryFailedFilesRun.

Lemma writable_effect_blind : effect_blind writable.
Proof. repeat split. Qed.

Lemma retry_tally_total (rs : list outcome) :
  retry_successes rs + retry_failures rs = Z.of_nat (List.length rs).
Proof.
  unfold retry_successes, retry_failures. induction rs as [|r rs IH]; [reflexivity|].
  simpl. destruct (success r); simpl List.length; lia.
Qed.

(** The loop never raises: it returns one outcome per file that existed
    when its turn came, and tallies the outcomes. *)
Lemma retry_each_outcome (input_dir output_dir : pystr) (failed_files : list pystr) :
  forall (self : t) (w : World),
    exists results self' w',
      retry_each input_dir output_dir failed_files self w = (Ret results, self', w')
      /\ total_processed (stats self')
         = total_processed (stats self) + Z.of_nat (List.length results)
      /\ success_count (stats self')
         = success_count (stats self) + retry_successes results
      /\ failed_count (stats self')
         = failed_count (stats self) + retry_failures results
      /\ incl (List.map image_file results)
              (List.map (PathLib.joinpath input_dir) failed_files)
      /\ (List.length results <= List.length failed_files)%nat
      /\ writable w' = writable w
      /\ Forall (fun o => success o = false ->
                          error o = Some MSG_PROCESSING_FAILED) results.
Proof.
  induction failed_files as [|filename rest IH]; intros self w.
  - exists [], self, w. cbn. repeat split; try lia; [intros x []|constructor].
  - cbn [retry_each]. unfold bind at 1, path_exists.
    destruct (files w (PathLib.joinpath input_dir filename)) as [data|]; cbn [negb].
    + unfold bind at 1.
      destruct (process_with_retry_general
                  (PathLib.joinpath input_dir filename)
                  (retry_artifact output_dir filename) DEFAULT_MAX_RETRIES self w
                  ltac:(unfold DEFAULT_MAX_RETRIES; lia))
        as (o & s1 & w1 & E1 & _ & Hi & _ & _ & _ & Hres).
      pose proof (pv_process_with_retry writable writable_effect_blind
                    (PathLib.joinpath input_dir filename)
                    (retry_artifact output_dir filename) DEFAULT_MAX_RETRIES
                    self w) as W1.
      rewrite E1 in W1 |- *. simpl in W1.
      unfold bind at 1, modify at 1. unfold bind at 1.
      destruct (IH (incr_total s1) w1)
        as (results & s2 & w2 & E2 & Ht & Hs & Hf & Hincl & Hlen & W2 & Herr).
      rewrite E2. exists (o :: results), s2, w2.
      split; [reflexivity|].
      cbn [incr_total stats total_processed success_count failed_count] in Ht, Hs, Hf.
      unfold retry_successes, retry_failures in *.
      cbn [filter List.length List.map].
      assert (Hstats :
                if success o
                then success_count (stats s1) = success_count (stats self) + 1
                     /\ failed_count (stats s1) = failed_count (stats self)
                     /\ total_processed (stats s1) = total_processed (stats self)
                else success_count (stats s1) = success_count (stats self)
                     /\ failed_count (stats s1) = failed_count (stats self) + 1
                     /\ total_processed (stats s1) = total_processed (stats self)).
      { destruct (success o).
        - destruct Hres as [_ ->]. now repeat split.
        - destruct Hres as (_ & _ & _ & _ & ->). now repeat split. }
      split; [|split; [|split; [|split; [|split; [|split]]]]].
      * destruct (success o); cbn [negb List.length]; lia.
      * destruct (success o); cbn [negb List.length]; lia.
      * destruct (success o); cbn [negb List.length]; lia.
      * intros x [<-|Hx]; [left; now rewrite Hi | right; now apply Hincl].
      * cbn [List.length]. lia.
      * now rewrite W2.
      * constructor; [|exact Herr]. intros Hso. rewrite Hso in Hres.
        now destruct Hres as (_ & He & _).
    + destruct (IH self w)
        as (results & s2 & w2 & E2 & Ht & Hs & Hf & Hincl & Hlen & W2 & Herr).
      rewrite E2. exists results, s2, w2. split; [reflexivity|].
      repeat split; try assumption.
      * intros x Hx. right. now apply Hincl.
      * cbn [List.length]. lia.
Qed.

(** When none of the listed files exists, the loop does nothing. *)
Lemma retry_each_all_missing (input_dir output_dir : pystr)
  (failed_files : list pystr) (self : t) (w : World) :
  (forall filename, In filename failed_files ->
     files w (PathLib.joinpath input_dir filename) = None) ->
  retry_each input_dir output_dir failed_files self w = (Ret [], self, w).
Proof.
  induction failed_files as [|filename rest IH]; intros H; [reflexivity|].
  cbn [retry_each]. unfold bind at 1, path_exists.
  rewrite (H filename (or_introl eq_refl)). cbn [negb].
  apply IH. intros x Hx. apply H. now right.
Qed.

Variable format_fixed : nat -> QArith_base.Q -> String.string.

Ltac encodable_absurd He :=
  match type of He with
  | encodable ?x = false =>
      let K := fresh in
      assert (K : encodable x = true) by encodable_solve; congruence
  end.

(** A piece of the two optional sections that cannot be encoded holds the
    name of an image file that cannot be encoded. *)
Lemma report_cases_pieces (results : list outcome) :
  Forall (fun o => success o = false -> error o = Some MSG_PROCESSING_FAILED)
    results ->
  forall piece,
    In piece (report_cases format_fixed results) ->
    encodable piece = false ->
    exists o, In o results /\ encodable (PathLib.name (image_file o)) = false.
Proof.
  intros Hres piece Hin He. unfold report_cases in Hin. apply in_app_or in Hin.
  assert (Hname : forall x,
             encodable (py "### " ++ PathLib.name x ++ NL) = false ->
             encodable (PathLib.name x) = false).
  { intros x H. rewrite !encodable_app, encodable_py in H.
    change (encodable NL) with true in H. now rewrite andb_true_r in H. }
  destruct Hin as [Hin|Hin].
  - destruct (filter success results) as [|o0 os] eqn:F; [destruct Hin|].
    destruct Hin as [<-|Hin]; [discriminate He|].
    apply in_concat in Hin. destruct Hin as (ps & Hps & Hp).
    apply in_map_iff in Hps. destruct Hps as (o & <- & Ho).
    rewrite <- F in Ho. apply filter_In in Ho. destruct Ho as [Ho _].
    exists o. split; [exact Ho|].
    unfold success_case in Hp. cbn [In] in Hp.
    destruct Hp as [<-|[<-|[<-|[<-|[<-|[]]]]]];
      [now apply Hname | encodable_absurd He ..].
  - destruct (filter (fun o => negb (success o)) results) as [|o0 os] eqn:F;
      [destruct Hin|].
    destruct Hin as [<-|Hin]; [discriminate He|].
    apply in_concat in Hin. destruct Hin as (ps & Hps & Hp).
    apply in_map_iff in Hps. destruct Hps as (o & <- & Ho).
    rewrite <- F in Ho. apply filter_In in Ho. destruct Ho as [Ho Hf].
    apply negb_true_iff in Hf.
    exists o. split; [exact Ho|].
    rewrite Forall_forall in Hres. specialize (Hres o Ho Hf).
    unfold failed_case in Hp. rewrite Hres in Hp. cbn [In str_error] in Hp.
    destruct Hp as [<-|[<-|[<-|[]]]];
      [now apply Hname | encodable_absurd He ..].
Qed.

Lemma ocr_requests_store_blind : store_blind ocr_requests.
Proof. intros path content w. reflexivity. Qed.

Lemma writable_store_blind : store_blind writable.
Proof. intros path content w. reflexivity. Qed.

Lemma clock_now_store_blind :
  store_blind (fun w => strftime w (clock w (clock_reads w))).
Proof. intros path content w. reflexivity. Qed.

(** What writing the report ends with: it returns after writing the whole
    report, or it raises because the report cannot be opened, because
    [total_processed] is zero -- the lines before the success rate are in
    the file then -- or because the name of an image file cannot be
    encoded. *)
Lemma generate_retry_report_cases (results : list outcome) (output_dir : pystr)
  (self : t) (w : World) :
  let report_file := PathLib.joinpath output_dir (py "retry_report.md") in
  Forall (fun o => success o = false -> error o = Some MSG_PROCESSING_FAILED)
    results ->
  match generate_retry_report format_fixed results output_dir self w with
  | (Ret _, self', w') =>
      self' = self
      /\ ocr_requests w' = ocr_requests w
      /\ writable w report_file = true
      /\ total_processed (stats self) <> 0
      /\ files w' report_file <> None
  | (Raise e, self', w') =>
      self' = self
      /\ ocr_requests w' = ocr_requests w
      /\ ((writable w report_file = false /\ w' = w)
          \/ (writable w report_file = true
              /\ e = py "division by zero"
              /\ total_processed (stats self) = 0
              /\ files w' report_file
                 = Some (report_head (py (strftime w (clock w (clock_reads w))))
                           (stats self)))
          \/ (writable w report_file = true
              /\ total_processed (stats self) <> 0
              /\ files w' report_file <> None
              /\ exists o, In o results
                           /\ encodable (PathLib.name (image_file o)) = false))
  end.
Proof.
  intros report_file Hres. unfold generate_retry_report. fold report_file.
  unfold bind at 1, open_w.
  destruct (writable w report_file) eqn:Hw;
    [|split; [reflexivity | split; [reflexivity | left; now split]]].
  set (w1 := store_file report_file [] w).
  (* the title *)
  unfold bind at 1.
  pose proof (write_text_cases report_file REPORT_TITLE self w1 []
                (files_stored _ _ _)) as T1.
  destruct (write_text report_file REPORT_TITLE self w1) as [[[u1|e1] s2] w2];
    [|destruct T1 as (_ & He & _); discriminate He].
  destruct T1 as (-> & F2 & B2).
  unfold bind at 1, now_strftime. unfold bind at 1, get_self at 1.
  assert (Hstamp : strftime w2 (clock w2 (clock_reads w2))
                   = strftime w (clock w (clock_reads w))).
  { now rewrite (B2 _ _ clock_now_store_blind). }
  rewrite Hstamp.
  set (stamp := py (strftime w (clock w (clock_reads w)))).
  assert (R2 : ocr_requests (tick w2) = ocr_requests w).
  { cbn [ocr_requests tick]. now rewrite (B2 _ _ ocr_requests_store_blind). }
  (* the lines before the success rate *)
  unfold bind at 1.
  pose proof (write_pieces_cases report_file (head_pieces stamp (stats self))
                self (tick w2) ([] ++ REPORT_TITLE) F2) as T3.
  destruct (write_pieces report_file (head_pieces stamp (stats self)) self (tick w2))
    as [[[u3|e3] s3] w3].
  2:{ destruct T3 as (_ & (piece & Hin & He) & _). exfalso.
      unfold head_pieces, stamp in Hin. cbn [In] in Hin.
      destruct Hin as [<-|[<-|[<-|[<-|[<-|[]]]]]]; encodable_absurd He. }
  destruct T3 as (-> & F3 & B3).
  assert (R3 : ocr_requests w3 = ocr_requests w).
  { now rewrite (B3 _ _ ocr_requests_store_blind). }
  destruct (total_processed (stats self) =? 0) eqn:Hz.
  - apply Z.eqb_eq in Hz. cbn [raise].
    split; [reflexivity|]. split; [exact R3|]. right. left.
    split; [reflexivity|]. split; [reflexivity|]. split; [exact Hz|].
    rewrite F3. unfold report_head, head_pieces. cbn [concat app].
    now rewrite app_nil_r.
  - apply Z.eqb_neq in Hz.
    (* the success rate *)
    unfold bind at 1.
    match goal with
    | |- context [write_text report_file ?x self w3] =>
        pose proof (write_text_cases report_file x self w3 _ F3) as T4;
        destruct (write_text report_file x self w3) as [[[u4|e4] s4] w4];
          [|destruct T4 as (_ & He & _); exfalso; encodable_absurd He]
    end.
    destruct T4 as (-> & F4 & B4).
    assert (R4 : ocr_requests w4 = ocr_requests w).
    { now rewrite (B4 _ _ ocr_requests_store_blind). }
    (* the two optional sections *)
    unfold bind at 1.
    pose proof (write_pieces_cases report_file (report_cases format_fixed results)
                  self w4 _ F4) as T5.
    destruct (write_pieces report_file (report_cases format_fixed results) self w4)
      as [[[u5|e5] s5] w5].
    2:{ destruct T5 as (-> & (piece & Hin & He) & F5 & B5).
        split; [reflexivity|].
        split; [now rewrite (B5 _ _ ocr_requests_store_blind)|].
        right. right. split; [reflexivity|]. split; [exact Hz|].
        split; [exact F5|].
        exact (report_cases_pieces results Hres piece Hin He). }
    destruct T5 as (-> & F5 & B5).
    assert (R5 : ocr_requests w5 = ocr_requests w).
    { now rewrite (B5 _ _ ocr_requests_store_blind). }
    (* the rule and the closing line *)
    unfold bind at 1.
    pose proof (write_text_cases report_file (py "---" ++ NL) self w5 _ F5) as T6.
    destruct (write_text report_file (py "---" ++ NL) self w5)
      as [[[u6|e6] s6] w6];
      [|destruct T6 as (_ & He & _); discriminate He].
    destruct T6 as (-> & F6 & B6).
    unfold bind at 1, now_strftime.
    match goal with
    | |- context [write_text report_file ?x self (tick w6)] =>
        pose proof (write_text_cases report_file x self (tick w6) _ F6) as T7;
        destruct (write_text report_file x self (tick w6)) as [[[u7|e7] s7] w7];
          [|destruct T7 as (_ & He & _); exfalso; encodable_absurd He]
    end.
    destruct T7 as (-> & F7 & B7).
    split; [reflexivity|].
    split.
    { rewrite (B7 _ _ ocr_requests_store_blind). cbn [ocr_requests tick].
      now rewrite (B6 _ _ ocr_requests_store_blind). }
    split; [reflexivity|]. split; [exact Hz|]. now rewrite F7.
Qed.



End RetryRun.

